(** * AI-Travel-Assist: the route-to-recommendation pipeline

  A shallow embedding of the TypeScript sources
  - [lib/distance-calculator.ts]  (class [DistanceCalculator]),
  - [lib/route-orchestrator.ts]   (class [RouteOrchestrator]),
  - [lib/weather-service.ts]      (class [WeatherService]),
  - [lib/ai-poi-filter.ts]        (class [AIPOIFilter]),
  - [lib/poi-service.ts]          (class [POIService]),
  - [lib/database.ts]             (class [InMemoryDatabase]),
  - [lib/geocoding-service.ts]    (class [GeocodingService]),
  followed by the properties of the pipeline that the specification states
  and by further properties of the code.

  Numbers.  A JavaScript [number] is an IEEE-754 double.  The embedding
  idealises it: quantities that go through [Math.sin], [Math.cos],
  [Math.sqrt] or [Math.atan2] (coordinates of a route, distances, progress
  along the route, time values in milliseconds) are real numbers [R];
  every other number (ratings, scores, weather readings, coordinates of a
  POI that are only formatted) is an exact rational [Q], so that scoring,
  deduplication and selection can be run on concrete inputs.  Rounding
  error, infinities and NaN are outside this model.  Where the rounding
  itself is the point, the lines of the code are embedded in double
  precision, over Rocq's primitive floats ([RouteOrchestratorDouble]).

  Dates.  A [Date] is represented by its time value in milliseconds; the
  whole number of milliseconds that the [Date] object holds is
  [JS.timeClip] of that value.

  Strings are [string]s of 8-bit characters: the bytes of the UTF-8
  encoding of the text, ASCII text being its own encoding; [toLowerCase]
  acts on the ASCII letters.

  Object literals used as lookup tables are association lists.  [JS.own]
  looks a key up among the own properties of the literal; [JS.inherited]
  tells the keys under which [table[key]] finds a property inherited from
  [Object.prototype] when the literal has none of its own. *)

From Stdlib Require Import Reals Lra Psatz Zfloor.
From Stdlib Require Import ZArith QArith Qround Qminmax Qabs Lia.
From Stdlib Require Import String Ascii List DecimalString.
From Stdlib Require Floats.
From stdpp Require Import gmap strings list sorting.

(* ===================================================================== *)
(** * JavaScript built-ins used by the sources *)
(* ===================================================================== *)

Module JS.

(** ** Numbers as exact rationals *)

Definition ltb (x y : Q) : bool := negb (Qle_bool y x).
Definition leb (x y : Q) : bool := Qle_bool x y.
Definition gtb (x y : Q) : bool := ltb y x.

(** Truthiness of a number that may be [undefined]: [undefined] and [0]
    are falsy. *)
Definition truthy (v : option Q) : bool :=
  match v with
  | Some q => negb (Qeq_bool q 0)
  | None => false
  end.

(** The number held by a field that passed a truthiness test. *)
Definition num (v : option Q) : Q :=
  match v with
  | Some q => q
  | None => 0
  end.

(** [v || d] for a number [v] that may be [undefined]. *)
Definition or_else (v : option Q) (d : Q) : Q :=
  match v with
  | Some q => if Qeq_bool q 0 then d else q
  | None => d
  end.

(** Truthiness of a string that may be [undefined]: the empty string is
    falsy. *)
Definition truthy_string (v : option string) : bool :=
  match v with
  | Some EmptyString => false
  | Some _ => true
  | None => false
  end.

(** [Math.floor] and [Math.round] (halves are rounded up). *)
Definition floor (x : Q) : Z := Qfloor x.
Definition round (x : Q) : Z := Qfloor (x + (1 # 2)).

Definition min (x y : Q) : Q := Qmin x y.
Definition max (x y : Q) : Q := Qmax x y.

(** ** Strings *)

Definition lower_ascii (c : ascii) : ascii :=
  let n := nat_of_ascii c in
  if ((65 <=? n) && (n <=? 90))%nat then ascii_of_nat (n + 32) else c.

Fixpoint toLowerCase (s : string) : string :=
  match s with
  | EmptyString => EmptyString
  | String c s' => String (lower_ascii c) (toLowerCase s')
  end.

(** [s.includes(needle)]. *)
Fixpoint includes (s needle : string) : bool :=
  String.prefix needle s
  || match s with
     | EmptyString => false
     | String _ s' => includes s' needle
     end.

(** [Array.prototype.includes] on an array of strings. *)
Definition array_includes (l : list string) (x : string) : bool :=
  existsb (String.eqb x) l.

(** [Array.prototype.slice(0, n)]. *)
Definition slice0 {A} (n : nat) (l : list A) : list A := firstn n l.

(** Own-property lookup in an object literal. *)
Fixpoint own {V} (table : list (string * V)) (key : string) : option V :=
  match table with
  | nil => None
  | (k, v) :: rest => if String.eqb k key then Some v else own rest key
  end.

(** The names of the properties of [Object.prototype].  On an object
    literal, and on [{}], [table[key]] with such a key and no own property
    of that name is not [undefined]: it is the inherited function (an
    object, for [__proto__]).  That value is truthy, it is not less than
    any number, arithmetic on it gives NaN, and it cannot be spread into a
    call. *)
Definition inherited (key : string) : bool :=
  existsb (String.eqb key)
    [ "constructor"; "hasOwnProperty"; "isPrototypeOf";
      "propertyIsEnumerable"; "toLocaleString"; "toString"; "valueOf";
      "__proto__"; "__defineGetter__"; "__defineSetter__";
      "__lookupGetter__"; "__lookupSetter__" ]%string.

(** ** Number.prototype.toFixed

    [x.toFixed(f)]: a minus sign when [x < 0]; then the integer [n] for
    which [n / 10^f] is nearest to [|x|] (the larger [n] on a tie), written
    in decimal with at least [f + 1] digits, a point before the last [f].
    (Valid for [|x| < 10^21], beyond which JavaScript switches to the
    exponential notation.) *)

Definition digits (n : Z) : string :=
  NilZero.string_of_uint (N.to_uint (Z.to_N n)).

Fixpoint zeros (k : nat) : string :=
  match k with
  | O => EmptyString
  | S k' => String "0" (zeros k')
  end.

Definition pad_left (width : nat) (s : string) : string :=
  (zeros (width - String.length s) ++ s)%string.

Definition toFixed (f : nat) (x : Q) : string :=
  let sign := if ltb x 0 then "-"%string else EmptyString in
  let n := Qfloor (Qabs x * inject_Z (10 ^ Z.of_nat f) + (1 # 2)) in
  let m := pad_left (f + 1) (digits n) in
  let k := (String.length m - f)%nat in
  let body :=
    if (f =? 0)%nat then m
    else (String.substring 0 k m ++ "." ++ String.substring k f m)%string in
  (sign ++ body)%string.

(** ** Real-valued built-ins *)

(** [Math.atan2(y, x)]. *)
Definition atan2 (y x : R) : R :=
  if Rlt_dec 0 x then atan (y / x)
  else if Rlt_dec x 0 then
    (if Rle_dec 0 y then atan (y / x) + PI else atan (y / x) - PI)
  else if Rlt_dec 0 y then PI / 2
  else if Rlt_dec y 0 then - (PI / 2)
  else 0%R.

(** [Math.floor] on a real. *)
Definition floorR (x : R) : Z := Zfloor x.

(** The whole number of milliseconds that a [Date] built from the time
    value [t] holds: [t] truncated towards zero. *)
Definition timeClip (t : R) : Z :=
  if Rle_dec 0 t then Zfloor t else (- Zfloor (- t))%Z.

(** ** More strings and arrays *)

(** [s.substring(k)]. *)
Fixpoint substringFrom (k : nat) (s : string) : string :=
  match k, s with
  | O, _ => s
  | S k', String _ s' => substringFrom k' s'
  | S _, EmptyString => EmptyString
  end.

(** An integer inside a template literal. *)
Definition showZ (z : Z) : string :=
  if (z <? 0)%Z then ("-" ++ digits (- z))%string else digits z.

(** [l[i]] for an integer index: [undefined] out of range. *)
Definition index {A} (l : list A) (i : Z) : option A :=
  if (i <? 0)%Z then None else nth_error l (Z.to_nat i).

(** A string that may be [undefined], inside a template literal. *)
Definition showString (v : option string) : string :=
  match v with
  | Some s => s
  | None => "undefined"%string
  end.

(** ** Math.random

    The successive results of [Math.random()] are an infinite stream; a
    call reads the head and leaves the tail.  Code that draws random
    numbers is written in the state monad [Gen] over the stream. *)
Definition Rng := nat -> Q.

Definition Gen (A : Type) : Type := Rng -> A * Rng.

Definition ret {A} (a : A) : Gen A := fun g => (a, g).

Definition bind {A B} (c : Gen A) (k : A -> Gen B) : Gen B :=
  fun g => let '(a, g') := c g in k a g'.

Definition random : Gen Q := fun g => (g O, fun n => g (S n)).

(** ** Well-formed strings

    A string of the embedding holds the bytes of the (generalised) UTF-8
    encoding of the JavaScript string.  A lone surrogate, a code unit
    from U+D800 to U+DFFF that is not part of a pair, is encoded by the
    byte 237 followed by a byte from 160 to 191 and one more byte; no
    other character has such an encoding.  [s.isWellFormed()] tells
    whether the string holds no lone surrogate; [encodeURIComponent(s)]
    throws a URIError when it holds one. *)
Definition isSurrogate (a b : ascii) : bool :=
  ((nat_of_ascii a =? 237) && (160 <=? nat_of_ascii b))%nat.

Fixpoint isWellFormed (s : string) : bool :=
  match s with
  | EmptyString => true
  | String a rest =>
      match rest with
      | EmptyString => true
      | String b _ => negb (isSurrogate a b) && isWellFormed rest
      end
  end.

(** ** Exceptions: how a call completes *)
Inductive Completion (A : Type) :=
| Returns (value : A)
| Throws (error : string).
Arguments Returns {A}.
Arguments Throws {A}.

(** ** Promises: how an awaited call settles *)
Inductive Settled (A : Type) :=
| Fulfilled (value : A)
| Rejected (reason : string).
Arguments Fulfilled {A}.
Arguments Rejected {A}.

End JS.

(* ===================================================================== *)
(** * Data model ([lib/types.ts]) *)
(* ===================================================================== *)

Module Location.
Record t (num : Type) := mk { lat : num; lng : num; address : string }.
Arguments mk {num}.
Arguments lat {num}.
Arguments lng {num}.
Arguments address {num}.
End Location.

Module WeatherData.
Record t := mk {
  temperature : Q;
  condition : string;
  humidity : Q;
  windSpeed : Q;
  icon : string
}.
End WeatherData.

Inductive Endpoint := origin | destination.

Module POI.
(** [rating] and [priceLevel] are declared [number]; records built from
    provider data may lack them, hence the option.  [website], [phone],
    [weather] and [closestTo] are optional in the declaration. *)
Record t := mk {
  id : string;
  name : string;
  description : string;
  category : string;
  location : Location.t Q;
  rating : option Q;
  priceLevel : option Q;
  photos : list string;
  openingHours : list string;
  website : option string;
  phone : option string;
  weather : option WeatherData.t;
  aiScore : Q;
  distanceFromRoute : Q;
  closestTo : option Endpoint
}.
End POI.

Module RouteInput.
(** [departureTime] is the time value of the date, in milliseconds.
    [weather] is not part of the declared interface, but
    [buildFilteringCriteria] reads it. *)
Record t (num : Type) := mk {
  from : Location.t num;
  to : Location.t num;
  departureTime : num;
  preferences : list string;
  weather : option WeatherData.t
}.
Arguments mk {num}.
Arguments from {num}.
Arguments to {num}.
Arguments departureTime {num}.
Arguments preferences {num}.
Arguments weather {num}.
End RouteInput.

Module RouteCheckpoint.
(** [estimatedTime] is the time value, in milliseconds, from which the
    [Date] is built; the [Date] holds [JS.timeClip] of it. *)
Record t := mk {
  location : Location.t R;
  distanceFromStart : R;
  estimatedTime : R
}.
End RouteCheckpoint.

(* ===================================================================== *)
(** * Geo math ([lib/distance-calculator.ts]) *)
(* ===================================================================== *)

Module DistanceCalculator.
Local Open Scope R_scope.

Definition toRadians (degrees : R) : R := degrees * (PI / 180).

Definition calculateDistance (lat1 lng1 lat2 lng2 : R) : R :=
  let R := 6371 in
  let dLat := toRadians (lat2 - lat1) in
  let dLng := toRadians (lng2 - lng1) in
  let a :=
    sin (dLat / 2) * sin (dLat / 2) +
    cos (toRadians lat1) * cos (toRadians lat2) * sin (dLng / 2) * sin (dLng / 2) in
  let c := 2 * JS.atan2 (sqrt a) (sqrt (1 - a)) in
  R * c.

End DistanceCalculator.

(* ===================================================================== *)
(** * Checkpoint planner ([lib/route-orchestrator.ts]) *)
(* ===================================================================== *)

Module RouteOrchestrator.
Local Open Scope R_scope.

Definition CHECKPOINT_INTERVAL_KM : R := 50.

Definition toRadians (degrees : R) : R := degrees * (PI / 180).

Definition calculateDistance (from to : Location.t R) : R :=
  let R := 6371 in
  let dLat := toRadians (Location.lat to - Location.lat from) in
  let dLng := toRadians (Location.lng to - Location.lng from) in
  let a :=
    sin (dLat / 2) * sin (dLat / 2) +
    cos (toRadians (Location.lat from)) * cos (toRadians (Location.lat to)) *
    sin (dLng / 2) * sin (dLng / 2) in
  let c := 2 * JS.atan2 (sqrt a) (sqrt (1 - a)) in
  R * c.

Definition numberOfCheckpoints (distance : R) : Z :=
  Z.max 2 (JS.floorR (distance / CHECKPOINT_INTERVAL_KM)).

(** The divisor of [progress] in the loop body. *)
Definition progressDivisor (n : Z) : R := IZR n - 1.

(** [`Checkpoint ${i + 1}`] *)
Definition checkpointLabel (i : nat) : string :=
  ("Checkpoint " ++ JS.digits (Z.of_nat i + 1))%string.

(** The body of the loop for index [i]. *)
Definition checkpointAt (routeInput : RouteInput.t R) (distance : R) (n : Z)
    (i : nat) : RouteCheckpoint.t :=
  let from := RouteInput.from routeInput in
  let to := RouteInput.to routeInput in
  let progress := INR i / progressDivisor n in
  let lat := Location.lat from + (Location.lat to - Location.lat from) * progress in
  let lng := Location.lng from + (Location.lng to - Location.lng from) * progress in
  let estimatedTime :=
    RouteInput.departureTime routeInput +
    ((progress * distance) / 80) * 60 * 60 * 1000 in
  RouteCheckpoint.mk
    (Location.mk lat lng (checkpointLabel i))
    (progress * distance)
    estimatedTime.

(** [for (let i = 0; i < numberOfCheckpoints; i++) checkpoints.push(...)]:
    [remaining] iterations are left, the next index is [i]. *)
Fixpoint checkpointLoop (routeInput : RouteInput.t R) (distance : R) (n : Z)
    (remaining i : nat) (checkpoints : list RouteCheckpoint.t)
    : list RouteCheckpoint.t :=
  match remaining with
  | O => checkpoints
  | S remaining' =>
      checkpointLoop routeInput distance n remaining' (S i)
        (checkpoints ++ [checkpointAt routeInput distance n i])
  end.

Definition generateRouteCheckpoints (routeInput : RouteInput.t R)
    : list RouteCheckpoint.t :=
  let distance :=
    calculateDistance (RouteInput.from routeInput) (RouteInput.to routeInput) in
  let n := numberOfCheckpoints distance in
  checkpointLoop routeInput distance n (Z.to_nat n) 0 [].

End RouteOrchestrator.

(** ** The loop body in double precision

    The lines of the loop body of [generateRouteCheckpoints] that place
    checkpoint [i], in IEEE-754 double precision: [progress], [lat] and
    [lng].  The loop counter and [numberOfCheckpoints] are doubles that
    hold whole numbers. *)
Module RouteOrchestratorDouble.
Import PrimFloat.
#[local] Set Warnings "-inexact-float".
Local Open Scope float_scope.

Definition progress (i numberOfCheckpoints : float) : float :=
  i / (numberOfCheckpoints - 1).

Definition lat (fromLat toLat progress : float) : float :=
  fromLat + (toLat - fromLat) * progress.

Definition lng (fromLng toLng progress : float) : float :=
  fromLng + (toLng - fromLng) * progress.

(** The double that holds a whole number. *)
Definition ofNat (k : nat) : float := of_uint63 (Uint63.of_Z (Z.of_nat k)).

End RouteOrchestratorDouble.

(* ===================================================================== *)
(** * Weather suitability ([lib/weather-service.ts]) *)
(* ===================================================================== *)

Module WeatherService.
Local Open Scope Q_scope.

Definition conditionScores : list (string * Q) :=
  [ ("Clear"%string, 1.0);
    ("Sunny"%string, 1.0);
    ("Partly Cloudy"%string, 0.9);
    ("Cloudy"%string, 0.7);
    ("Overcast"%string, 0.6);
    ("Light Rain"%string, 0.4);
    ("Rain"%string, 0.2);
    ("Heavy Rain"%string, 0.1);
    ("Snow"%string, 0.3);
    ("Thunderstorm"%string, 0.1) ].

Definition getWeatherSuitabilityScore (weather : WeatherData.t) : Q :=
  let score := 1.0 in
  let temperature := WeatherData.temperature weather in
  let score :=
    if JS.ltb temperature 5 || JS.gtb temperature 35 then score * 0.3
    else if JS.ltb temperature 10 || JS.gtb temperature 30 then score * 0.6
    else if JS.ltb temperature 15 || JS.gtb temperature 28 then score * 0.8
    else score in
  let conditionScore :=
    JS.or_else (JS.own conditionScores (WeatherData.condition weather)) 0.5 in
  let score := score * conditionScore in
  let windSpeed := WeatherData.windSpeed weather in
  let score :=
    if JS.gtb windSpeed 40 then score * 0.3
    else if JS.gtb windSpeed 25 then score * 0.7
    else score in
  JS.max 0 (JS.min 1 score).

End WeatherService.

(* ===================================================================== *)
(** * Scoring engine and diversity selector ([lib/ai-poi-filter.ts]) *)
(* ===================================================================== *)

Inductive TimeOfDay := morning | afternoon | evening | night.
Inductive Season := spring | summer | fall | winter.
Inductive TravelStyle := adventure | relaxed | cultural | family | business.

Module AIFilteringCriteria.
Record t := mk {
  userPreferences : list string;
  weatherConditions : WeatherData.t;
  timeOfDay : TimeOfDay;
  seasonality : Season;
  travelStyle : TravelStyle
}.
End AIFilteringCriteria.

Module ScoreBreakdown.
Record t := mk {
  weatherSuitability : Q;
  preferenceMatch : Q;
  timeRelevance : Q;
  seasonalRelevance : Q;
  popularityScore : Q;
  accessibilityScore : Q
}.
End ScoreBreakdown.

Module ScoredPOI.
(** [{ ...poi, aiScore, scoreBreakdown, aiRecommendationReason }]: the
    fields of the POI, the new [aiScore] (which replaces the POI's own)
    and the breakdown.  The recommendation sentence is display text and is
    left out. *)
Record t := mk {
  poi : POI.t;
  aiScore : Q;
  scoreBreakdown : ScoreBreakdown.t
}.
Definition category (s : t) : string := POI.category (poi s).
End ScoredPOI.

(** The local clock fields of the scoring timestamp that
  [buildFilteringCriteria] reads. *)
Module LocalTime.
Record t := mk { getHours : Z; getMonth : Z }.
End LocalTime.

Module AIPOIFilter.
Local Open Scope Q_scope.
Local Open Scope string_scope.

Definition getDefaultWeather : WeatherData.t :=
  WeatherData.mk 20 "Clear" 50 10 "☀️".

Definition styleKeywords : list (TravelStyle * list string) :=
  [ (adventure, ["outdoor"; "hiking"; "adventure"; "sports"; "nature"]);
    (cultural, ["museum"; "art"; "history"; "culture"; "heritage"]);
    (relaxed, ["coffee"; "park"; "scenic"; "garden"; "spa"]);
    (family, ["family"; "kids"; "children"; "playground"; "zoo"]);
    (business, ["business"; "conference"; "meeting"; "hotel"]) ].

Definition inferTravelStyle (preferences : list string) : TravelStyle :=
  let lowerPrefs := map JS.toLowerCase preferences in
  let matches (entry : TravelStyle * list string) :=
    existsb (fun keyword => existsb (fun pref => JS.includes pref keyword) lowerPrefs)
            (snd entry) in
  match find matches styleKeywords with
  | Some (style, _) => style
  | None => relaxed
  end.

Definition buildFilteringCriteria (routeInput : RouteInput.t Q)
    (currentTime : LocalTime.t) : AIFilteringCriteria.t :=
  let hour := LocalTime.getHours currentTime in
  let month := LocalTime.getMonth currentTime in
  let timeOfDay :=
    if ((6 <=? hour) && (hour <? 12))%Z then morning
    else if ((12 <=? hour) && (hour <? 17))%Z then afternoon
    else if ((17 <=? hour) && (hour <? 22))%Z then evening
    else night in
  let seasonality :=
    if ((2 <=? month) && (month <=? 4))%Z then spring
    else if ((5 <=? month) && (month <=? 7))%Z then summer
    else if ((8 <=? month) && (month <=? 10))%Z then fall
    else winter in
  let travelStyle := inferTravelStyle (RouteInput.preferences routeInput) in
  AIFilteringCriteria.mk
    (RouteInput.preferences routeInput)
    (match RouteInput.weather routeInput with
     | Some w => w
     | None => getDefaultWeather
     end)
    timeOfDay seasonality travelStyle.

(** ** Sub-scores *)

Definition categoryWeatherSensitivity : list (string * Q) :=
  [ ("Parks", 1.0);
    ("Outdoor Activities", 1.0);
    ("Scenic Views", 0.9);
    ("Local Markets", 0.8);
    ("Shopping", 0.3);
    ("Museums", 0.2);
    ("Restaurants", 0.4);
    ("Entertainment", 0.3);
    ("Historic Sites", 0.6);
    ("Art Galleries", 0.2);
    ("Coffee Shops", 0.3);
    ("Nightlife", 0.1) ].

Definition calculateWeatherSuitability (poi : POI.t) (weather : WeatherData.t) : Q :=
  match POI.weather poi with
  | None => 0.7
  | Some _ =>
      let baseWeatherScore := WeatherService.getWeatherSuitabilityScore weather in
      let sensitivity :=
        JS.or_else (JS.own categoryWeatherSensitivity (POI.category poi)) 0.5 in
      sensitivity * baseWeatherScore + (1 - sensitivity) * 0.8
  end.

Definition semanticMappings : list (string * list string) :=
  [ ("food", ["Restaurants"; "Coffee Shops"; "Local Markets"]);
    ("culture", ["Museums"; "Art Galleries"; "Historic Sites"]);
    ("nature", ["Parks"; "Scenic Views"; "Outdoor Activities"]);
    ("shopping", ["Shopping"; "Local Markets"]);
    ("entertainment", ["Entertainment"; "Nightlife"]);
    ("history", ["Historic Sites"; "Museums"]);
    ("art", ["Art Galleries"; "Museums"]);
    ("outdoor", ["Parks"; "Outdoor Activities"; "Scenic Views"]);
    ("dining", ["Restaurants"; "Coffee Shops"]);
    ("nightlife", ["Nightlife"; "Entertainment"]);
    ("family", ["Parks"; "Museums"; "Entertainment"]);
    ("adventure", ["Outdoor Activities"; "Scenic Views"]);
    ("relaxation", ["Parks"; "Coffee Shops"; "Scenic Views"]) ].

Definition calculateSemanticMatch (poi : POI.t) (preference : string) : Q :=
  let lowerPreference := JS.toLowerCase preference in
  let hit (entry : string * list string) :=
    let '(concept, categories) := entry in
    (JS.includes lowerPreference concept || JS.includes concept lowerPreference)
    && JS.array_includes categories (POI.category poi) in
  if existsb hit semanticMappings then 0.7
  else
    let searchText := JS.toLowerCase (POI.name poi ++ " " ++ POI.description poi) in
    if JS.includes searchText lowerPreference then 0.5 else 0.

(** One iteration of the loop over the preferences; the state is
    [(matchScore, maxPossibleScore)]. *)
Definition preferenceStep (poi : POI.t) (state : Q * Q) (preference : string)
    : Q * Q :=
  let '(matchScore, maxPossibleScore) := state in
  let maxPossibleScore := maxPossibleScore + 1 in
  if JS.includes (JS.toLowerCase (POI.category poi)) (JS.toLowerCase preference)
  then (matchScore + 1, maxPossibleScore)
  else (matchScore + calculateSemanticMatch poi preference, maxPossibleScore).

Definition calculatePreferenceMatch (poi : POI.t) (preferences : list string) : Q :=
  match preferences with
  | [] => 0.6
  | _ =>
      let '(matchScore, maxPossibleScore) :=
        fold_left (preferenceStep poi) preferences (0, 0) in
      if JS.gtb maxPossibleScore 0
      then JS.min 1 (matchScore / maxPossibleScore)
      else 0.6
  end.

Definition timePreferences (timeOfDay : TimeOfDay) : list (string * Q) :=
  match timeOfDay with
  | morning =>
      [ ("Coffee Shops", 1.0); ("Parks", 0.9); ("Museums", 0.8);
        ("Historic Sites", 0.8); ("Restaurants", 0.6); ("Shopping", 0.7);
        ("Nightlife", 0.1) ]
  | afternoon =>
      [ ("Restaurants", 1.0); ("Shopping", 0.9); ("Museums", 0.9);
        ("Parks", 0.8); ("Art Galleries", 0.9); ("Local Markets", 0.8);
        ("Coffee Shops", 0.7); ("Nightlife", 0.2) ]
  | evening =>
      [ ("Restaurants", 1.0); ("Entertainment", 0.9); ("Nightlife", 0.8);
        ("Scenic Views", 0.7); ("Coffee Shops", 0.6); ("Shopping", 0.4);
        ("Museums", 0.3) ]
  | night =>
      [ ("Nightlife", 1.0); ("Entertainment", 0.8); ("Restaurants", 0.6);
        ("Coffee Shops", 0.3); ("Museums", 0.1); ("Parks", 0.2);
        ("Shopping", 0.1) ]
  end.

Definition calculateTimeRelevance (poi : POI.t) (timeOfDay : TimeOfDay) : Q :=
  let categoryScore := JS.own (timePreferences timeOfDay) (POI.category poi) in
  JS.or_else categoryScore 0.5.

Definition seasonalPreferences (season : Season) : list (string * Q) :=
  match season with
  | spring =>
      [ ("Parks", 1.0); ("Outdoor Activities", 0.9); ("Scenic Views", 0.9);
        ("Local Markets", 0.8); ("Museums", 0.7); ("Restaurants", 0.8) ]
  | summer =>
      [ ("Parks", 1.0); ("Outdoor Activities", 1.0); ("Scenic Views", 1.0);
        ("Local Markets", 0.9); ("Entertainment", 0.8); ("Restaurants", 0.9) ]
  | fall =>
      [ ("Scenic Views", 1.0); ("Parks", 0.9); ("Museums", 0.9);
        ("Art Galleries", 0.9); ("Historic Sites", 0.8); ("Coffee Shops", 0.8) ]
  | winter =>
      [ ("Museums", 1.0); ("Art Galleries", 1.0); ("Shopping", 0.9);
        ("Restaurants", 0.9); ("Entertainment", 0.8); ("Coffee Shops", 0.9);
        ("Parks", 0.4); ("Outdoor Activities", 0.3) ]
  end.

Definition calculateSeasonalRelevance (poi : POI.t) (season : Season) : Q :=
  let categoryScore := JS.own (seasonalPreferences season) (POI.category poi) in
  JS.or_else categoryScore 0.7.

Definition calculatePopularityScore (poi : POI.t) : Q :=
  let score := 0 in
  let score :=
    if JS.truthy (POI.rating poi)
    then score + (JS.num (POI.rating poi) / 5.0) * 0.6
    else score + 0.3 in
  let score :=
    if JS.truthy (POI.priceLevel poi)
    then
      let priceScore :=
        if Qeq_bool (JS.num (POI.priceLevel poi)) 2
           || Qeq_bool (JS.num (POI.priceLevel poi)) 3
        then 1.0 else 0.7 in
      score + priceScore * 0.2
    else score + 0.14 in
  let bonusScore := 0 in
  let bonusScore :=
    if JS.truthy_string (POI.website poi) then bonusScore + 0.3 else bonusScore in
  let bonusScore :=
    if JS.truthy_string (POI.phone poi) then bonusScore + 0.3 else bonusScore in
  let bonusScore :=
    if (1 <? List.length (POI.photos poi))%nat then bonusScore + 0.2 else bonusScore in
  let bonusScore :=
    if (0 <? List.length (POI.openingHours poi))%nat
    then bonusScore + 0.2 else bonusScore in
  let score := score + JS.min 1.0 bonusScore * 0.2 in
  JS.min 1.0 score.

Definition calculateAccessibilityScore (poi : POI.t) : Q :=
  let score := 0.7 in
  let score :=
    if JS.truthy (Some (POI.distanceFromRoute poi))
    then
      let distancePenalty := JS.min 0.3 (POI.distanceFromRoute poi / 10) in
      score - distancePenalty
    else score in
  let score := if JS.truthy_string (POI.phone poi) then score + 0.1 else score in
  let score := if JS.truthy_string (POI.website poi) then score + 0.1 else score in
  let score :=
    if (0 <? List.length (POI.openingHours poi))%nat then score + 0.1 else score in
  JS.max 0 (JS.min 1 score).

(** ** Aggregate score *)

Module weights.
Definition weatherSuitability : Q := 0.25.
Definition preferenceMatch : Q := 0.3.
Definition timeRelevance : Q := 0.15.
Definition seasonalRelevance : Q := 0.1.
Definition popularityScore : Q := 0.15.
Definition accessibilityScore : Q := 0.05.
End weights.

Definition scorePOI (poi : POI.t) (criteria : AIFilteringCriteria.t) : ScoredPOI.t :=
  let weatherSuitability :=
    calculateWeatherSuitability poi (AIFilteringCriteria.weatherConditions criteria) in
  let preferenceMatch :=
    calculatePreferenceMatch poi (AIFilteringCriteria.userPreferences criteria) in
  let timeRelevance :=
    calculateTimeRelevance poi (AIFilteringCriteria.timeOfDay criteria) in
  let seasonalRelevance :=
    calculateSeasonalRelevance poi (AIFilteringCriteria.seasonality criteria) in
  let popularityScore := calculatePopularityScore poi in
  let accessibilityScore := calculateAccessibilityScore poi in
  let aiScore :=
    weatherSuitability * weights.weatherSuitability +
    preferenceMatch * weights.preferenceMatch +
    timeRelevance * weights.timeRelevance +
    seasonalRelevance * weights.seasonalRelevance +
    popularityScore * weights.popularityScore +
    accessibilityScore * weights.accessibilityScore in
  ScoredPOI.mk poi
    (inject_Z (JS.round (aiScore * 100)) / 100)
    (ScoreBreakdown.mk weatherSuitability preferenceMatch timeRelevance
       seasonalRelevance popularityScore accessibilityScore).

(** ** Diversity selector *)

(** [for (const poi of scoredPOIs) { ... if (diversePOIs.length >= 15) break }]
    with the state [(diversePOIs, categoryCount)].  [categoryCount] starts
    as [{}]; the loop only adds properties to it, so the map holds its own
    properties and [JS.inherited] what lies behind them. *)
Fixpoint diversityLoop (scoredPOIs : list ScoredPOI.t)
    (diversePOIs : list ScoredPOI.t) (categoryCount : gmap string nat)
    : list ScoredPOI.t :=
  match scoredPOIs with
  | [] => diversePOIs
  | poi :: rest =>
      let maxPerCategory := 3%nat in
      (* [categoryCount[poi.category] || 0]: the count that the object
         holds, else what it inherits under that name ([None]: a function,
         not a number), else 0 *)
      let currentCount : option nat :=
        match categoryCount !! ScoredPOI.category poi with
        | Some n => Some n
        | None =>
            if JS.inherited (ScoredPOI.category poi) then None
            else Some 0%nat
        end in
      let '(diversePOIs, categoryCount) :=
        match currentCount with
        | Some currentCount =>
            if (currentCount <? maxPerCategory)%nat
            then ((diversePOIs ++ [poi])%list,
                  <[ScoredPOI.category poi := (currentCount + 1)%nat]>
                    categoryCount)
            else (diversePOIs, categoryCount)
        | None =>
            (* [currentCount < maxPerCategory] is false of a function *)
            (diversePOIs, categoryCount)
        end in
      if (15 <=? List.length diversePOIs)%nat
      then diversePOIs
      else diversityLoop rest diversePOIs categoryCount
  end.

Definition applyDiversityFiltering (scoredPOIs : list ScoredPOI.t)
    : list ScoredPOI.t :=
  diversityLoop scoredPOIs [] ∅.

(** [scoredPOIs.sort((a, b) => b.aiScore - a.aiScore)]: a stable sort,
    highest score first.  [insertByScore x sorted] puts [x], which comes
    before the elements of [sorted] in the array, in front of the first
    element that does not score higher. *)
Fixpoint insertByScore (x : ScoredPOI.t) (sorted : list ScoredPOI.t)
    : list ScoredPOI.t :=
  match sorted with
  | [] => [x]
  | y :: rest =>
      if JS.leb (ScoredPOI.aiScore y) (ScoredPOI.aiScore x)
      then x :: y :: rest
      else y :: insertByScore x rest
  end.

Definition sortByScore (l : list ScoredPOI.t) : list ScoredPOI.t :=
  fold_right insertByScore [] l.

Definition filterAndRankPOIs (pois : list POI.t) (routeInput : RouteInput.t Q)
    (currentTime : LocalTime.t) : list ScoredPOI.t :=
  let criteria := buildFilteringCriteria routeInput currentTime in
  let scoredPOIs := map (fun poi => scorePOI poi criteria) pois in
  applyDiversityFiltering (sortByScore scoredPOIs).

End AIPOIFilter.

Notation "x <- c ;; k" := (JS.bind c (fun x => k))
(at level 100, c at next level, right associativity).

(* ===================================================================== *)
(** * POI aggregator ([lib/poi-service.ts]) *)
(* ===================================================================== *)

Module POIService.
Local Open Scope Q_scope.

Definition SEARCH_RADIUS_KM : Q := 10.
Definition MAX_RESULTS : nat := 20.

(** ** Deduplication *)

(** [`${poi.name}_${poi.location.lat.toFixed(4)}_${poi.location.lng.toFixed(4)}`] *)
Definition dedupKey (poi : POI.t) : string :=
  (POI.name poi ++ "_" ++
   JS.toFixed 4 (Location.lat (POI.location poi)) ++ "_" ++
   JS.toFixed 4 (Location.lng (POI.location poi)))%string.

(** [pois.filter(...)] with the set [seen] that the callback updates. *)
Fixpoint dedupFilter (seen : gset string) (pois : list POI.t) : list POI.t :=
  match pois with
  | [] => []
  | poi :: rest =>
      let key := dedupKey poi in
      if decide (key ∈ seen)
      then dedupFilter seen rest
      else poi :: dedupFilter ({[key]} ∪ seen) rest
  end.

Definition removeDuplicatePOIs (pois : list POI.t) : list POI.t :=
  dedupFilter ∅ pois.

(** ** Fallback data *)

Section Platform.
(** Built-ins of the platform that only shape identifiers and URLs:
    [encodeURIComponent] (what it returns for a well-formed string), the
    base-36 rendering of a random number ([Math.random().toString(36)])
    and of the clock ([Date.now().toString(36)]). *)
Variable encodeURIComponent : string -> string.
Variable toString36 : Q -> string.
Variable now36 : string.

(** [database.generateId()] *)
Definition generateId : JS.Gen string :=
  r <- JS.random ;;
  JS.ret (JS.substringFrom 2 (toString36 r) ++ now36)%string.

Definition defaultCategories : list string :=
  [ "Restaurants"; "Museums"; "Parks"; "Shopping"; "Historic Sites";
    "Entertainment" ]%string.

Definition names : list (string * list string) :=
  [ ("Restaurants", ["The Garden Bistro"; "Mama's Kitchen"; "Riverside Grill";
                     "Urban Spoon"; "The Local Table"]);
    ("Museums", ["Heritage Museum"; "Art & Culture Center"; "History House";
                 "Discovery Museum"; "Cultural Gallery"]);
    ("Parks", ["Central Park"; "Riverside Gardens"; "Memorial Park";
               "Nature Reserve"; "Community Green"]);
    ("Shopping", ["Main Street Market"; "Artisan Quarter";
                  "The Shopping District"; "Local Bazaar"; "Craft Corner"]);
    ("Historic Sites", ["Old Town Hall"; "Heritage Building"; "Historic Church";
                        "Monument Square"; "Ancient Ruins"]);
    ("Entertainment", ["The Grand Theater"; "Cinema Complex"; "Live Music Venue";
                       "Comedy Club"; "Arts Center"]) ]%string.

(** [array[Math.floor(Math.random() * array.length)]] *)
Definition pick {A} (array : list A) : JS.Gen (option A) :=
  r <- JS.random ;;
  JS.ret (JS.index array (JS.floor (r * inject_Z (Z.of_nat (List.length array))))).

Definition generateRealisticPOIName (category : string) : JS.Gen string :=
  let categoryNames :=
    match JS.own names category with
    | Some l => l
    | None => ["Local Attraction"%string]
    end in
  n <- pick categoryNames ;;
  JS.ret (JS.showString n).

Definition descriptions : list (string * string) :=
  [ ("Restaurants",
     "A beloved local dining spot known for fresh ingredients and authentic flavors.");
    ("Museums", "Explore fascinating exhibits showcasing local history and culture.");
    ("Parks", "Beautiful green space perfect for relaxation and outdoor activities.");
    ("Shopping", "Discover unique local products and handcrafted items.");
    ("Historic Sites",
     "Step back in time and explore the rich heritage of this area.");
    ("Entertainment",
     "Popular venue offering great entertainment and cultural experiences.") ]%string.

Definition generateRealisticDescription (category : string) : string :=
  match JS.own descriptions category with
  | Some d => d
  | None => "An interesting local attraction worth visiting."%string
  end.

Definition streetNames : list string :=
  [ "Main St"; "Oak Ave"; "Park Rd"; "First St"; "Market St"; "Church St";
    "Mill Rd" ]%string.

Definition generateRealisticAddress : JS.Gen string :=
  r <- JS.random ;;
  let streetNumbers := (JS.floor (r * 999) + 1)%Z in
  streetName <- pick streetNames ;;
  JS.ret (JS.showZ streetNumbers ++ " " ++ JS.showString streetName)%string.

Definition priceLevels : list (string * list Q) :=
  [ ("Restaurants"%string, [2; 3; 4]);
    ("Museums"%string, [1; 2]);
    ("Parks"%string, [1]);
    ("Shopping"%string, [2; 3; 4]);
    ("Historic Sites"%string, [1; 2]);
    ("Entertainment"%string, [2; 3]) ].

Definition generateRealisticPriceLevel (category : string) : JS.Gen (option Q) :=
  let levels :=
    match JS.own priceLevels category with
    | Some l => l
    | None => [2; 3]
    end in
  pick levels.

Definition schedules : list (string * list string) :=
  [ ("Restaurants", ["Mon-Thu: 11:00 AM - 10:00 PM"; "Fri-Sat: 11:00 AM - 11:00 PM";
                     "Sun: 12:00 PM - 9:00 PM"]);
    ("Museums", ["Tue-Sun: 10:00 AM - 5:00 PM"; "Mon: Closed"]);
    ("Parks", ["Daily: 6:00 AM - 10:00 PM"]);
    ("Shopping", ["Mon-Sat: 10:00 AM - 8:00 PM"; "Sun: 12:00 PM - 6:00 PM"]);
    ("Historic Sites", ["Daily: 9:00 AM - 5:00 PM"]);
    ("Entertainment", ["Shows: 7:00 PM - 11:00 PM";
                       "Box Office: 12:00 PM - 8:00 PM"]) ]%string.

Definition generateRealisticOpeningHours (category : string) : list string :=
  match JS.own schedules category with
  | Some l => l
  | None => ["Daily: 9:00 AM - 6:00 PM"%string]
  end.

Definition generateRealisticPhoneNumber : JS.Gen string :=
  r1 <- JS.random ;;
  r2 <- JS.random ;;
  r3 <- JS.random ;;
  JS.ret ("+1-" ++ JS.showZ (JS.floor (r1 * 900) + 100) ++ "-" ++
          JS.showZ (JS.floor (r2 * 900) + 100) ++ "-" ++
          JS.showZ (JS.floor (r3 * 9000) + 1000))%string.

Definition placeholder (query : string) : string :=
  ("/placeholder.svg?height=200&width=300&query=" ++ encodeURIComponent query)%string.

(** A photo URL of the mock: [encodeURIComponent(query)] throws a URIError
    when [query] holds a lone surrogate. *)
Definition mockPhoto (query : string) : JS.Completion string :=
  if JS.isWellFormed query then JS.Returns (placeholder query)
  else JS.Throws "URIError".

(** The object literal built in the inner loop of
    [generateEnhancedMockPOIs]; its fields are evaluated in order, and an
    exception thrown by one of them ends the evaluation. *)
Definition mockPOI (location : Location.t Q) (category : string)
    : JS.Gen (JS.Completion POI.t) :=
  id <- generateId ;;
  name <- generateRealisticPOIName category ;;
  let description := generateRealisticDescription category in
  rLat <- JS.random ;;
  rLng <- JS.random ;;
  address <- generateRealisticAddress ;;
  rRating <- JS.random ;;
  priceLevel <- generateRealisticPriceLevel category ;;
  match mockPhoto (category ++ " interior") with
  | JS.Throws error => JS.ret (JS.Throws error)
  | JS.Returns interior =>
      match mockPhoto (category ++ " exterior") with
      | JS.Throws error => JS.ret (JS.Throws error)
      | JS.Returns exterior =>
          let photos := [ interior; exterior ] in
          let openingHours := generateRealisticOpeningHours category in
          websiteId <- generateId ;;
          phone <- generateRealisticPhoneNumber ;;
          rScore <- JS.random ;;
          rDistance <- JS.random ;;
          JS.ret
            (JS.Returns
               (POI.mk id name description category
                  (Location.mk (Location.lat location + (rLat - 0.5) * 0.02)
                               (Location.lng location + (rLng - 0.5) * 0.02)
                               address)
                  (Some (inject_Z (JS.round ((rRating * 2 + 3) * 10)) / 10))
                  priceLevel
                  photos
                  openingHours
                  (Some ("https://example.com/" ++ websiteId)%string)
                  (Some phone)
                  None
                  rScore
                  (rDistance * 5)
                  None))
      end
  end.

(** [for (let i = 0; i < poisInCategory; i++) mockPOIs.push(poi)] *)
Fixpoint mockLoop (location : Location.t Q) (category : string)
    (remaining : nat) (mockPOIs : list POI.t)
    : JS.Gen (JS.Completion (list POI.t)) :=
  match remaining with
  | O => JS.ret (JS.Returns mockPOIs)
  | S remaining' =>
      poi <- mockPOI location category ;;
      match poi with
      | JS.Throws error => JS.ret (JS.Throws error)
      | JS.Returns poi =>
          mockLoop location category remaining' (mockPOIs ++ [poi])
      end
  end.

(** [targetCategories.forEach((category) => { ... })] *)
Fixpoint mockCategories (location : Location.t Q) (targetCategories : list string)
    (mockPOIs : list POI.t) : JS.Gen (JS.Completion (list POI.t)) :=
  match targetCategories with
  | [] => JS.ret (JS.Returns mockPOIs)
  | category :: rest =>
      r <- JS.random ;;
      let poisInCategory := (JS.floor (r * 4) + 2)%Z in
      mockPOIs <- mockLoop location category (Z.to_nat poisInCategory) mockPOIs ;;
      match mockPOIs with
      | JS.Throws error => JS.ret (JS.Throws error)
      | JS.Returns mockPOIs => mockCategories location rest mockPOIs
      end
  end.

Definition generateEnhancedMockPOIs (location : Location.t Q)
    (categories : list string) : JS.Gen (JS.Completion (list POI.t)) :=
  let targetCategories :=
    if (0 <? List.length categories)%nat then categories else defaultCategories in
  mockCategories location targetCategories [].

(** ** Search *)

(** The two remote sources are collaborators: what matters here is how
    the awaited call settles. *)
Definition Source : Type :=
  Location.t Q -> list string -> Q -> JS.Settled (list POI.t).

Variable searchSerpAPI : Source.
Variable searchOverpassAPI : Source.

Definition searchFoursquareAPI : Source :=
  fun _ _ _ => JS.Fulfilled [].

(** [try { const found = await source(...); allPOIs.push(...found) }
     catch (error) { console.warn(...) }] *)
Definition trySource (source : Source) (location : Location.t Q)
    (categories : list string) (radius : Q) (allPOIs : list POI.t) : list POI.t :=
  match source location categories radius with
  | JS.Fulfilled found => allPOIs ++ found
  | JS.Rejected _ => allPOIs
  end.

(** The fallback is generated outside every [try]: an exception that it
    throws rejects the promise of the search. *)
Definition searchPOIsNearLocation (location : Location.t Q)
    (categories : list string) (radius : Q) : JS.Gen (JS.Settled (list POI.t)) :=
  let allPOIs := [] in
  let allPOIs := trySource searchSerpAPI location categories radius allPOIs in
  let allPOIs := trySource searchOverpassAPI location categories radius allPOIs in
  let allPOIs := trySource searchFoursquareAPI location categories radius allPOIs in
  allPOIs <-
    (if (List.length allPOIs =? 0)%nat
     then
       mockPOIs <- generateEnhancedMockPOIs location categories ;;
       match mockPOIs with
       | JS.Throws error => JS.ret (JS.Throws error)
       | JS.Returns mockPOIs => JS.ret (JS.Returns (allPOIs ++ mockPOIs))
       end
     else JS.ret (JS.Returns allPOIs)) ;;
  match allPOIs with
  | JS.Throws error => JS.ret (JS.Rejected error)
  | JS.Returns allPOIs =>
      let uniquePOIs := removeDuplicatePOIs allPOIs in
      JS.ret (JS.Fulfilled (JS.slice0 MAX_RESULTS uniquePOIs))
  end.

End Platform.

End POIService.

(* ===================================================================== *)
(** * Display of distances ([lib/distance-calculator.ts]) *)
(* ===================================================================== *)

Module DistanceFormat.
Local Open Scope Q_scope.

(** [DistanceCalculator.formatDistance] *)
Definition formatDistance (distanceKm : Q) : string :=
  if JS.ltb distanceKm 1
  then (JS.showZ (JS.round (distanceKm * 1000)) ++ "m")%string
  else if JS.ltb distanceKm 10
  then (JS.toFixed 1 distanceKm ++ "km")%string
  else (JS.showZ (JS.round distanceKm) ++ "km")%string.

End DistanceFormat.

(* ===================================================================== *)
(** * Weather lookup with its cache ([lib/weather-service.ts]) *)
(* ===================================================================== *)

Module WeatherLookup.
Local Open Scope Q_scope.

Definition CACHE_DURATION : Z := 30 * 60 * 1000.

(** An entry of [weatherCache]. *)
Record CacheEntry := mkEntry { data : WeatherData.t; timestamp : Z }.

(** [`${location.lat.toFixed(2)},${location.lng.toFixed(2)}`] *)
Definition cacheKey (location : Location.t Q) : string :=
  (JS.toFixed 2 (Location.lat location) ++ "," ++
   JS.toFixed 2 (Location.lng location))%string.

(** An archetype of [generateMockWeatherData]. *)
Record Archetype := mkArchetype {
  condition : string;
  icon : string;
  tempLow : Q;
  tempHigh : Q
}.

Definition conditions : list Archetype :=
  [ mkArchetype "Clear" "☀️" 18 28;
    mkArchetype "Partly Cloudy" "⛅" 15 25;
    mkArchetype "Cloudy" "☁️" 12 22;
    mkArchetype "Light Rain" "🌦️" 10 20;
    mkArchetype "Sunny" "🌞" 20 30 ].

(** [generateMockWeatherData]: reading [tempRange] of an [undefined]
    archetype throws. *)
Definition generateMockWeatherData (location : Location.t Q)
    : JS.Gen (JS.Settled WeatherData.t) :=
  r <- JS.random ;;
  match JS.index conditions (JS.floor (r * inject_Z (Z.of_nat (List.length conditions)))) with
  | None => JS.ret (JS.Rejected "TypeError")
  | Some randomCondition =>
      rTemp <- JS.random ;;
      let temperature :=
        inject_Z (JS.floor (rTemp * (tempHigh randomCondition - tempLow randomCondition)
                            + tempLow randomCondition)) in
      rHumidity <- JS.random ;;
      rWind <- JS.random ;;
      JS.ret (JS.Fulfilled
                (WeatherData.mk temperature (condition randomCondition)
                   (inject_Z (JS.floor (rHumidity * 40) + 40))
                   (inject_Z (JS.floor (rWind * 20) + 5))
                   (icon randomCondition)))
  end.

(** What the request to the weather provider comes to: the call is
    rejected, or it answers with [response.ok] and the outcome of reading
    and parsing the body ([parseWttrResponse(await response.json())]). *)
Inductive Reply (A : Type) := mkReply (ok : bool) (body : JS.Settled A).
Arguments mkReply {A}.

Definition Provider : Type := Location.t Q -> JS.Settled (Reply WeatherData.t).

(** [getWeatherData]: [now] is the clock when the cache is consulted,
    [storedAt] the clock when a fetched result is stored.  The result is
    how the call settles, with the cache it leaves. *)
Definition getWeatherData (fetch : Provider) (now storedAt : Z)
    (weatherCache : gmap string CacheEntry) (location : Location.t Q)
    : JS.Gen (JS.Settled WeatherData.t * gmap string CacheEntry) :=
  let cacheKey := cacheKey location in
  let cached := weatherCache !! cacheKey in
  let fresh :=
    match cached with
    | Some entry => (now - timestamp entry <? CACHE_DURATION)%Z
    | None => false
    end in
  match cached, fresh with
  | Some entry, true => JS.ret (JS.Fulfilled (data entry), weatherCache)
  | _, _ =>
      match fetch location with
      | JS.Fulfilled (mkReply true (JS.Fulfilled weatherData)) =>
          JS.ret (JS.Fulfilled weatherData,
                  <[cacheKey := mkEntry weatherData storedAt]> weatherCache)
      | _ =>
          mock <- generateMockWeatherData location ;;
          JS.ret (mock, weatherCache)
      end
  end.

End WeatherLookup.

(* ===================================================================== *)
(** * Recommendation sentence ([lib/ai-poi-filter.ts]) *)
(* ===================================================================== *)

Module Recommendation.
Local Open Scope Q_scope.
Local Open Scope string_scope.

(** [Array.prototype.join] *)
Fixpoint join (separator : string) (l : list string) : string :=
  match l with
  | [] => ""
  | [x] => x
  | x :: rest => x ++ separator ++ join separator rest
  end.

Definition timeOfDayName (t : TimeOfDay) : string :=
  match t with
  | morning => "morning"
  | afternoon => "afternoon"
  | evening => "evening"
  | night => "night"
  end.

Definition seasonName (s : Season) : string :=
  match s with
  | spring => "spring"
  | summer => "summer"
  | fall => "fall"
  | winter => "winter"
  end.

(** [Array.prototype.push] *)
Definition push (reasons : list string) (reason : string) : list string :=
  (reasons ++ [reason])%list.

Section Rendering.
(** How a number reads inside a template literal. *)
Variable showNumber : Q -> string.

(** The reasons collected before the sentence is put together. *)
Definition collectReasons (poi : POI.t) (scores : ScoreBreakdown.t)
    (criteria : AIFilteringCriteria.t) : list string :=
  let reasons : list string := [] in
  let reasons :=
    if JS.gtb (ScoreBreakdown.weatherSuitability scores) 0.8
    then push reasons ("perfect weather conditions for " ++ JS.toLowerCase (POI.category poi))
    else if JS.ltb (ScoreBreakdown.weatherSuitability scores) 0.4
    then push reasons
           ("indoor alternative due to " ++
            JS.toLowerCase
              (WeatherData.condition (AIFilteringCriteria.weatherConditions criteria)))
    else reasons in
  let reasons :=
    if JS.gtb (ScoreBreakdown.preferenceMatch scores) 0.8
    then push reasons
           ("matches your interest in " ++
            JS.toLowerCase (join " and " (AIFilteringCriteria.userPreferences criteria)))
    else reasons in
  let reasons :=
    if JS.gtb (ScoreBreakdown.timeRelevance scores) 0.8
    then push reasons
           ("ideal for " ++ timeOfDayName (AIFilteringCriteria.timeOfDay criteria) ++
            " visits")
    else reasons in
  let reasons :=
    if JS.gtb (ScoreBreakdown.popularityScore scores) 0.8
       && JS.truthy (POI.rating poi)
       && JS.leb 4.5 (JS.num (POI.rating poi))
    then push reasons
           ("highly rated (" ++ showNumber (JS.num (POI.rating poi)) ++
            "/5.0) local favorite")
    else reasons in
  let reasons :=
    if JS.gtb (ScoreBreakdown.seasonalRelevance scores) 0.8
    then push reasons
           ("especially beautiful during " ++
            seasonName (AIFilteringCriteria.seasonality criteria))
    else reasons in
  if (List.length reasons =? 0)%nat
  then push reasons
         ("interesting " ++ JS.toLowerCase (POI.category poi) ++ " along your route")
  else reasons.

(** The sentence for a list of reasons: [reasons.pop()] takes the last. *)
Definition sentence (reasons : list string) : string :=
  match reasons with
  | [r0] => "Recommended for " ++ r0 ++ "."
  | [r0; r1] => "Recommended for " ++ r0 ++ " and " ++ r1 ++ "."
  | _ =>
      "Recommended for " ++ join ", " (removelast reasons) ++ ", and " ++
      JS.showString (List.last (map Some reasons) None) ++ "."
  end.

Definition generateRecommendationReason (poi : POI.t) (scores : ScoreBreakdown.t)
    (criteria : AIFilteringCriteria.t) : string :=
  sentence (collectReasons poi scores criteria).

End Rendering.

End Recommendation.

(* ===================================================================== *)
(** * The POI sources: reading provider data ([lib/poi-service.ts]) *)
(* ===================================================================== *)

Module POISources.
Local Open Scope Q_scope.

(** ** SerpApi *)




Definition mapSerpPriceLevel (price : option string) : Q :=
  if negb (JS.truthy_string price) then 2
  else
    let price := JS.showString price in
    if JS.includes price "$$$$$" then 4
    else if JS.includes price "$$$$" then 4
    else if JS.includes price "$$$" then 3
    else if JS.includes price "$$" then 2
    else if JS.includes price "$" then 1
    else 2.







Section Platform.
Variable encodeURIComponent : string -> string.
Variable toString36 : Q -> string.
Variable now36 : string.




End Platform.

(** ** OpenStreetMap *)

Record OSMTag := mkTag { key : string; value : string }.

Definition categoryMap : list (string * list OSMTag) :=
  [ ("Restaurants"%string,
     [mkTag "amenity" "restaurant"; mkTag "amenity" "fast_food"; mkTag "amenity" "cafe"]);
    ("Museums"%string, [mkTag "tourism" "museum"; mkTag "amenity" "arts_centre"]);
    ("Parks"%string, [mkTag "leisure" "park"; mkTag "leisure" "garden"]);
    ("Shopping"%string, [mkTag "shop" "*"; mkTag "amenity" "marketplace"]);
    ("Historic Sites"%string, [mkTag "historic" "*"; mkTag "tourism" "attraction"]);
    ("Entertainment"%string,
     [mkTag "amenity" "theatre"; mkTag "amenity" "cinema";
      mkTag "leisure" "amusement_arcade"]) ].

(** [categories.forEach((category) => { ... })] with the state [tags].
    [categoryMap[category]] is the entry of the table, else the function
    (or object) inherited under that name, which is truthy and which
    [tags.push(...mappedTags)] cannot spread, else [undefined]. *)
Fixpoint forEachCategory (categories : list string) (tags : list OSMTag)
    : JS.Completion (list OSMTag) :=
  match categories with
  | [] => JS.Returns tags
  | category :: rest =>
      match JS.own categoryMap category with
      | Some mappedTags => forEachCategory rest (tags ++ mappedTags)
      | None =>
          if JS.inherited category then JS.Throws "TypeError"
          else forEachCategory rest tags
      end
  end.

Definition mapCategoriesToOSMTags (categories : list string)
    : JS.Completion (list OSMTag) :=
  forEachCategory categories [].

(** The tags of an element: an object with string values. *)
Definition Tags : Type := gmap string string.

(** [tags.k === v] *)
Definition tagIs (tags : Tags) (k v : string) : bool :=
  match tags !! k with
  | Some x => String.eqb x v
  | None => false
  end.

(** Truthiness of [tags.k]. *)
Definition tagSet (tags : Tags) (k : string) : bool := JS.truthy_string (tags !! k).

Definition mapOSMTagsToCategory (tags : Tags) : string :=
  if tagIs tags "amenity" "restaurant" || tagIs tags "amenity" "cafe"
     || tagIs tags "amenity" "fast_food" then "Restaurants"%string
  else if tagIs tags "tourism" "museum" || tagIs tags "amenity" "arts_centre"
  then "Museums"%string
  else if tagIs tags "leisure" "park" || tagIs tags "leisure" "garden"
  then "Parks"%string
  else if tagSet tags "shop" then "Shopping"%string
  else if tagSet tags "historic" || tagIs tags "tourism" "attraction"
  then "Historic Sites"%string
  else if tagIs tags "amenity" "theatre" || tagIs tags "amenity" "cinema"
  then "Entertainment"%string
  else "Other"%string.








Section PlatformOSM.
Variable encodeURIComponent : string -> string.




End PlatformOSM.

End POISources.

(* ===================================================================== *)
(** * The in-memory store ([lib/database.ts]) *)
(* ===================================================================== *)

(** A JavaScript [Map] with string keys.  It keeps the order in which the
    keys were first inserted; setting a key that is present replaces its
    value in place. *)
Module JSMap.

Definition t (V : Type) : Type := list (string * V).

Definition empty {V} : t V := [].

Definition get {V} (m : t V) (k : string) : option V := JS.own m k.

Fixpoint set {V} (m : t V) (k : string) (v : V) : t V :=
  match m with
  | [] => [(k, v)]
  | (k', v') :: rest =>
      if String.eqb k' k then (k, v) :: rest else (k', v') :: set rest k v
  end.

Fixpoint delete {V} (m : t V) (k : string) : t V :=
  match m with
  | [] => []
  | (k', v') :: rest =>
      if String.eqb k' k then rest else (k', v') :: delete rest k
  end.

(** [Array.from(m.values())] *)
Definition values {V} (m : t V) : list V := map snd m.

Definition keys {V} (m : t V) : list string := map fst m.

End JSMap.

Module TripPlan.
(** [createdAt] and [updatedAt] are time values in milliseconds. *)
Record t := mk {
  id : string;
  route : RouteInput.t R;
  checkpoints : list RouteCheckpoint.t;
  pois : list ScoredPOI.t;
  createdAt : R;
  updatedAt : R
}.
End TripPlan.

Module UserPreferences.
Record t := mk {
  categories : list string;
  priceRange : Q * Q;
  weatherSensitive : bool;
  maxDetourDistance : Q
}.
End UserPreferences.

Module InMemoryDatabase.

Record DatabaseStore := mkStore {
  trips : JSMap.t TripPlan.t;
  userPreferences : JSMap.t UserPreferences.t;
  poiCache : JSMap.t (list POI.t)
}.

Definition initial : DatabaseStore := mkStore JSMap.empty JSMap.empty JSMap.empty.

Definition saveTripPlan (store : DatabaseStore) (trip : TripPlan.t) : DatabaseStore :=
  mkStore (JSMap.set (trips store) (TripPlan.id trip) trip)
          (userPreferences store) (poiCache store).

(** [this.store.trips.get(id) || null] *)
Definition getTripPlan (store : DatabaseStore) (id : string) : option TripPlan.t :=
  JSMap.get (trips store) id.

Definition getAllTrips (store : DatabaseStore) : list TripPlan.t :=
  JSMap.values (trips store).

Definition deleteTripPlan (store : DatabaseStore) (id : string) : DatabaseStore :=
  mkStore (JSMap.delete (trips store) id) (userPreferences store) (poiCache store).

Definition saveUserPreferences (store : DatabaseStore) (userId : string)
    (preferences : UserPreferences.t) : DatabaseStore :=
  mkStore (trips store) (JSMap.set (userPreferences store) userId preferences)
          (poiCache store).

Definition getUserPreferences (store : DatabaseStore) (userId : string)
    : option UserPreferences.t :=
  JSMap.get (userPreferences store) userId.

Definition cachePOIs (store : DatabaseStore) (routeKey : string) (pois : list POI.t)
    : DatabaseStore :=
  mkStore (trips store) (userPreferences store)
          (JSMap.set (poiCache store) routeKey pois).

(** [this.store.poiCache.get(routeKey) || null]: an array, even an empty
    one, is truthy. *)
Definition getCachedPOIs (store : DatabaseStore) (routeKey : string)
    : option (list POI.t) :=
  JSMap.get (poiCache store) routeKey.

End InMemoryDatabase.

(* ===================================================================== *)
(** * Location search ([lib/geocoding-service.ts]) *)
(* ===================================================================== *)

Module GeocodeResult.
Record t := mk {
  lat : Q;
  lng : Q;
  address : string;
  placeId : option string
}.
End GeocodeResult.

Module GeocodingService.
Local Open Scope Q_scope.

Definition fallbackLocations : list GeocodeResult.t :=
  [ GeocodeResult.mk 23.2599 77.4126 "Bhopal, Madhya Pradesh, India" None;
    GeocodeResult.mk 22.4676 78.6677 "Pachmarhi, Madhya Pradesh, India" None;
    GeocodeResult.mk 28.6139 77.209 "New Delhi, Delhi, India" None;
    GeocodeResult.mk 19.076 72.8777 "Mumbai, Maharashtra, India" None;
    GeocodeResult.mk 12.9716 77.5946 "Bangalore, Karnataka, India" None;
    GeocodeResult.mk 13.0827 80.2707 "Chennai, Tamil Nadu, India" None;
    GeocodeResult.mk 22.5726 88.3639 "Kolkata, West Bengal, India" None;
    GeocodeResult.mk 18.5204 73.8567 "Pune, Maharashtra, India" None;
    GeocodeResult.mk 26.9124 75.7873 "Jaipur, Rajasthan, India" None;
    GeocodeResult.mk 17.385 78.4867 "Hyderabad, Telangana, India" None;
    GeocodeResult.mk 40.7128 (-74.006) "New York, NY, USA" None;
    GeocodeResult.mk 34.0522 (-118.2437) "Los Angeles, CA, USA" None;
    GeocodeResult.mk 51.5074 (-0.1278) "London, UK" None;
    GeocodeResult.mk 48.8566 2.3522 "Paris, France" None;
    GeocodeResult.mk 35.6762 139.6503 "Tokyo, Japan" None ].

(** The callback of [fallbackLocations.filter]. *)
Definition matchesQuery (queryLower : string) (location : GeocodeResult.t) : bool :=
  JS.includes (JS.toLowerCase (GeocodeResult.address location)) queryLower.

Definition getFallbackResults (query : string) : list GeocodeResult.t :=
  let queryLower := JS.toLowerCase query in
  JS.slice0 5 (List.filter (matchesQuery queryLower) fallbackLocations).

(** What the request to the search provider comes to (see
    [WeatherLookup.Reply]); the body is the list that [data.map] builds. *)
Definition SearchProvider : Type :=
  string -> JS.Settled (WeatherLookup.Reply (list GeocodeResult.t)).

(** [searchLocations]: a query that is [null] or [undefined] is [None]. *)
Definition searchLocations (fetch : SearchProvider) (query : option string)
    : list GeocodeResult.t :=
  if negb (JS.truthy_string query) || (String.length (JS.showString query) <? 2)%nat
  then []
  else
    let query := JS.showString query in
    match fetch query with
    | JS.Fulfilled (WeatherLookup.mkReply false _) => getFallbackResults query
    | JS.Fulfilled (WeatherLookup.mkReply true (JS.Fulfilled results)) => results
    | JS.Fulfilled (WeatherLookup.mkReply true (JS.Rejected _)) => getFallbackResults query
    | JS.Rejected _ => getFallbackResults query
    end.

(** What the reverse lookup comes to: the body is [data?.display_name]. *)
Definition ReverseProvider : Type :=
  Q -> Q -> JS.Settled (WeatherLookup.Reply (option string)).

Definition coordinatesText (lat lng : Q) : string :=
  (JS.toFixed 4 lat ++ ", " ++ JS.toFixed 4 lng)%string.

Definition reverseGeocode (fetch : ReverseProvider) (lat lng : Q) : string :=
  match fetch lat lng with
  | JS.Fulfilled (WeatherLookup.mkReply false _) => coordinatesText lat lng
  | JS.Fulfilled (WeatherLookup.mkReply true (JS.Fulfilled display_name)) =>
      if JS.truthy_string display_name
      then JS.showString display_name
      else coordinatesText lat lng
  | JS.Fulfilled (WeatherLookup.mkReply true (JS.Rejected _)) => coordinatesText lat lng
  | JS.Rejected _ => coordinatesText lat lng
  end.

End GeocodingService.

(* ===================================================================== *)
(** * Notions used to state the properties *)
(* ===================================================================== *)

(** The term [a] of [DistanceCalculator.calculateDistance]. *)
Definition haversine (lat1 lng1 lat2 lng2 : R) : R :=
  (let dLat := DistanceCalculator.toRadians (lat2 - lat1) in
   let dLng := DistanceCalculator.toRadians (lng2 - lng1) in
   sin (dLat / 2) * sin (dLat / 2) +
   cos (DistanceCalculator.toRadians lat1) * cos (DistanceCalculator.toRadians lat2) *
   sin (dLng / 2) * sin (dLng / 2))%R.

(** ** Scoring *)

(** Ratings range over 0..5: a rating, when present, is not negative. *)
Definition rating_nonneg (poi : POI.t) : Prop :=
  match POI.rating poi with
  | Some r => (0 <= r)%Q
  | None => True
  end.

Definition indicator (b : bool) : Q := if b then 1%Q else 0%Q.

Definition hasWebsite (poi : POI.t) : bool := JS.truthy_string (POI.website poi).
Definition hasPhone (poi : POI.t) : bool := JS.truthy_string (POI.phone poi).
Definition hasMultiplePhotos (poi : POI.t) : bool :=
  (1 <? List.length (POI.photos poi))%nat.
Definition hasOpeningHours (poi : POI.t) : bool :=
  (0 <? List.length (POI.openingHours poi))%nat.

Definition priceContribution (poi : POI.t) : Q :=
  match POI.priceLevel poi with
  | Some p => 0.2 * (if Qeq_bool p 2 || Qeq_bool p 3 then 1.0 else 0.7)
  | None => 0.14
  end%Q.

Definition extrasContribution (poi : POI.t) : Q :=
  (0.2 * JS.min 1 (0.3 * indicator (hasWebsite poi) + 0.3 * indicator (hasPhone poi) +
                   0.2 * indicator (hasMultiplePhotos poi) +
                   0.2 * indicator (hasOpeningHours poi)))%Q.

(** The popularity score as the specification words it: the rating
    contributes 0.6 * rating / 5 when present and 0.3 when absent. *)
Definition popularity_stated (poi : POI.t) : Q :=
  (JS.min 1
     ((match POI.rating poi with
       | Some r => 0.6 * (r / 5)
       | None => 0.3
       end) + priceContribution poi + extrasContribution poi))%Q.

(** The same, with a rating of 0 contributing like an absent one. *)
Definition popularity_amended (poi : POI.t) : Q :=
  (JS.min 1
     ((match POI.rating poi with
       | Some r => if Qeq_bool r 0 then 0.3 else 0.6 * (r / 5)
       | None => 0.3
       end) + priceContribution poi + extrasContribution poi))%Q.

(** The weather sub-score as the specification words it: the suitability
    of the snapshot attached to the POI, blended by the sensitivity of the
    category. *)
Definition weatherSuitability_stated (poi : POI.t) : Q :=
  match POI.weather poi with
  | None => 0.7
  | Some w =>
      let sensitivity :=
        JS.or_else (JS.own AIPOIFilter.categoryWeatherSensitivity (POI.category poi))
                   0.5 in
      sensitivity * WeatherService.getWeatherSuitabilityScore w +
      (1 - sensitivity) * 0.8
  end%Q.

(** The weighted sum of a breakdown. *)
Definition weightedSum (b : ScoreBreakdown.t) : Q :=
  (ScoreBreakdown.weatherSuitability b * 0.25 +
   ScoreBreakdown.preferenceMatch b * 0.3 +
   ScoreBreakdown.timeRelevance b * 0.15 +
   ScoreBreakdown.seasonalRelevance b * 0.1 +
   ScoreBreakdown.popularityScore b * 0.15 +
   ScoreBreakdown.accessibilityScore b * 0.05)%Q.

(** [{ ...poi, weather }]: the POI with a weather snapshot attached, as the
    orchestrator does for the POIs of a checkpoint. *)
Definition withWeather (poi : POI.t) (w : WeatherData.t) : POI.t :=
  POI.mk (POI.id poi) (POI.name poi) (POI.description poi) (POI.category poi)
    (POI.location poi) (POI.rating poi) (POI.priceLevel poi) (POI.photos poi)
    (POI.openingHours poi) (POI.website poi) (POI.phone poi) (Some w)
    (POI.aiScore poi) (POI.distanceFromRoute poi) (POI.closestTo poi).

(** Sample records. *)
Definition samplePOI (name category : string) (lat lng : Q) (rating : option Q)
    (weather : option WeatherData.t) : POI.t :=
  POI.mk "sample" name "A place" category (Location.mk lat lng "1 Main St")
    rating (Some 2%Q)
    ["front.jpg"; "back.jpg"]%string ["Daily: 9:00 AM - 5:00 PM"%string]
    (Some "https://example.com"%string) (Some "+1-555-0100"%string)
    weather 0%Q 0%Q None.

Definition thunderstorm : WeatherData.t :=
  WeatherData.mk 20%Q "Thunderstorm" 80%Q 10%Q "storm".

Definition stormyPark : POI.t :=
  samplePOI "Central Park" "Parks" 10%Q 20%Q (Some 4%Q) (Some thunderstorm).

Definition unratedCafe : POI.t :=
  samplePOI "Corner Cafe" "Coffee Shops" 10%Q 20%Q (Some 0%Q) None.

Definition topRated : POI.t :=
  samplePOI "Heritage Museum" "Museums" 10%Q 20%Q (Some 5%Q) None.

Definition museumTrip : RouteInput.t Q :=
  RouteInput.mk (Location.mk 28.6139%Q 77.2090%Q "Delhi")
    (Location.mk 19.0760%Q 72.8777%Q "Mumbai") 0%Q ["Museums"%string] None.

Definition morningInJune : LocalTime.t := LocalTime.mk 9 5.

(** ** Selection *)

(** How many entries of a list are of a category. *)
Definition categoryCountIn (c : string) (l : list ScoredPOI.t) : nat :=
  length (filter (fun p => ScoredPOI.category p = c) l).

(** Sorted by descending score: every entry scores at least as high as
    every later entry. *)
Definition scoreDescending (l : list ScoredPOI.t) : Prop :=
  StronglySorted (fun a b => (ScoredPOI.aiScore b <= ScoredPOI.aiScore a)%Q) l.

(** The per-category counter of the selection loop agrees with the list
    accepted so far. *)
Definition counts_agree (diversePOIs : list ScoredPOI.t)
    (categoryCount : gmap string nat) : Prop :=
  forall c, default 0%nat (categoryCount !! c) = categoryCountIn c diversePOIs.

(** The counter of the selection loop holds no count under a name that
    every object inherits. *)
Definition counts_own_only (categoryCount : gmap string nat) : Prop :=
  forall c, JS.inherited c = true -> categoryCount !! c = None.

(** The category of a scored POI is no name that every object inherits. *)
Definition ordinaryCategory (p : ScoredPOI.t) : Prop :=
  JS.inherited (ScoredPOI.category p) = false.

Definition scoredSample (name category : string) (score : Q) : ScoredPOI.t :=
  ScoredPOI.mk (samplePOI name category 10%Q 20%Q (Some 4%Q) None) score
    (ScoreBreakdown.mk 0.7 0.6 0.5 0.7 0.5 0.7)%Q.

(** Twenty museums with the scores 0.99, 0.98, ..., 0.80. *)
Definition twentyMuseums : list ScoredPOI.t :=
  map (fun k => scoredSample "Museum" "Museums" (inject_Z (99 - Z.of_nat k) / 100)%Q)
      (seq 0 20).

(** Twenty POIs of the category "toString" with the scores 0.99, 0.98,
    ..., 0.80. *)
Definition twentyOfInheritedName : list ScoredPOI.t :=
  map (fun k => scoredSample "Place" "toString" (inject_Z (99 - Z.of_nat k) / 100)%Q)
    (seq 0 20).

(** ** Aggregation *)

(** The records that are the first of their key, in order: each record is
    kept and the later records of the same key are dropped. *)
Fixpoint keepFirstBy {A K : Type} `{EqDecision K} (key : A -> K) (l : list A)
    : list A :=
  match l with
  | [] => []
  | x :: rest => x :: filter (fun y => key y <> key x) (keepFirstBy key rest)
  end.

(** The composite key of a record: its name as given, its latitude and its
    longitude, each rendered with 4 decimals. *)
Definition compositeKey (poi : POI.t) : string * string * string :=
  (POI.name poi,
   JS.toFixed 4 (Location.lat (POI.location poi)),
   JS.toFixed 4 (Location.lng (POI.location poi))).

Definition isSpace (c : ascii) : bool :=
  let n := nat_of_ascii c in ((n =? 32) || ((9 <=? n) && (n <=? 13)))%nat.

Fixpoint stripSpaces (s : string) : string :=
  match s with
  | EmptyString => EmptyString
  | String c s' => if isSpace c then stripSpaces s' else String c (stripSpaces s')
  end.

(** A name up to case and white space. *)
Definition normalizeName (s : string) : string := JS.toLowerCase (stripSpaces s).

(** A coordinate rounded to 4 decimals, in ten-thousandths. *)
Definition round4 (x : Q) : Z := Qfloor (x * 10000 + (1 # 2))%Q.

(** Deduplication of two records as the specification words it: names that
    differ only in case or white space, coordinates in the same 4-decimal
    bucket, exactly one record kept. *)
Definition dedup_pair_as_stated (p q : POI.t) : Prop :=
  normalizeName (POI.name p) = normalizeName (POI.name q) ->
  round4 (Location.lat (POI.location p)) = round4 (Location.lat (POI.location q)) ->
  round4 (Location.lng (POI.location p)) = round4 (Location.lng (POI.location q)) ->
  length (POIService.removeDuplicatePOIs [p; q]) = 1%nat.

Definition cafeLuna : POI.t :=
  samplePOI "Cafe Luna" "Coffee Shops" 48.85661%Q 2.35222%Q (Some 4%Q) None.

Definition cafeLunaAgain : POI.t :=
  samplePOI "cafe luna " "Coffee Shops" 48.85662%Q 2.35221%Q (Some 4%Q) None.

Fixpoint hasNoUnderscore (s : string) : Prop :=
  match s with
  | EmptyString => True
  | String c s' => c <> "_"%char /\ hasNoUnderscore s'
  end.

(** What a source contributes to the pool: its POIs, or nothing when the
    call fails. *)
Definition contribution (source : POIService.Source) (location : Location.t Q)
    (categories : list string) (radius : Q) : list POI.t :=
  match source location categories radius with
  | JS.Fulfilled found => found
  | JS.Rejected _ => []
  end.

Definition concatenatedPool (searchSerpAPI searchOverpassAPI : POIService.Source)
    (location : Location.t Q) (categories : list string) (radius : Q) : list POI.t :=
  contribution searchSerpAPI location categories radius ++
  contribution searchOverpassAPI location categories radius ++
  contribution POIService.searchFoursquareAPI location categories radius.

(** The contract of [Math.random]: every result lies in [[0, 1)]. *)
Definition random_in_range (g : JS.Rng) : Prop := forall n, (0 <= g n < 1)%Q.

Definition failingSource : POIService.Source :=
  fun _ _ _ => JS.Rejected "network error".

Definition halves : JS.Rng := fun _ => (1 # 2)%Q.

Definition plainRendering (q : Q) : string := "0.k3j9x2w".

(** ** Sample routes *)

(** A route whose origin and destination coincide. *)
Definition standstill : RouteInput.t R :=
  RouteInput.mk (Location.mk 12%R 34%R "Home") (Location.mk 12%R 34%R "Home")
    1700000000000%R [] None.

(** Along the equator, from longitude 0 to longitude [degrees]. *)
Definition alongEquator (degrees : R) : RouteInput.t R :=
  RouteInput.mk (Location.mk 0%R 0%R "Origin") (Location.mk 0%R degrees "Destination")
    1700000000000%R [] None.

(** Coordinates on the globe, for a route. *)
Definition validCoordinates (l : Location.t R) : Prop :=
  (-90 <= Location.lat l <= 90 /\ -180 <= Location.lng l <= 180)%R.

(** The endpoints of a route are not antipodal, nor within a few hundred
    metres of it: the haversine term stays away from 1, where rounding can
    take it above 1 and the distance is then NaN. *)
Definition awayFromAntipodal (from to : Location.t R) : Prop :=
  (haversine (Location.lat from) (Location.lng from)
     (Location.lat to) (Location.lng to) <= 1 - / 10 ^ 9)%R.

(** The route from Bhopal (23.2599, 77.4126) to London (51.5074, -0.1278)
    in double precision: the longitudes of its endpoints, the longitude
    of the checkpoint at a given progress, and whether [progress] is
    exactly 1 at the last index when there are [count] checkpoints. *)
Module BhopalToLondon.
Import PrimFloat.
#[local] Set Warnings "-inexact-float".
Local Open Scope float_scope.

Definition fromLng : float := 77.4126.
Definition toLng : float := -0.1278.

Definition lastProgressIsOne (count : nat) : bool :=
  eqb (RouteOrchestratorDouble.progress
         (RouteOrchestratorDouble.ofNat (count - 1))
         (RouteOrchestratorDouble.ofNat count))
      1.

Definition lastLng : float := RouteOrchestratorDouble.lng fromLng toLng 1.

Definition lastLngIs : bool := eqb lastLng (-0.12779999999999347).

Definition lastLngIsDestination : bool := eqb lastLng toLng.

End BhopalToLondon.

(** ** Notions for the further properties *)

(** The three factors that [getWeatherSuitabilityScore] multiplies. *)
Definition temperatureFactor (temperature : Q) : Q :=
  (if JS.ltb temperature 5 || JS.gtb temperature 35 then 0.3
   else if JS.ltb temperature 10 || JS.gtb temperature 30 then 0.6
   else if JS.ltb temperature 15 || JS.gtb temperature 28 then 0.8
   else 1)%Q.

Definition conditionFactor (condition : string) : Q :=
  JS.or_else (JS.own WeatherService.conditionScores condition) 0.5%Q.

Definition windFactor (windSpeed : Q) : Q :=
  (if JS.gtb windSpeed 40 then 0.3 else if JS.gtb windSpeed 25 then 0.7 else 1)%Q.

(** A weather snapshot with another wind speed. *)
Definition withWind (w : WeatherData.t) (windSpeed : Q) : WeatherData.t :=
  WeatherData.mk (WeatherData.temperature w) (WeatherData.condition w)
    (WeatherData.humidity w) windSpeed (WeatherData.icon w).

(** A whole number, as a rational. *)
Definition isWhole (q : Q) : Prop := exists z : Z, q = inject_Z z.

Definition sampleWeather : WeatherData.t :=
  WeatherData.mk 22%Q "Partly Cloudy" 55%Q 12%Q "⛅".

Definition samplePlace : Location.t Q := Location.mk 28.6139%Q 77.2090%Q "New Delhi".

Definition sampleCache : gmap string WeatherLookup.CacheEntry :=
  {[ WeatherLookup.cacheKey samplePlace := WeatherLookup.mkEntry sampleWeather 1000%Z ]}.

Definition workingProvider : WeatherLookup.Provider :=
  fun _ => JS.Fulfilled (WeatherLookup.mkReply true (JS.Fulfilled sampleWeather)).

Definition brokenProvider : WeatherLookup.Provider :=
  fun _ => JS.Rejected "network error".

(** The weather cache holds no entry for the location that is still fresh
    at [now]. *)
Definition noFreshEntry (now : Z) (weatherCache : gmap string WeatherLookup.CacheEntry)
    (location : Location.t Q) : Prop :=
  forall entry,
    weatherCache !! WeatherLookup.cacheKey location = Some entry ->
    (WeatherLookup.CACHE_DURATION <= now - WeatherLookup.timestamp entry)%Z.

(** A place that rounds to the same two decimals as [samplePlace]. *)
Definition nearbyPlace : Location.t Q := Location.mk 28.61%Q 77.21%Q "Connaught Place".

(** What one preference adds to [matchScore] in [calculatePreferenceMatch]. *)
Definition preferenceScore (poi : POI.t) (preference : string) : Q :=
  if JS.includes (JS.toLowerCase (POI.category poi)) (JS.toLowerCase preference)
  then 1%Q
  else AIPOIFilter.calculateSemanticMatch poi preference.

Definition sumQ (l : list Q) : Q := fold_right Qplus 0%Q l.

(** The POI at another distance from the route. *)
Definition withDistance (poi : POI.t) (distance : Q) : POI.t :=
  POI.mk (POI.id poi) (POI.name poi) (POI.description poi) (POI.category poi)
    (POI.location poi) (POI.rating poi) (POI.priceLevel poi) (POI.photos poi)
    (POI.openingHours poi) (POI.website poi) (POI.phone poi) (POI.weather poi)
    (POI.aiScore poi) distance (POI.closestTo poi).

(** What contact details and opening hours add to the accessibility score. *)
Definition accessibilityBonus (poi : POI.t) : Q :=
  ((if JS.truthy_string (POI.phone poi) then 0.1 else 0) +
   (if JS.truthy_string (POI.website poi) then 0.1 else 0) +
   (if (0 <? List.length (POI.openingHours poi))%nat then 0.1 else 0))%Q.

(** A sub-score between 0 and 1. *)
Definition unitScore (q : Q) : Prop := (0 <= q <= 1)%Q.

(** Two parks and a museum, scored. *)
Definition threeScored : list ScoredPOI.t :=
  [ scoredSample "City Park" "Parks" 0.62%Q;
    scoredSample "Heritage Museum" "Museums" 0.81%Q;
    scoredSample "River Park" "Parks" 0.62%Q ].

(** The categories whose weather sensitivity is above one half. *)
Definition weatherSensitiveCategories : list string :=
  [ "Parks"; "Outdoor Activities"; "Scenic Views"; "Local Markets";
    "Historic Sites" ]%string.

(** The reason given for a poor weather sub-score. *)
Definition indoorReason (criteria : AIFilteringCriteria.t) : string :=
  ("indoor alternative due to " ++
   JS.toLowerCase
     (WeatherData.condition (AIFilteringCriteria.weatherConditions criteria)))%string.

Definition plainNumber : Q -> string := JS.toFixed 1.

Definition stormyTrip : RouteInput.t Q :=
  RouteInput.mk (Location.mk 28.6139%Q 77.2090%Q "Delhi")
    (Location.mk 19.0760%Q 72.8777%Q "Mumbai") 0%Q ["golf"%string]
    (Some thunderstorm).

(** The entries of the tag table for the categories of a request, in the
    order of the request. *)
Definition entriesOf (categories : list string) : list POISources.OSMTag :=
  flat_map (fun category =>
              match JS.own POISources.categoryMap category with
              | Some mappedTags => mappedTags
              | None => []
              end) categories.

(** A string of [n] dollar signs. *)
Fixpoint dollars (n : nat) : string :=
  match n with
  | O => EmptyString
  | S k => String "$" (dollars k)
  end.



(** A price level of the 1 to 4 scale. *)
Definition onPriceScale (level : Q) : Prop :=
  level = 1%Q \/ level = 2%Q \/ level = 3%Q \/ level = 4%Q.

(** A tenth of a whole number. *)
Definition inTenths (q : Q) : Prop := exists z : Z, q = (inject_Z z / 10)%Q.

(** The two tags that are asked for under a category but read back as
    another. *)
Definition readsBackAsOther (tag : POISources.OSMTag) : bool :=
  (String.eqb (POISources.key tag) "amenity"
   && String.eqb (POISources.value tag) "marketplace")
  || (String.eqb (POISources.key tag) "leisure"
      && String.eqb (POISources.value tag) "amusement_arcade").

(** With random numbers in [[0, 1)], the computation [c] gives a result
    that satisfies [P], and leaves random numbers in [[0, 1)]. *)
Definition produces {A} (c : JS.Gen A) (P : A -> Prop) : Prop :=
  forall g, random_in_range g ->
    P (fst (c g)) /\ random_in_range (snd (c g)).

(** A rating between 3.0 and 5.0, in tenths. *)
Definition generatedRating (rating : option Q) : Prop :=
  exists r, rating = Some r /\ (3 <= r <= 5)%Q /\ inTenths r.

Definition pricedOnScale (priceLevel : option Q) : Prop :=
  exists level, priceLevel = Some level /\ onPriceScale level.



(** The string that holds the lone surrogate U+D800 and nothing else. *)
Definition loneSurrogate : string :=
  String (ascii_of_nat 237) (String (ascii_of_nat 160)
    (String (ascii_of_nat 128) EmptyString)).

(** What every mock POI generated around [location] for one of the
    [categories] looks like. *)
Definition mockShaped (location : Location.t Q) (categories : list string)
    (poi : POI.t) : Prop :=
  In (POI.category poi) categories /\
  (Location.lat location - 0.011 <= Location.lat (POI.location poi)
   <= Location.lat location + 0.011)%Q /\
  (Location.lng location - 0.011 <= Location.lng (POI.location poi)
   <= Location.lng location + 0.011)%Q /\
  generatedRating (POI.rating poi) /\
  pricedOnScale (POI.priceLevel poi) /\
  (0 <= POI.distanceFromRoute poi < 5)%Q /\
  (0 <= POI.aiScore poi < 1)%Q /\
  List.length (POI.photos poi) = 2%nat /\
  POI.openingHours poi <> [] /\
  POI.weather poi = None.

(** The categories that the mock generates for. *)
Definition mockTargets (categories : list string) : list string :=
  match categories with
  | [] => POIService.defaultCategories
  | _ => categories
  end.










(** No two entries of the trip store share a key, as in a [Map]. *)
Definition tripsDistinct (store : InMemoryDatabase.DatabaseStore) : Prop :=
  NoDup (JSMap.keys (InMemoryDatabase.trips store)).

Definition sampleTrip : TripPlan.t :=
  TripPlan.mk "trip-1" (alongEquator 5) [] [] 1700000000000%R 1700000000000%R.

Definition revisedTrip : TripPlan.t :=
  TripPlan.mk "trip-1" (alongEquator 6) [] [] 1700000000000%R 1700000360000%R.

(** A provider of location suggestions that is down. *)
Definition unreachableSearch : GeocodingService.SearchProvider :=
  fun _ => JS.Rejected "network error".

(** Two sets of criteria that agree on what the scoring reads: the
    preferences, the time of day, the season, and the temperature,
    condition and wind speed of the weather. *)
Definition sameForScoring (criteria criteria' : AIFilteringCriteria.t) : Prop :=
  AIFilteringCriteria.userPreferences criteria =
    AIFilteringCriteria.userPreferences criteria' /\
  AIFilteringCriteria.timeOfDay criteria = AIFilteringCriteria.timeOfDay criteria' /\
  AIFilteringCriteria.seasonality criteria = AIFilteringCriteria.seasonality criteria' /\
  WeatherData.temperature (AIFilteringCriteria.weatherConditions criteria) =
    WeatherData.temperature (AIFilteringCriteria.weatherConditions criteria') /\
  WeatherData.condition (AIFilteringCriteria.weatherConditions criteria) =
    WeatherData.condition (AIFilteringCriteria.weatherConditions criteria') /\
  WeatherData.windSpeed (AIFilteringCriteria.weatherConditions criteria) =
    WeatherData.windSpeed (AIFilteringCriteria.weatherConditions criteria').

(** The criteria with another travel style and another humidity. *)
Definition restyled (criteria : AIFilteringCriteria.t) (style : TravelStyle)
    (humidity : Q) : AIFilteringCriteria.t :=
  AIFilteringCriteria.mk
    (AIFilteringCriteria.userPreferences criteria)
    (WeatherData.mk
       (WeatherData.temperature (AIFilteringCriteria.weatherConditions criteria))
       (WeatherData.condition (AIFilteringCriteria.weatherConditions criteria))
       humidity
       (WeatherData.windSpeed (AIFilteringCriteria.weatherConditions criteria))
       (WeatherData.icon (AIFilteringCriteria.weatherConditions criteria)))
    (AIFilteringCriteria.timeOfDay criteria)
    (AIFilteringCriteria.seasonality criteria)
    style.

(** A reverse lookup whose provider answers with an empty name. *)
Definition namelessPlace : GeocodingService.ReverseProvider :=
  fun _ _ => JS.Fulfilled (WeatherLookup.mkReply true (JS.Fulfilled (Some ""%string))).

(* ===================================================================== *)
(** * Properties of the geo math *)
(* ===================================================================== *)

Section GeoMath.
Local Open Scope R_scope.

(** ** [Math.atan2] on the first quadrant *)

Lemma atan2_zero_pos (x : R) : 0 < x -> JS.atan2 0 x = 0.
Proof.
  intros Hx. unfold JS.atan2.
  destruct (Rlt_dec 0 x) as [_ | Hn]; [| contradiction].
  replace (0 / x) with 0 by (field; lra). apply atan_0.
Qed.

Lemma atan_nonneg (x : R) : 0 <= x -> 0 <= atan x.
Proof.
  intros [Hx | <-].
  - left. rewrite <- atan_0. now apply atan_increasing.
  - rewrite atan_0. lra.
Qed.

Lemma atan_pos (x : R) : 0 < x -> 0 < atan x.
Proof. intros Hx. rewrite <- atan_0. now apply atan_increasing. Qed.

Lemma atan2_nonneg (y x : R) : 0 <= y -> 0 <= JS.atan2 y x.
Proof.
  intros Hy. unfold JS.atan2. pose proof PI_RGT_0 as Hpi.
  destruct (Rlt_dec 0 x) as [Hx | Hx].
  - apply atan_nonneg. apply Rle_mult_inv_pos; assumption.
  - destruct (Rlt_dec x 0) as [Hx' | Hx'].
    + destruct (Rle_dec 0 y) as [_ | Hn]; [| contradiction].
      pose proof (atan_bound (y / x)). lra.
    + destruct (Rlt_dec 0 y); [lra |].
      destruct (Rlt_dec y 0); lra.
Qed.

Lemma atan2_pos (y x : R) : 0 < y -> 0 <= x -> 0 < JS.atan2 y x.
Proof.
  intros Hy Hx. unfold JS.atan2. pose proof PI_RGT_0 as Hpi.
  destruct (Rlt_dec 0 x) as [Hx' | Hx'].
  - apply atan_pos. apply Rdiv_lt_0_compat; assumption.
  - destruct (Rlt_dec x 0); [lra |].
    destruct (Rlt_dec 0 y); lra.
Qed.

(** ** The haversine term *)

Lemma calculateDistance_haversine (lat1 lng1 lat2 lng2 : R) :
  DistanceCalculator.calculateDistance lat1 lng1 lat2 lng2 =
  6371 * (2 * JS.atan2 (sqrt (haversine lat1 lng1 lat2 lng2))
                       (sqrt (1 - haversine lat1 lng1 lat2 lng2))).
Proof. reflexivity. Qed.

Lemma haversine_same (lat1 lng1 : R) : haversine lat1 lng1 lat1 lng1 = 0.
Proof.
  unfold haversine, DistanceCalculator.toRadians.
  replace ((lat1 - lat1) * (PI / 180) / 2) with 0 by field.
  replace ((lng1 - lng1) * (PI / 180) / 2) with 0 by field.
  rewrite sin_0. ring.
Qed.

(** The term is a convex combination of a squared sine and a squared
    cosine, hence lies in [[0, 1]]: both square roots of
    [calculateDistance] are taken of non-negative numbers. *)
Lemma haversine_convex (lat1 lng1 lat2 lng2 : R) :
  let u := DistanceCalculator.toRadians lat1 / 2 in
  let v := DistanceCalculator.toRadians lat2 / 2 in
  let s := Rsqr (sin (DistanceCalculator.toRadians (lng2 - lng1) / 2)) in
  haversine lat1 lng1 lat2 lng2 =
  (1 - s) * Rsqr (sin (v - u)) + s * Rsqr (cos (u + v)).
Proof.
  intros u v s. unfold haversine.
  replace (DistanceCalculator.toRadians (lat2 - lat1) / 2) with (v - u)
    by (unfold u, v, DistanceCalculator.toRadians; field).
  replace (DistanceCalculator.toRadians lat1) with (2 * u)
    by (unfold u; field).
  replace (DistanceCalculator.toRadians lat2) with (2 * v)
    by (unfold v; field).
  fold s. rewrite !cos_2a, sin_minus, cos_plus.
  pose proof (sin2_cos2 u) as Hu. pose proof (sin2_cos2 v) as Hv.
  unfold s, Rsqr in *. nra.
Qed.

Lemma haversine_range (lat1 lng1 lat2 lng2 : R) :
  0 <= haversine lat1 lng1 lat2 lng2 <= 1.
Proof.
  rewrite haversine_convex.
  set (s := Rsqr (sin _)). set (A := Rsqr (sin _)). set (B := Rsqr (cos _)).
  assert (Hs : 0 <= s <= 1).
  { unfold s. split; [apply Rle_0_sqr |].
    pose proof (sin2_cos2 (DistanceCalculator.toRadians (lng2 - lng1) / 2)) as H.
    pose proof (Rle_0_sqr (cos (DistanceCalculator.toRadians (lng2 - lng1) / 2))).
    lra. }
  assert (HA : 0 <= A <= 1).
  { unfold A. split; [apply Rle_0_sqr |].
    match goal with |- Rsqr (sin ?x) <= 1 =>
      pose proof (sin2_cos2 x); pose proof (Rle_0_sqr (cos x)) end. lra. }
  assert (HB : 0 <= B <= 1).
  { unfold B. split; [apply Rle_0_sqr |].
    match goal with |- Rsqr (cos ?x) <= 1 =>
      pose proof (sin2_cos2 x); pose proof (Rle_0_sqr (sin x)) end. lra. }
  nra.
Qed.

Lemma calculateDistance_nonneg (lat1 lng1 lat2 lng2 : R) :
  0 <= DistanceCalculator.calculateDistance lat1 lng1 lat2 lng2.
Proof.
  rewrite calculateDistance_haversine.
  pose proof (atan2_nonneg (sqrt (haversine lat1 lng1 lat2 lng2))
                (sqrt (1 - haversine lat1 lng1 lat2 lng2))
                (sqrt_pos _)).
  lra.
Qed.

Lemma distance_of_zero_haversine (a : R) :
  a = 0 -> 6371 * (2 * JS.atan2 (sqrt a) (sqrt (1 - a))) = 0.
Proof.
  intros ->. rewrite sqrt_0, Rminus_0_r, sqrt_1, atan2_zero_pos by lra. ring.
Qed.

Lemma calculateDistance_same (lat1 lng1 : R) :
  DistanceCalculator.calculateDistance lat1 lng1 lat1 lng1 = 0.
Proof.
  rewrite calculateDistance_haversine.
  apply distance_of_zero_haversine, haversine_same.
Qed.

(** The distance vanishes exactly when the haversine term does. *)
Lemma calculateDistance_zero_iff (lat1 lng1 lat2 lng2 : R) :
  DistanceCalculator.calculateDistance lat1 lng1 lat2 lng2 = 0 <->
  haversine lat1 lng1 lat2 lng2 = 0.
Proof.
  rewrite calculateDistance_haversine. split.
  - intros H. destruct (haversine_range lat1 lng1 lat2 lng2) as [[Hpos | Hz] Hle];
      [exfalso | now symmetry].
    pose proof (atan2_pos (sqrt (haversine lat1 lng1 lat2 lng2))
                  (sqrt (1 - haversine lat1 lng1 lat2 lng2))
                  (sqrt_lt_R0 _ Hpos) (sqrt_pos _)).
    lra.
  - apply distance_of_zero_haversine.
Qed.

Lemma sin_zero_small (x : R) : - PI < x < PI -> sin x = 0 -> x = 0.
Proof.
  intros [Hlo Hhi] Hs.
  destruct (Rtotal_order x 0) as [Hneg | [Hz | Hpos]]; [| assumption |].
  - pose proof (sin_lt_0_var x Hlo Hneg). lra.
  - pose proof (sin_gt_0 x Hpos Hhi). lra.
Qed.

Lemma cos_toRadians_pos (lat : R) :
  -90 < lat < 90 -> 0 < cos (DistanceCalculator.toRadians lat).
Proof.
  intros [Hlo Hhi]. pose proof PI_RGT_0 as Hpi.
  unfold DistanceCalculator.toRadians. apply cos_gt_0; nra.
Qed.

Lemma half_toRadians_zero (x : R) :
  DistanceCalculator.toRadians x / 2 = 0 -> x = 0.
Proof.
  unfold DistanceCalculator.toRadians. pose proof PI_RGT_0 as Hpi. intros H.
  assert (Hx : x * PI = 0) by lra.
  apply Rmult_integral in Hx as [Hx | Hx]; lra.
Qed.

(** Away from the poles, and for longitudes less than a full turn apart,
    the haversine term vanishes only for identical coordinates. *)
Lemma haversine_zero_identical (lat1 lng1 lat2 lng2 : R) :
  -90 < lat1 < 90 -> -90 < lat2 < 90 -> -360 < lng2 - lng1 < 360 ->
  haversine lat1 lng1 lat2 lng2 = 0 -> lat1 = lat2 /\ lng1 = lng2.
Proof.
  intros H1 H2 Hlng Ha. unfold haversine in Ha.
  pose proof (cos_toRadians_pos lat1 H1) as Hc1.
  pose proof (cos_toRadians_pos lat2 H2) as Hc2.
  pose proof PI_RGT_0 as Hpi.
  set (x := DistanceCalculator.toRadians (lat2 - lat1) / 2) in *.
  set (y := DistanceCalculator.toRadians (lng2 - lng1) / 2) in *.
  set (c1 := cos (DistanceCalculator.toRadians lat1)) in *.
  set (c2 := cos (DistanceCalculator.toRadians lat2)) in *.
  assert (Hc : 0 < c1 * c2) by (apply Rmult_lt_0_compat; assumption).
  assert (Hsx : sin x = 0) by nra.
  assert (Hsy : sin y = 0).
  { assert (Hxx : sin x * sin x = 0) by (rewrite Hsx; ring).
    assert (Hyy : (c1 * c2) * (sin y * sin y) = 0) by lra.
    apply Rmult_integral in Hyy as [Hyy | Hyy]; [lra |].
    apply Rmult_integral in Hyy as [Hyy | Hyy]; assumption. }
  assert (Hx : x = 0).
  { apply sin_zero_small; [| assumption].
    unfold x, DistanceCalculator.toRadians. split; nra. }
  assert (Hy : y = 0).
  { apply sin_zero_small; [| assumption].
    unfold y, DistanceCalculator.toRadians. split; nra. }
  apply half_toRadians_zero in Hx. apply half_toRadians_zero in Hy.
  split; lra.
Qed.

End GeoMath.

(* ===================================================================== *)
(** * Properties of the checkpoint planner *)
(* ===================================================================== *)

Section CheckpointPlanner.
Local Open Scope R_scope.

(** The two haversine implementations agree. *)
Lemma orchestrator_distance (from to : Location.t R) :
  RouteOrchestrator.calculateDistance from to =
  DistanceCalculator.calculateDistance
    (Location.lat from) (Location.lng from) (Location.lat to) (Location.lng to).
Proof. reflexivity. Qed.

Lemma route_distance_nonneg (from to : Location.t R) :
  0 <= RouteOrchestrator.calculateDistance from to.
Proof. rewrite orchestrator_distance. apply calculateDistance_nonneg. Qed.

Lemma numberOfCheckpoints_ge_2 (distance : R) :
  (2 <= RouteOrchestrator.numberOfCheckpoints distance)%Z.
Proof. unfold RouteOrchestrator.numberOfCheckpoints. lia. Qed.

Lemma INR_numberOfCheckpoints (distance : R) :
  INR (Z.to_nat (RouteOrchestrator.numberOfCheckpoints distance)) =
  IZR (RouteOrchestrator.numberOfCheckpoints distance).
Proof.
  pose proof (numberOfCheckpoints_ge_2 distance).
  rewrite INR_IZR_INZ, Z2Nat.id by lia. reflexivity.
Qed.

(** The divisor of [progress] is at least 1: the loop never divides by 0. *)
Lemma progressDivisor_ge_1 (distance : R) :
  1 <= RouteOrchestrator.progressDivisor
         (RouteOrchestrator.numberOfCheckpoints distance).
Proof.
  unfold RouteOrchestrator.progressDivisor.
  pose proof (IZR_le _ _ (numberOfCheckpoints_ge_2 distance)). lra.
Qed.

(** The loop pushes the checkpoints of the indices [i, i+1, ...] in turn. *)
Lemma checkpointLoop_unfold routeInput distance n remaining :
  forall i checkpoints,
    RouteOrchestrator.checkpointLoop routeInput distance n remaining i checkpoints =
    checkpoints ++
    (RouteOrchestrator.checkpointAt routeInput distance n <$> seq i remaining).
Proof.
  induction remaining as [| k IH]; intros i acc; simpl.
  - now rewrite app_nil_r.
  - rewrite IH, <- app_assoc. reflexivity.
Qed.

Lemma generateRouteCheckpoints_unfold (routeInput : RouteInput.t R) :
  let distance :=
    RouteOrchestrator.calculateDistance
      (RouteInput.from routeInput) (RouteInput.to routeInput) in
  let n := RouteOrchestrator.numberOfCheckpoints distance in
  RouteOrchestrator.generateRouteCheckpoints routeInput =
  (RouteOrchestrator.checkpointAt routeInput distance n <$> seq 0 (Z.to_nat n)).
Proof.
  intros distance n. unfold RouteOrchestrator.generateRouteCheckpoints.
  fold distance. fold n. now rewrite checkpointLoop_unfold.
Qed.

Lemma generateRouteCheckpoints_length (routeInput : RouteInput.t R) :
  length (RouteOrchestrator.generateRouteCheckpoints routeInput) =
  Z.to_nat (RouteOrchestrator.numberOfCheckpoints
              (RouteOrchestrator.calculateDistance
                 (RouteInput.from routeInput) (RouteInput.to routeInput))).
Proof.
  rewrite generateRouteCheckpoints_unfold. cbv zeta.
  now rewrite length_fmap, length_seq.
Qed.

Lemma generateRouteCheckpoints_lookup (routeInput : RouteInput.t R) (i : nat) :
  let distance :=
    RouteOrchestrator.calculateDistance
      (RouteInput.from routeInput) (RouteInput.to routeInput) in
  let n := RouteOrchestrator.numberOfCheckpoints distance in
  (i < Z.to_nat n)%nat ->
  RouteOrchestrator.generateRouteCheckpoints routeInput !! i =
  Some (RouteOrchestrator.checkpointAt routeInput distance n i).
Proof.
  intros distance n Hi. rewrite generateRouteCheckpoints_unfold. cbv zeta.
  fold distance. fold n.
  rewrite list_lookup_fmap, lookup_seq_lt by assumption. reflexivity.
Qed.

Lemma generateRouteCheckpoints_lookup_inv (routeInput : RouteInput.t R) i cp :
  let distance :=
    RouteOrchestrator.calculateDistance
      (RouteInput.from routeInput) (RouteInput.to routeInput) in
  let n := RouteOrchestrator.numberOfCheckpoints distance in
  RouteOrchestrator.generateRouteCheckpoints routeInput !! i = Some cp ->
  (i < Z.to_nat n)%nat /\
  cp = RouteOrchestrator.checkpointAt routeInput distance n i.
Proof.
  intros distance n H.
  assert (Hi : (i < Z.to_nat n)%nat).
  { apply lookup_lt_Some in H.
    now rewrite generateRouteCheckpoints_length in H. }
  split; [assumption |].
  rewrite generateRouteCheckpoints_lookup in H by assumption.
  now injection H.
Qed.

(** Progress along the route, as the specification writes it. *)
Lemma progress_eq (distance : R) (i : nat) :
  let n := RouteOrchestrator.numberOfCheckpoints distance in
  INR i / RouteOrchestrator.progressDivisor n = INR i / (INR (Z.to_nat n) - 1).
Proof.
  intros n. unfold RouteOrchestrator.progressDivisor, n.
  now rewrite INR_numberOfCheckpoints.
Qed.

Lemma progress_last (distance : R) :
  let n := RouteOrchestrator.numberOfCheckpoints distance in
  INR (Z.to_nat n - 1) / RouteOrchestrator.progressDivisor n = 1.
Proof.
  intros n. pose proof (numberOfCheckpoints_ge_2 distance) as H2. fold n in H2.
  pose proof (progressDivisor_ge_1 distance) as Hd. fold n in Hd.
  rewrite minus_INR by lia. unfold n at 1. rewrite INR_numberOfCheckpoints.
  fold n. unfold RouteOrchestrator.progressDivisor in *. simpl (INR 1).
  field. lra.
Qed.

Lemma progress_monotone (distance : R) (i j : nat) :
  let n := RouteOrchestrator.numberOfCheckpoints distance in
  (i <= j)%nat ->
  INR i / RouteOrchestrator.progressDivisor n <=
  INR j / RouteOrchestrator.progressDivisor n.
Proof.
  intros n Hij. pose proof (progressDivisor_ge_1 distance) as Hd. fold n in Hd.
  apply le_INR in Hij. unfold Rdiv.
  apply Rmult_le_compat_r; [| assumption].
  left. apply Rinv_0_lt_compat. lra.
Qed.

Lemma progress_strict (distance : R) (i j : nat) :
  let n := RouteOrchestrator.numberOfCheckpoints distance in
  (i < j)%nat ->
  INR i / RouteOrchestrator.progressDivisor n <
  INR j / RouteOrchestrator.progressDivisor n.
Proof.
  intros n Hij. pose proof (progressDivisor_ge_1 distance) as Hd. fold n in Hd.
  apply lt_INR in Hij. unfold Rdiv.
  apply Rmult_lt_compat_r; [| assumption].
  apply Rinv_0_lt_compat. lra.
Qed.

Lemma progress_nonneg (distance : R) (i : nat) :
  0 <= INR i / RouteOrchestrator.progressDivisor
                 (RouteOrchestrator.numberOfCheckpoints distance).
Proof.
  pose proof (progressDivisor_ge_1 distance) as Hd.
  apply Rle_mult_inv_pos; [apply pos_INR | lra].
Qed.

Lemma Zfloor_zero_div (d : R) : 0 < d -> Zfloor (0 / d) = 0%Z.
Proof.
  intros Hd. apply Zfloor_eq. replace (0 / d) with 0 by (field; lra).
  simpl. lra.
Qed.

Lemma numberOfCheckpoints_zero : RouteOrchestrator.numberOfCheckpoints 0 = 2%Z.
Proof.
  unfold RouteOrchestrator.numberOfCheckpoints, JS.floorR,
    RouteOrchestrator.CHECKPOINT_INTERVAL_KM.
  rewrite Zfloor_zero_div by lra. reflexivity.
Qed.

(** C5 (as amended).  For a route between coordinates on the globe whose
    endpoints are not nearly antipodal, the planner produces
    max(2, floor(D / 50)) checkpoints, D being the great-circle distance
    from origin to destination.  Checkpoint [i] lies at the linear
    interpolation of origin and destination at t = i / (count - 1), has
    distanceFromStart = t * D and estimatedTime = departureTime +
    t * D / 80 hours, in milliseconds.  The first checkpoint is at the
    origin; the last is the interpolation at t = 1, that is at
    origin + (destination - origin) * 1. *)
Theorem checkpoints_follow_route (routeInput : RouteInput.t R) :
  let from := RouteInput.from routeInput in
  let to := RouteInput.to routeInput in
  let D := RouteOrchestrator.calculateDistance from to in
  let count := Z.to_nat (Z.max 2 (Zfloor (D / 50))) in
  let checkpoints := RouteOrchestrator.generateRouteCheckpoints routeInput in
  validCoordinates from ->
  validCoordinates to ->
  awayFromAntipodal from to ->
  length checkpoints = count /\
  (forall i : nat, (i < count)%nat ->
     exists cp, checkpoints !! i = Some cp /\
       let t := INR i / (INR count - 1) in
       Location.lat (RouteCheckpoint.location cp) =
         Location.lat from + (Location.lat to - Location.lat from) * t /\
       Location.lng (RouteCheckpoint.location cp) =
         Location.lng from + (Location.lng to - Location.lng from) * t /\
       RouteCheckpoint.distanceFromStart cp = t * D /\
       RouteCheckpoint.estimatedTime cp =
         RouteInput.departureTime routeInput +
         ((t * D) / 80) * 60 * 60 * 1000) /\
  (exists first, checkpoints !! 0%nat = Some first /\
     Location.lat (RouteCheckpoint.location first) = Location.lat from /\
     Location.lng (RouteCheckpoint.location first) = Location.lng from) /\
  (exists last, checkpoints !! (count - 1)%nat = Some last /\
     INR (count - 1) / (INR count - 1) = 1 /\
     Location.lat (RouteCheckpoint.location last) =
       Location.lat from + (Location.lat to - Location.lat from) * 1 /\
     Location.lng (RouteCheckpoint.location last) =
       Location.lng from + (Location.lng to - Location.lng from) * 1).
Proof.
  intros from to D count checkpoints _ _ _.
  assert (Hcount : count = Z.to_nat (RouteOrchestrator.numberOfCheckpoints D))
    by reflexivity.
  pose proof (numberOfCheckpoints_ge_2 D) as H2.
  assert (Hpos : (2 <= count)%nat) by (rewrite Hcount; lia).
  split; [apply generateRouteCheckpoints_length |].
  split; [| split].
  - intros i Hi. eexists. split.
    + apply generateRouteCheckpoints_lookup. fold from to D. now rewrite <- Hcount.
    + cbv zeta. fold from to D. rewrite Hcount, <- progress_eq.
      unfold RouteOrchestrator.checkpointAt. simpl.
      fold from to. repeat split; reflexivity.
  - eexists. split.
    + apply generateRouteCheckpoints_lookup. fold from to D. lia.
    + unfold RouteOrchestrator.checkpointAt. simpl. fold from to.
      unfold Rdiv. rewrite !Rmult_0_l, !Rmult_0_r, !Rplus_0_r. split; reflexivity.
  - eexists. split.
    + apply generateRouteCheckpoints_lookup. fold from to D. lia.
    + fold from to D. rewrite Hcount, <- progress_eq.
      unfold RouteOrchestrator.checkpointAt. simpl.
      rewrite (progress_last D). fold from to. repeat split; reflexivity.
Qed.

(** C5 as stated fails for the route from Bhopal to London.  Whatever the
    number of checkpoints, from 2 to 401 (half the circumference of the
    Earth gives 400), [progress] is exactly 1 at the last index, and the
    longitude of the last checkpoint, 77.4126 + (-0.1278 - 77.4126) * 1 in
    double precision, is -0.12779999999999347: it is not the longitude
    -0.1278 of the destination. *)
Lemma last_checkpoint_misses_the_destination :
  forallb BhopalToLondon.lastProgressIsOne (seq 2 400) = true /\
  BhopalToLondon.lastLngIs = true /\
  BhopalToLondon.lastLngIsDestination = false.
Proof. repeat split; vm_compute; reflexivity. Qed.

(** C8.  When origin and destination coincide the route distance is 0, the
    divisor of the progress is not 0, and the planner yields exactly two
    checkpoints, both located at the origin. *)
Theorem coincident_endpoints_two_checkpoints (routeInput : RouteInput.t R) :
  let from := RouteInput.from routeInput in
  let to := RouteInput.to routeInput in
  let D := RouteOrchestrator.calculateDistance from to in
  Location.lat from = Location.lat to ->
  Location.lng from = Location.lng to ->
  D = 0 /\
  RouteOrchestrator.progressDivisor (RouteOrchestrator.numberOfCheckpoints D) <> 0 /\
  exists c0 c1,
    RouteOrchestrator.generateRouteCheckpoints routeInput = [c0; c1] /\
    Location.lat (RouteCheckpoint.location c0) = Location.lat from /\
    Location.lng (RouteCheckpoint.location c0) = Location.lng from /\
    Location.lat (RouteCheckpoint.location c1) = Location.lat from /\
    Location.lng (RouteCheckpoint.location c1) = Location.lng from.
Proof.
  intros from to D Hlat Hlng.
  assert (HD : D = 0).
  { unfold D. rewrite orchestrator_distance. fold from to.
    rewrite <- Hlat, <- Hlng. apply calculateDistance_same. }
  split; [assumption |]. split.
  - pose proof (progressDivisor_ge_1 D). lra.
  - rewrite generateRouteCheckpoints_unfold. cbv zeta. fold from to D.
    rewrite HD, numberOfCheckpoints_zero. simpl.
    do 2 eexists. split; [reflexivity |]. simpl. fold from to.
    rewrite <- Hlat, <- Hlng. repeat split; ring.
Qed.

Lemma estimatedTime_in_order (routeInput : RouteInput.t R) (i j : nat)
    (ci cj : RouteCheckpoint.t) :
  RouteOrchestrator.generateRouteCheckpoints routeInput !! i = Some ci ->
  RouteOrchestrator.generateRouteCheckpoints routeInput !! j = Some cj ->
  (i <= j)%nat ->
  RouteInput.departureTime routeInput <= RouteCheckpoint.estimatedTime ci /\
  RouteCheckpoint.estimatedTime ci <= RouteCheckpoint.estimatedTime cj.
Proof.
  intros Hi Hj Hij.
  apply generateRouteCheckpoints_lookup_inv in Hi as [_ ->].
  apply generateRouteCheckpoints_lookup_inv in Hj as [_ ->].
  set (D := RouteOrchestrator.calculateDistance _ _).
  unfold RouteOrchestrator.checkpointAt. simpl.
  pose proof (route_distance_nonneg (RouteInput.from routeInput)
                (RouteInput.to routeInput)) as HD. fold D in HD.
  pose proof (progress_monotone D i j Hij) as Hm. cbv zeta in Hm.
  pose proof (progress_nonneg D i) as Hp.
  set (n := RouteOrchestrator.numberOfCheckpoints D) in *.
  set (pi := INR i / RouteOrchestrator.progressDivisor n) in *.
  set (pj := INR j / RouteOrchestrator.progressDivisor n) in *.
  split; nra.
Qed.

(** C10.  Along the checkpoint sequence distanceFromStart is non-decreasing
    (strictly increasing when the route distance is positive), and every
    estimatedTime is at or after the departure time and non-decreasing. *)
Theorem checkpoints_monotone (routeInput : RouteInput.t R) (i j : nat)
    (ci cj : RouteCheckpoint.t) :
  let D := RouteOrchestrator.calculateDistance
             (RouteInput.from routeInput) (RouteInput.to routeInput) in
  let checkpoints := RouteOrchestrator.generateRouteCheckpoints routeInput in
  checkpoints !! i = Some ci ->
  checkpoints !! j = Some cj ->
  (i <= j)%nat ->
  RouteCheckpoint.distanceFromStart ci <= RouteCheckpoint.distanceFromStart cj /\
  (0 < D -> (i < j)%nat ->
   RouteCheckpoint.distanceFromStart ci < RouteCheckpoint.distanceFromStart cj) /\
  RouteInput.departureTime routeInput <= RouteCheckpoint.estimatedTime ci /\
  RouteCheckpoint.estimatedTime ci <= RouteCheckpoint.estimatedTime cj.
Proof.
  intros D checkpoints Hi Hj Hij.
  destruct (estimatedTime_in_order routeInput i j ci cj Hi Hj Hij) as [Hdep Htime].
  apply generateRouteCheckpoints_lookup_inv in Hi as [_ ->].
  apply generateRouteCheckpoints_lookup_inv in Hj as [_ ->].
  fold D in Hdep, Htime |- *. unfold RouteOrchestrator.checkpointAt. simpl.
  pose proof (route_distance_nonneg (RouteInput.from routeInput)
                (RouteInput.to routeInput)) as HD. fold D in HD.
  pose proof (progress_monotone D i j Hij) as Hm. cbv zeta in Hm.
  set (n := RouteOrchestrator.numberOfCheckpoints D) in *.
  set (pi := INR i / RouteOrchestrator.progressDivisor n) in *.
  set (pj := INR j / RouteOrchestrator.progressDivisor n) in *.
  split; [nra |]. split; [| split; assumption].
  intros HDpos Hlt. pose proof (progress_strict D i j Hlt) as Hs.
  cbv zeta in Hs. fold n pi pj in Hs. nra.
Qed.

End CheckpointPlanner.

Section CheckpointExamples.
Local Open Scope R_scope.

(** An instance of C8: a route from a place to itself. *)
Lemma coincident_endpoints_two_checkpoints_witness :
  RouteOrchestrator.calculateDistance
    (RouteInput.from standstill) (RouteInput.to standstill) = 0 /\
  exists c0 c1,
    RouteOrchestrator.generateRouteCheckpoints standstill = [c0; c1] /\
    Location.lat (RouteCheckpoint.location c0) = 12 /\
    Location.lng (RouteCheckpoint.location c0) = 34 /\
    Location.lat (RouteCheckpoint.location c1) = 12 /\
    Location.lng (RouteCheckpoint.location c1) = 34.
Proof.
  destruct (coincident_endpoints_two_checkpoints standstill eq_refl eq_refl)
    as (HD & _ & c0 & c1 & H).
  split; [exact HD |]. exists c0, c1. exact H.
Defined.

Lemma alongEquator_distance_pos :
  0 < RouteOrchestrator.calculateDistance
        (RouteInput.from (alongEquator 1)) (RouteInput.to (alongEquator 1)).
Proof.
  pose proof (route_distance_nonneg (RouteInput.from (alongEquator 1))
                (RouteInput.to (alongEquator 1))) as [Hpos | Hz]; [assumption |].
  symmetry in Hz. rewrite orchestrator_distance in Hz. simpl in Hz.
  apply calculateDistance_zero_iff in Hz.
  apply haversine_zero_identical in Hz as [_ Hz]; lra.
Qed.

(** An instance of C10: the first two checkpoints of a route along one
    degree of the equator. *)
Lemma checkpoints_monotone_witness :
  exists c0 c1,
    RouteOrchestrator.generateRouteCheckpoints (alongEquator 1) !! 0%nat = Some c0 /\
    RouteOrchestrator.generateRouteCheckpoints (alongEquator 1) !! 1%nat = Some c1 /\
    RouteCheckpoint.distanceFromStart c0 < RouteCheckpoint.distanceFromStart c1 /\
    RouteInput.departureTime (alongEquator 1) <= RouteCheckpoint.estimatedTime c0 /\
    RouteCheckpoint.estimatedTime c0 <= RouteCheckpoint.estimatedTime c1.
Proof.
  pose proof (numberOfCheckpoints_ge_2
                (RouteOrchestrator.calculateDistance
                   (RouteInput.from (alongEquator 1))
                   (RouteInput.to (alongEquator 1)))) as H2.
  assert (H0 : RouteOrchestrator.generateRouteCheckpoints (alongEquator 1) !! 0%nat =
               Some (RouteOrchestrator.checkpointAt (alongEquator 1) _ _ 0))
    by (apply generateRouteCheckpoints_lookup; lia).
  assert (H1 : RouteOrchestrator.generateRouteCheckpoints (alongEquator 1) !! 1%nat =
               Some (RouteOrchestrator.checkpointAt (alongEquator 1) _ _ 1))
    by (apply generateRouteCheckpoints_lookup; lia).
  destruct (checkpoints_monotone (alongEquator 1) 0 1 _ _ H0 H1 (Nat.le_succ_diag_r 0))
    as (_ & Hstrict & Hdep & Htime).
  eexists. eexists. split; [exact H0 |]. split; [exact H1 |].
  split; [apply Hstrict; [exact alongEquator_distance_pos | lia] |].
  split; assumption.
Defined.

(** ** The distance along the equator *)

Lemma atan2_sin_cos (h : R) : 0 <= h <= PI / 2 -> JS.atan2 (sin h) (cos h) = h.
Proof.
  intros [Hlo Hhi]. unfold JS.atan2. pose proof PI_RGT_0 as Hpi.
  destruct Hhi as [Hlt | ->].
  - pose proof (cos_gt_0 h ltac:(lra) Hlt) as Hc.
    destruct (Rlt_dec 0 (cos h)); [| contradiction].
    change (sin h / cos h) with (tan h). apply atan_tan. lra.
  - rewrite cos_PI2, sin_PI2.
    destruct (Rlt_dec 0 0); [lra |]. destruct (Rlt_dec 0 0); [lra |].
    destruct (Rlt_dec 0 1); lra.
Qed.

Lemma equator_distance (degrees : R) :
  0 <= degrees <= 180 ->
  DistanceCalculator.calculateDistance 0 0 0 degrees =
  6371 * DistanceCalculator.toRadians degrees.
Proof.
  intros [Hlo Hhi]. pose proof PI_RGT_0 as Hpi.
  rewrite calculateDistance_haversine. unfold haversine.
  set (h := DistanceCalculator.toRadians (degrees - 0) / 2).
  assert (Hh : 0 <= h <= PI / 2)
    by (unfold h, DistanceCalculator.toRadians; split; nra).
  replace (DistanceCalculator.toRadians (0 - 0) / 2) with 0
    by (unfold DistanceCalculator.toRadians; field).
  replace (DistanceCalculator.toRadians 0) with 0
    by (unfold DistanceCalculator.toRadians; ring).
  rewrite sin_0, cos_0.
  replace (0 * 0 + 1 * 1 * sin h * sin h) with (Rsqr (sin h)) by (unfold Rsqr; ring).
  replace (1 - Rsqr (sin h)) with (Rsqr (cos h))
    by (pose proof (sin2_cos2 h); lra).
  rewrite !sqrt_Rsqr;
    [| apply cos_ge_0; lra | apply sin_ge_0; lra].
  rewrite atan2_sin_cos by assumption.
  unfold h, DistanceCalculator.toRadians. field.
Qed.

Lemma PI_bounds : 3.13 < PI < 3.24.
Proof.
  destruct (PI_2_3_7_ineq 0) as [Hlo Hhi].
  unfold PI_2_3_7_tg, tg_alt, Ratan_seq in Hlo, Hhi. simpl in Hlo, Hhi.
  split; lra.
Qed.

(** Five degrees along the equator are about 555.97 km and get 11
    checkpoints. *)
Example five_degrees_eleven_checkpoints :
  length (RouteOrchestrator.generateRouteCheckpoints (alongEquator 5)) = 11%nat.
Proof.
  rewrite generateRouteCheckpoints_length, orchestrator_distance. simpl.
  rewrite equator_distance by lra.
  unfold RouteOrchestrator.numberOfCheckpoints, JS.floorR,
    RouteOrchestrator.CHECKPOINT_INTERVAL_KM, DistanceCalculator.toRadians.
  rewrite (Zfloor_eq 11); [reflexivity |].
  pose proof PI_bounds. simpl. split; lra.
Qed.

(** An instance of C5: five degrees along the equator. *)
Lemma checkpoints_follow_route_witness :
  validCoordinates (RouteInput.from (alongEquator 5)) /\
  validCoordinates (RouteInput.to (alongEquator 5)) /\
  awayFromAntipodal (RouteInput.from (alongEquator 5))
    (RouteInput.to (alongEquator 5)) /\
  length (RouteOrchestrator.generateRouteCheckpoints (alongEquator 5)) =
  Z.to_nat
    (Z.max 2
       (Zfloor
          (RouteOrchestrator.calculateDistance (RouteInput.from (alongEquator 5))
             (RouteInput.to (alongEquator 5)) / 50))).
Proof.
  assert (Hf : validCoordinates (RouteInput.from (alongEquator 5)))
    by (unfold validCoordinates; simpl; lra).
  assert (Ht : validCoordinates (RouteInput.to (alongEquator 5)))
    by (unfold validCoordinates; simpl; lra).
  assert (Ha : awayFromAntipodal (RouteInput.from (alongEquator 5))
                 (RouteInput.to (alongEquator 5))).
  { unfold awayFromAntipodal, haversine. simpl.
    pose proof PI_bounds as Hpi.
    replace (DistanceCalculator.toRadians (0 - 0) / 2) with 0
      by (unfold DistanceCalculator.toRadians; field).
    replace (DistanceCalculator.toRadians 0) with 0
      by (unfold DistanceCalculator.toRadians; ring).
    rewrite sin_0, cos_0.
    set (y := DistanceCalculator.toRadians (5 - 0) / 2).
    assert (Hy : 0 < y < 0.045)
      by (unfold y, DistanceCalculator.toRadians; split; lra).
    pose proof (sin_lt_x y (proj1 Hy)) as Hlt.
    pose proof (sin_ge_0 y ltac:(lra) ltac:(lra)) as Hge.
    nra. }
  split; [exact Hf |]. split; [exact Ht |]. split; [exact Ha |].
  exact (proj1 (checkpoints_follow_route (alongEquator 5) Hf Ht Ha)).
Defined.

End CheckpointExamples.

Section Dates.
Local Open Scope R_scope.

Lemma timeClip_whole (d : Z) : JS.timeClip (IZR d) = d.
Proof.
  unfold JS.timeClip. destruct (Rle_dec 0 (IZR d)); [apply ZfloorZ |].
  rewrite <- opp_IZR, ZfloorZ. lia.
Qed.

Lemma timeClip_monotone (x y : R) : x <= y -> (JS.timeClip x <= JS.timeClip y)%Z.
Proof.
  intros Hxy. unfold JS.timeClip.
  destruct (Rle_dec 0 x) as [Hx | Hx], (Rle_dec 0 y) as [Hy | Hy]; try lra.
  - now apply Zfloor_le.
  - assert (0 <= Zfloor (- x))%Z by (apply Zfloor_lub; simpl; lra).
    assert (0 <= Zfloor y)%Z by (apply Zfloor_lub; simpl; lra). lia.
  - assert (Zfloor (- y) <= Zfloor (- x))%Z by (apply Zfloor_le; lra). lia.
Qed.

Lemma timeClip_within_ms (t : R) : Rabs (IZR (JS.timeClip t) - t) < 1.
Proof.
  unfold JS.timeClip. destruct (Rle_dec 0 t) as [Ht | Ht].
  - pose proof (Zfloor_bound t). apply Rabs_def1; lra.
  - pose proof (Zfloor_bound (- t)). rewrite opp_IZR. apply Rabs_def1; lra.
Qed.

(** The dates of the checkpoints, at their whole-millisecond resolution,
    are still in order and not before a departure given in whole
    milliseconds. *)
Lemma checkpoint_dates_in_order (routeInput : RouteInput.t R) (i j : nat)
    (ci cj : RouteCheckpoint.t) (departure : Z) :
  RouteInput.departureTime routeInput = IZR departure ->
  RouteOrchestrator.generateRouteCheckpoints routeInput !! i = Some ci ->
  RouteOrchestrator.generateRouteCheckpoints routeInput !! j = Some cj ->
  (i <= j)%nat ->
  (departure <= JS.timeClip (RouteCheckpoint.estimatedTime ci) <=
   JS.timeClip (RouteCheckpoint.estimatedTime cj))%Z.
Proof.
  intros Hdep Hi Hj Hij.
  destruct (estimatedTime_in_order routeInput i j ci cj Hi Hj Hij) as [H1 H2].
  rewrite Hdep in H1. split.
  - rewrite <- (timeClip_whole departure). now apply timeClip_monotone.
  - now apply timeClip_monotone.
Qed.

End Dates.


(* ===================================================================== *)
(** * Properties of the scoring engine *)
(* ===================================================================== *)

Section Scoring.
Local Open Scope Q_scope.

(** ** Arithmetic of the built-ins *)

Lemma ltb_spec (x y : Q) : JS.ltb x y = true <-> x < y.
Proof.
  unfold JS.ltb. rewrite negb_true_iff. split.
  - intros H. apply Qnot_le_lt. intros Hle. apply Qle_bool_iff in Hle. congruence.
  - intros H. destruct (Qle_bool y x) eqn:E; [| reflexivity].
    apply Qle_bool_iff in E. exfalso. apply (Qlt_not_le _ _ H E).
Qed.

Lemma min_le_l (x y : Q) : JS.min x y <= x.
Proof. apply Q.le_min_l. Qed.

Lemma min_le_r (x y : Q) : JS.min x y <= y.
Proof. apply Q.le_min_r. Qed.

Lemma min_glb (x y z : Q) : z <= x -> z <= y -> z <= JS.min x y.
Proof. apply Q.min_glb. Qed.

Lemma min_one_range (x : Q) : 0 <= x -> 0 <= JS.min 1 x <= 1.
Proof.
  intros Hx. split; [apply min_glb; [discriminate | assumption] | apply min_le_l].
Qed.

Lemma clamp_range (x : Q) : 0 <= JS.max 0 (JS.min 1 x) <= 1.
Proof.
  split; [apply Q.le_max_l |].
  apply Q.max_lub; [discriminate | apply min_le_l].
Qed.

(** A table whose values all lie in [[lo, hi]]. *)
Definition table_within (lo hi : Q) (table : list (string * Q)) : bool :=
  forallb (fun kv => Qle_bool lo (snd kv) && Qle_bool (snd kv) hi) table.

Lemma own_within lo hi table key v :
  table_within lo hi table = true -> JS.own table key = Some v -> lo <= v <= hi.
Proof.
  induction table as [| [k w] rest IH]; simpl; [discriminate |].
  rewrite andb_true_iff, andb_true_iff. intros [[Hlo Hhi] Hrest].
  destruct (String.eqb k key).
  - intros [= <-]. split; now apply Qle_bool_iff.
  - now apply IH.
Qed.

Lemma or_else_within lo hi table key d :
  table_within lo hi table = true -> lo <= d <= hi ->
  lo <= JS.or_else (JS.own table key) d <= hi.
Proof.
  intros Ht Hd. unfold JS.or_else.
  destruct (JS.own table key) as [v |] eqn:E; [| assumption].
  destruct (Qeq_bool v 0); [assumption |].
  now apply (own_within lo hi table key).
Qed.


(** ** Ranges of the six sub-scores *)

Lemma getWeatherSuitabilityScore_range (w : WeatherData.t) :
  0 <= WeatherService.getWeatherSuitabilityScore w <= 1.
Proof. apply clamp_range. Qed.

Lemma sensitivity_range (category : string) :
  (1 # 10) <= JS.or_else (JS.own AIPOIFilter.categoryWeatherSensitivity category) 0.5
  <= 1.
Proof. apply or_else_within; [reflexivity | split; discriminate]. Qed.

Lemma calculateWeatherSuitability_range (poi : POI.t) (w : WeatherData.t) :
  0 <= AIPOIFilter.calculateWeatherSuitability poi w <= 1.
Proof.
  unfold AIPOIFilter.calculateWeatherSuitability.
  destruct (POI.weather poi); [| split; discriminate].
  pose proof (getWeatherSuitabilityScore_range w) as Hb.
  pose proof (sensitivity_range (POI.category poi)) as Hs.
  cbv zeta.
  set (b := WeatherService.getWeatherSuitabilityScore w) in *.
  set (s := JS.or_else _ _) in *.
  split; nra.
Qed.

Lemma calculateSemanticMatch_range (poi : POI.t) (preference : string) :
  0 <= AIPOIFilter.calculateSemanticMatch poi preference <= 1.
Proof.
  unfold AIPOIFilter.calculateSemanticMatch. cbv zeta.
  destruct (existsb _ _); [split; discriminate |].
  destruct (JS.includes _ _); split; discriminate.
Qed.

(** The loop over the preferences counts them in [maxPossibleScore] and
    never adds more than 1, nor less than 0, per preference. *)
Lemma preference_fold (poi : POI.t) (preferences : list string) :
  forall m n : Q, 0 <= m <= n ->
    let '(m', n') := fold_left (AIPOIFilter.preferenceStep poi) preferences (m, n) in
    0 <= m' <= n' /\ n' == n + inject_Z (Z.of_nat (length preferences)).
Proof.
  induction preferences as [| p rest IH]; intros m n Hmn; simpl fold_left.
  - split; [assumption |]. simpl. ring.
  - pose proof (calculateSemanticMatch_range poi p) as Hs.
    destruct (JS.includes _ _).
    + specialize (IH (m + 1) (n + 1)).
      destruct (fold_left _ rest _) as [m' n'].
      destruct IH as [H1 H2]; [split; lra |]. split; [assumption |].
      rewrite H2. simpl length. rewrite Nat2Z.inj_succ. unfold Z.succ.
      rewrite inject_Z_plus. ring.
    + specialize (IH (m + AIPOIFilter.calculateSemanticMatch poi p) (n + 1)).
      destruct (fold_left _ rest _) as [m' n'].
      destruct IH as [H1 H2]; [split; lra |]. split; [assumption |].
      rewrite H2. simpl length. rewrite Nat2Z.inj_succ. unfold Z.succ.
      rewrite inject_Z_plus. ring.
Qed.

Lemma calculatePreferenceMatch_range (poi : POI.t) (preferences : list string) :
  0 <= AIPOIFilter.calculatePreferenceMatch poi preferences <= 1.
Proof.
  unfold AIPOIFilter.calculatePreferenceMatch.
  destruct preferences as [| p rest]; [split; discriminate |].
  pose proof (preference_fold poi (p :: rest) 0 0) as H.
  destruct (fold_left _ _ _) as [m n].
  destruct H as [[Hm Hmn] Hn]; [split; apply Qle_refl |].
  destruct (JS.gtb n 0) eqn:E; [| split; discriminate].
  apply ltb_spec in E. apply min_one_range.
  apply Qle_shift_div_l; [assumption | lra].
Qed.

Lemma timePreferences_within (t : TimeOfDay) :
  table_within 0 1 (AIPOIFilter.timePreferences t) = true.
Proof. destruct t; reflexivity. Qed.

Lemma calculateTimeRelevance_range (poi : POI.t) (t : TimeOfDay) :
  0 <= AIPOIFilter.calculateTimeRelevance poi t <= 1.
Proof.
  apply or_else_within; [apply timePreferences_within | split; discriminate].
Qed.

Lemma seasonalPreferences_within (s : Season) :
  table_within 0 1 (AIPOIFilter.seasonalPreferences s) = true.
Proof. destruct s; reflexivity. Qed.

Lemma calculateSeasonalRelevance_range (poi : POI.t) (s : Season) :
  0 <= AIPOIFilter.calculateSeasonalRelevance poi s <= 1.
Proof.
  apply or_else_within; [apply seasonalPreferences_within | split; discriminate].
Qed.

Lemma calculateAccessibilityScore_range (poi : POI.t) :
  0 <= AIPOIFilter.calculateAccessibilityScore poi <= 1.
Proof. apply clamp_range. Qed.


(** ** Popularity *)

Lemma price_level_zero (p : Q) :
  Qeq_bool p 0 = true -> Qeq_bool p 2 || Qeq_bool p 3 = false.
Proof. intros H. apply Qeq_bool_eq in H. now rewrite H. Qed.

Lemma calculatePopularityScore_amended (poi : POI.t) :
  AIPOIFilter.calculatePopularityScore poi == popularity_amended poi.
Proof.
  unfold AIPOIFilter.calculatePopularityScore, popularity_amended,
    priceContribution, extrasContribution, hasWebsite, hasPhone,
    hasMultiplePhotos, hasOpeningHours, indicator, JS.truthy, JS.num, JS.min.
  destruct (POI.rating poi) as [r |]; [destruct (Qeq_bool r 0) |];
    (destruct (POI.priceLevel poi) as [p |];
     [destruct (Qeq_bool p 0) eqn:Ep;
      [rewrite (price_level_zero p Ep)
      | destruct (Qeq_bool p 2 || Qeq_bool p 3)] |]);
    cbn [negb];
    destruct (JS.truthy_string (POI.website poi)),
             (JS.truthy_string (POI.phone poi)),
             (1 <? length (POI.photos poi))%nat,
             (0 <? length (POI.openingHours poi))%nat;
    apply Q.min_compat; try reflexivity;
    repeat match goal with
           | |- context [Qmin ?a ?b] =>
               let v := eval vm_compute in (Qmin a b) in change (Qmin a b) with v
           end;
    field.
Qed.

Lemma popularity_amended_nonneg (poi : POI.t) :
  rating_nonneg poi -> 0 <= popularity_amended poi <= 1.
Proof.
  intros Hr. unfold popularity_amended. apply min_one_range.
  assert (H1 : 0 <= match POI.rating poi with
                    | Some r => if Qeq_bool r 0 then 0.3 else 0.6 * (r / 5)
                    | None => 0.3
                    end).
  { unfold rating_nonneg in Hr. destruct (POI.rating poi) as [r |]; [| discriminate].
    destruct (Qeq_bool r 0); [discriminate |].
    assert (0 <= r / 5) by (apply Qle_shift_div_l; [reflexivity | lra]). lra. }
  assert (H2 : 0 <= priceContribution poi).
  { unfold priceContribution. destruct (POI.priceLevel poi) as [p |]; [| discriminate].
    destruct (Qeq_bool p 2 || Qeq_bool p 3); discriminate. }
  assert (H3 : 0 <= extrasContribution poi).
  { unfold extrasContribution, indicator.
    destruct (hasWebsite poi), (hasPhone poi), (hasMultiplePhotos poi),
      (hasOpeningHours poi); discriminate. }
  lra.
Qed.

Lemma calculatePopularityScore_range (poi : POI.t) :
  rating_nonneg poi -> 0 <= AIPOIFilter.calculatePopularityScore poi <= 1.
Proof.
  intros Hr. rewrite calculatePopularityScore_amended.
  now apply popularity_amended_nonneg.
Qed.

(** C7 as stated fails for a POI whose rating is 0: the rating is present,
    yet it contributes 0.3 and not 0.6 * 0 / 5. *)
Lemma popularity_of_zero_rating :
  ~ AIPOIFilter.calculatePopularityScore unratedCafe == popularity_stated unratedCafe.
Proof. vm_compute. discriminate. Qed.

(** C7 (as amended).  popularityScore = min(1, rating part + price part +
    0.2 * min(1, 0.3 hasWebsite + 0.3 hasPhone + 0.2 hasMultiplePhotos +
    0.2 hasOpeningHours)), where the rating part is 0.6 * rating / 5, and 0.3
    when the rating is absent or 0, and the price part is 0.2 * (1.0 for
    price level 2 or 3, else 0.7), and 0.14 when the price level is absent.
    A POI with rating 5, price level 2, a website, a phone, two photos and
    opening hours scores exactly 1. *)
Theorem popularity_formula (poi : POI.t) :
  AIPOIFilter.calculatePopularityScore poi == popularity_amended poi /\
  (POI.rating poi = Some 5 -> POI.priceLevel poi = Some 2 ->
   hasWebsite poi = true -> hasPhone poi = true ->
   length (POI.photos poi) = 2%nat -> hasOpeningHours poi = true ->
   AIPOIFilter.calculatePopularityScore poi == 1).
Proof.
  split; [apply calculatePopularityScore_amended |].
  intros Hr Hp Hw Hph Hphotos Hh.
  rewrite calculatePopularityScore_amended.
  unfold popularity_amended, priceContribution, extrasContribution,
    hasMultiplePhotos.
  rewrite Hr, Hp, Hw, Hph, Hphotos, Hh. reflexivity.
Qed.

(** An instance of C7: the sample museum has rating 5, price level 2, a
    website, a phone, two photos and opening hours. *)
Lemma popularity_formula_witness :
  AIPOIFilter.calculatePopularityScore topRated == popularity_amended topRated /\
  AIPOIFilter.calculatePopularityScore topRated == 1.
Proof.
  destruct (popularity_formula topRated) as [H1 H2].
  split; [exact H1 | apply H2; reflexivity].
Defined.


(** ** Weather sub-score *)

(** What the code computes: the snapshot attached to the POI only decides
    between the default 0.7 and the blend; the blend itself is taken on the
    weather of the criteria. *)
Lemma calculateWeatherSuitability_blend (poi : POI.t) (weather : WeatherData.t) :
  AIPOIFilter.calculateWeatherSuitability poi weather =
  match POI.weather poi with
  | None => 0.7
  | Some _ =>
      let sensitivity :=
        JS.or_else (JS.own AIPOIFilter.categoryWeatherSensitivity (POI.category poi))
                   0.5 in
      sensitivity * WeatherService.getWeatherSuitabilityScore weather +
      (1 - sensitivity) * 0.8
  end.
Proof. reflexivity. Qed.

(** Whichever snapshot is attached to a POI, its weather sub-score is the
    same. *)
Lemma calculateWeatherSuitability_any_snapshot (poi : POI.t)
    (attached attached' weather : WeatherData.t) :
  AIPOIFilter.calculateWeatherSuitability (withWeather poi attached) weather =
  AIPOIFilter.calculateWeatherSuitability (withWeather poi attached') weather.
Proof. reflexivity. Qed.

Lemma criteria_weather_default (routeInput : RouteInput.t Q) (now : LocalTime.t) :
  RouteInput.weather routeInput = None ->
  AIFilteringCriteria.weatherConditions
    (AIPOIFilter.buildFilteringCriteria routeInput now) =
  AIPOIFilter.getDefaultWeather.
Proof. intros H. unfold AIPOIFilter.buildFilteringCriteria. now rewrite H. Qed.

(** C2 at the failing input: a park with a thunderstorm attached, scored
    for a route input that carries no weather.  The code scores the weather
    sub-score on the default clear weather and returns 1; the blend taken
    on the attached snapshot is 0.1. *)
Theorem weather_subscore_ignores_attached_snapshot :
  ScoreBreakdown.weatherSuitability
    (ScoredPOI.scoreBreakdown
       (AIPOIFilter.scorePOI stormyPark
          (AIPOIFilter.buildFilteringCriteria museumTrip morningInJune))) == 1 /\
  weatherSuitability_stated stormyPark == 0.1.
Proof. split; vm_compute; reflexivity. Qed.

(** ** Aggregate score *)

Lemma weights_sum :
  AIPOIFilter.weights.weatherSuitability + AIPOIFilter.weights.preferenceMatch +
  AIPOIFilter.weights.timeRelevance + AIPOIFilter.weights.seasonalRelevance +
  AIPOIFilter.weights.popularityScore + AIPOIFilter.weights.accessibilityScore == 1.
Proof. reflexivity. Qed.

Lemma round_near (y : Q) :
  y - (1 # 2) < inject_Z (JS.round y) /\ inject_Z (JS.round y) <= y + (1 # 2).
Proof.
  unfold JS.round. split.
  - pose proof (Qlt_floor (y + (1 # 2))) as H.
    rewrite inject_Z_plus in H. change (inject_Z 1) with 1 in H.
    set (n := inject_Z (Qfloor _)) in *. lra.
  - apply Qfloor_le.
Qed.

Lemma scorePOI_breakdown (poi : POI.t) (criteria : AIFilteringCriteria.t) :
  ScoredPOI.scoreBreakdown (AIPOIFilter.scorePOI poi criteria) =
  ScoreBreakdown.mk
    (AIPOIFilter.calculateWeatherSuitability poi
       (AIFilteringCriteria.weatherConditions criteria))
    (AIPOIFilter.calculatePreferenceMatch poi
       (AIFilteringCriteria.userPreferences criteria))
    (AIPOIFilter.calculateTimeRelevance poi (AIFilteringCriteria.timeOfDay criteria))
    (AIPOIFilter.calculateSeasonalRelevance poi
       (AIFilteringCriteria.seasonality criteria))
    (AIPOIFilter.calculatePopularityScore poi)
    (AIPOIFilter.calculateAccessibilityScore poi).
Proof. reflexivity. Qed.

Lemma weightedSum_range (poi : POI.t) (criteria : AIFilteringCriteria.t) :
  rating_nonneg poi ->
  0 <= weightedSum (ScoredPOI.scoreBreakdown (AIPOIFilter.scorePOI poi criteria)) <= 1.
Proof.
  intros Hr. rewrite scorePOI_breakdown. unfold weightedSum. simpl.
  pose proof (calculateWeatherSuitability_range poi
                (AIFilteringCriteria.weatherConditions criteria)).
  pose proof (calculatePreferenceMatch_range poi
                (AIFilteringCriteria.userPreferences criteria)).
  pose proof (calculateTimeRelevance_range poi (AIFilteringCriteria.timeOfDay criteria)).
  pose proof (calculateSeasonalRelevance_range poi
                (AIFilteringCriteria.seasonality criteria)).
  pose proof (calculatePopularityScore_range poi Hr).
  pose proof (calculateAccessibilityScore_range poi).
  split; lra.
Qed.

(** X29.  For a POI with a non-negative rating whose category is no name
    that every object inherits, scored under criteria whose weather
    condition is no such name either: the breakdown that [scorePOI]
    records holds the values of the six sub-score functions, and the
    aggregate score is a whole number of hundredths between 0 and 1 that
    is within 0.0051 of the weighted sum of the six sub-scores, the weights
    being 0.25, 0.30, 0.15, 0.10, 0.15 and 0.05, which add up to 1. *)
Theorem aggregate_score_near_weighted_sum (poi : POI.t)
    (criteria : AIFilteringCriteria.t) :
  rating_nonneg poi ->
  JS.inherited (POI.category poi) = false ->
  JS.inherited
    (WeatherData.condition (AIFilteringCriteria.weatherConditions criteria)) =
    false ->
  let scored := AIPOIFilter.scorePOI poi criteria in
  let sum := weightedSum (ScoredPOI.scoreBreakdown scored) in
  (AIPOIFilter.weights.weatherSuitability == 0.25 /\
   AIPOIFilter.weights.preferenceMatch == 0.30 /\
   AIPOIFilter.weights.timeRelevance == 0.15 /\
   AIPOIFilter.weights.seasonalRelevance == 0.10 /\
   AIPOIFilter.weights.popularityScore == 0.15 /\
   AIPOIFilter.weights.accessibilityScore == 0.05) /\
  AIPOIFilter.weights.weatherSuitability + AIPOIFilter.weights.preferenceMatch +
  AIPOIFilter.weights.timeRelevance + AIPOIFilter.weights.seasonalRelevance +
  AIPOIFilter.weights.popularityScore + AIPOIFilter.weights.accessibilityScore == 1 /\
  ScoredPOI.scoreBreakdown scored =
    ScoreBreakdown.mk
      (AIPOIFilter.calculateWeatherSuitability poi
         (AIFilteringCriteria.weatherConditions criteria))
      (AIPOIFilter.calculatePreferenceMatch poi
         (AIFilteringCriteria.userPreferences criteria))
      (AIPOIFilter.calculateTimeRelevance poi
         (AIFilteringCriteria.timeOfDay criteria))
      (AIPOIFilter.calculateSeasonalRelevance poi
         (AIFilteringCriteria.seasonality criteria))
      (AIPOIFilter.calculatePopularityScore poi)
      (AIPOIFilter.calculateAccessibilityScore poi) /\
  (exists hundredths : Z,
     (0 <= hundredths <= 100)%Z /\
     ScoredPOI.aiScore scored == inject_Z hundredths / 100) /\
  sum - 0.0051 <= ScoredPOI.aiScore scored <= sum + 0.0051.
Proof.
  intros Hr _ _ scored sum.
  assert (Hs : ScoredPOI.aiScore scored = inject_Z (JS.round (sum * 100)) / 100)
    by reflexivity.
  split; [repeat split; reflexivity |]. split; [apply weights_sum |].
  split; [apply scorePOI_breakdown |].
  pose proof (weightedSum_range poi criteria Hr) as Hsum. fold scored sum in Hsum.
  destruct (round_near (sum * 100)) as [Hlo Hhi].
  split.
  - exists (JS.round (sum * 100)). split; [| rewrite Hs; reflexivity].
    unfold JS.round. split.
    + apply (Z.le_trans _ (Qfloor (1 # 2))); [discriminate |].
      apply Qfloor_resp_le. lra.
    + apply (Z.le_trans _ (Qfloor (100 + (1 # 2)))); [| discriminate].
      apply Qfloor_resp_le. lra.
  - rewrite Hs. set (n := inject_Z _) in *. split.
    + apply Qle_shift_div_l; [reflexivity | lra].
    + apply Qle_shift_div_r; [reflexivity | lra].
Qed.

(** An instance of X29: the sample museum on a June morning. *)
Lemma aggregate_score_near_weighted_sum_witness :
  rating_nonneg topRated /\
  exists hundredths : Z,
    (0 <= hundredths <= 100)%Z /\
    ScoredPOI.aiScore
      (AIPOIFilter.scorePOI topRated
         (AIPOIFilter.buildFilteringCriteria museumTrip morningInJune)) ==
    inject_Z hundredths / 100.
Proof.
  assert (Hr : rating_nonneg topRated) by (simpl; discriminate).
  split; [exact Hr |].
  apply (aggregate_score_near_weighted_sum topRated
           (AIPOIFilter.buildFilteringCriteria museumTrip morningInJune) Hr);
    reflexivity.
Defined.

End Scoring.

(* ===================================================================== *)
(** * Properties of the diversity selector *)
(* ===================================================================== *)

Section DiversitySelector.

Lemma categoryCountIn_snoc (c : string) (l : list ScoredPOI.t) (p : ScoredPOI.t) :
  categoryCountIn c (l ++ [p]) =
  (categoryCountIn c l + if decide (ScoredPOI.category p = c) then 1 else 0)%nat.
Proof.
  unfold categoryCountIn. rewrite filter_app, length_app. f_equal.
  rewrite filter_cons, filter_nil. now destruct (decide _).
Qed.

Lemma counts_agree_empty : counts_agree [] ∅.
Proof. intros c. now rewrite lookup_empty. Qed.

Lemma counts_agree_push diversePOIs categoryCount (p : ScoredPOI.t) :
  counts_agree diversePOIs categoryCount ->
  counts_agree (diversePOIs ++ [p])
    (<[ScoredPOI.category p :=
         (default 0%nat (categoryCount !! ScoredPOI.category p) + 1)%nat]>
       categoryCount).
Proof.
  intros H c. rewrite categoryCountIn_snoc.
  destruct (decide (ScoredPOI.category p = c)) as [-> | Hne].
  - rewrite lookup_insert_eq. simpl. now rewrite H.
  - rewrite lookup_insert_ne by assumption. rewrite H. lia.
Qed.

Lemma counts_own_empty : counts_own_only ∅.
Proof. intros c _. apply lookup_empty. Qed.

Lemma counts_own_push (categoryCount : gmap string nat) (c : string) (n : nat) :
  JS.inherited c = false ->
  counts_own_only categoryCount ->
  counts_own_only (<[c := n]> categoryCount).
Proof.
  intros Hc H c' Hc'. rewrite lookup_insert_ne by congruence. now apply H.
Qed.

(** The state of the loop after one iteration, for a POI whose category is
    no inherited name: [categoryCount[poi.category] || 0] is a count. *)
Lemma diversityLoop_step poi rest diversePOIs categoryCount :
  JS.inherited (ScoredPOI.category poi) = false ->
  let currentCount := default 0%nat (categoryCount !! ScoredPOI.category poi) in
  AIPOIFilter.diversityLoop (poi :: rest) diversePOIs categoryCount =
  if (currentCount <? 3)%nat
  then
    if (15 <=? length (diversePOIs ++ [poi]))%nat
    then diversePOIs ++ [poi]
    else AIPOIFilter.diversityLoop rest (diversePOIs ++ [poi])
           (<[ScoredPOI.category poi := (currentCount + 1)%nat]> categoryCount)
  else
    if (15 <=? length diversePOIs)%nat
    then diversePOIs
    else AIPOIFilter.diversityLoop rest diversePOIs categoryCount.
Proof.
  intros Hc. cbv zeta. cbn [AIPOIFilter.diversityLoop]. rewrite Hc.
  destruct (categoryCount !! ScoredPOI.category poi) as [n |].
  - change (default 0%nat (Some n)) with n. now destruct (n <? 3)%nat.
  - reflexivity.
Qed.

(** The same for a POI whose category is an inherited name that the
    counter does not hold: the POI is passed over. *)
Lemma diversityLoop_step_inherited poi rest diversePOIs categoryCount :
  JS.inherited (ScoredPOI.category poi) = true ->
  categoryCount !! ScoredPOI.category poi = None ->
  AIPOIFilter.diversityLoop (poi :: rest) diversePOIs categoryCount =
  if (15 <=? length diversePOIs)%nat
  then diversePOIs
  else AIPOIFilter.diversityLoop rest diversePOIs categoryCount.
Proof. intros Hc Hn. simpl. now rewrite Hn, Hc. Qed.

Lemma diversityLoop_invariant (rest : list ScoredPOI.t) :
  forall diversePOIs categoryCount,
    counts_agree diversePOIs categoryCount ->
    counts_own_only categoryCount ->
    (forall c, categoryCountIn c diversePOIs <= 3)%nat ->
    (length diversePOIs < 15)%nat ->
    exists kept,
      AIPOIFilter.diversityLoop rest diversePOIs categoryCount = diversePOIs ++ kept /\
      kept `sublist_of` rest /\
      (forall c, categoryCountIn c (diversePOIs ++ kept) <= 3)%nat /\
      (length (diversePOIs ++ kept) <= 15)%nat /\
      Forall ordinaryCategory kept.
Proof.
  induction rest as [| poi rest IH]; intros diverse cc Hagree Hown Hcap Hlen.
  - exists []. simpl. rewrite app_nil_r.
    repeat split; [constructor | assumption | lia | constructor].
  - destruct (JS.inherited (ScoredPOI.category poi)) eqn:Hname.
    + rewrite (diversityLoop_step_inherited _ _ _ _ Hname (Hown _ Hname)).
      destruct (15 <=? _)%nat eqn:Hfull; [apply Nat.leb_le in Hfull; lia |].
      destruct (IH diverse cc Hagree Hown Hcap Hlen)
        as (kept & Heq & Hsub & Hc & Hl & Hord).
      exists kept. repeat split; try assumption. now apply sublist_cons.
    + rewrite (diversityLoop_step _ _ _ _ Hname). cbv zeta.
      destruct (_ <? 3)%nat eqn:Hroom.
      * apply Nat.ltb_lt in Hroom.
        assert (Hcap' : forall c, (categoryCountIn c (diverse ++ [poi]) <= 3)%nat).
        { intros c. rewrite categoryCountIn_snoc. specialize (Hcap c).
          destruct (decide _) as [<- |]; [| lia]. rewrite <- Hagree. lia. }
        destruct (15 <=? _)%nat eqn:Hfull.
        -- exists [poi]. repeat split; [| assumption | |].
           ++ apply sublist_skip, sublist_nil_l.
           ++ rewrite length_app. simpl. lia.
           ++ constructor; [exact Hname | constructor].
        -- apply Nat.leb_gt in Hfull.
           destruct (IH (diverse ++ [poi]) _ (counts_agree_push _ _ poi Hagree)
                       (counts_own_push _ _ _ Hname Hown) Hcap' Hfull)
             as (kept & Heq & Hsub & Hc & Hl & Hord).
           exists (poi :: kept). rewrite Heq, <- app_assoc. simpl.
           rewrite <- app_assoc in Hc, Hl. simpl in Hc, Hl.
           repeat split; try assumption; [now apply sublist_skip |].
           constructor; [exact Hname | assumption].
      * destruct (15 <=? _)%nat eqn:Hfull; [apply Nat.leb_le in Hfull; lia |].
        destruct (IH diverse cc Hagree Hown Hcap Hlen)
          as (kept & Heq & Hsub & Hc & Hl & Hord).
        exists kept. repeat split; try assumption. now apply sublist_cons.
Qed.

(** When every candidate is of one category, no inherited name, the loop
    admits candidates until the category is full. *)
Lemma diversityLoop_one_category (c : string) (rest : list ScoredPOI.t) :
  JS.inherited c = false ->
  forall diversePOIs categoryCount,
    counts_agree diversePOIs categoryCount ->
    Forall (fun p => ScoredPOI.category p = c) rest ->
    (length diversePOIs + (3 - categoryCountIn c diversePOIs) < 15)%nat ->
    AIPOIFilter.diversityLoop rest diversePOIs categoryCount =
    diversePOIs ++ take (3 - categoryCountIn c diversePOIs) rest.
Proof.
  intros Hname.
  induction rest as [| poi rest IH]; intros diverse cc Hagree Hall Hlen.
  - simpl. now rewrite take_nil, app_nil_r.
  - apply Forall_cons in Hall as [Hc Hall].
    rewrite diversityLoop_step by (now rewrite Hc).
    cbv zeta. rewrite Hc, Hagree.
    destruct (_ <? 3)%nat eqn:Hroom.
    + apply Nat.ltb_lt in Hroom.
      assert (Hfull : (15 <=? length (diverse ++ [poi]))%nat = false).
      { apply Nat.leb_gt. rewrite length_app. simpl. lia. }
      rewrite Hfull.
      pose proof (counts_agree_push _ _ poi Hagree) as Hagree'.
      rewrite Hc, Hagree in Hagree'.
      assert (Hcount : categoryCountIn c (diverse ++ [poi]) =
                       S (categoryCountIn c diverse)).
      { rewrite categoryCountIn_snoc. destruct (decide _); [lia | contradiction]. }
      rewrite ?(Hagree c).
      rewrite (IH _ _ Hagree' Hall); rewrite Hcount.
      * rewrite <- app_assoc. simpl.
        replace (3 - categoryCountIn c diverse)%nat
          with (S (3 - S (categoryCountIn c diverse))) by lia.
        reflexivity.
      * rewrite length_app. simpl. lia.
    + apply Nat.ltb_ge in Hroom.
      assert (Hfull : (15 <=? length diverse)%nat = false)
        by (apply Nat.leb_gt; lia).
      rewrite Hfull, (IH _ _ Hagree Hall Hlen).
      replace (3 - categoryCountIn c diverse)%nat with 0%nat by lia.
      reflexivity.
Qed.

Lemma StronglySorted_sublist {A} (R : A -> A -> Prop) (l1 l2 : list A) :
  l1 `sublist_of` l2 -> StronglySorted R l2 -> StronglySorted R l1.
Proof.
  induction 1 as [| x l1 l2 Hsub IH | x l1 l2 Hsub IH]; intros Hs.
  - constructor.
  - apply StronglySorted_inv in Hs as [Hs Hx]. constructor; [now apply IH |].
    apply Forall_forall. intros y Hy. rewrite Forall_forall in Hx.
    apply Hx. eapply elem_of_sublist; eassumption.
  - apply StronglySorted_inv in Hs as [Hs _]. now apply IH.
Qed.

Lemma applyDiversityFiltering_selected (scoredPOIs : list ScoredPOI.t) :
  exists kept,
    AIPOIFilter.applyDiversityFiltering scoredPOIs = kept /\
    kept `sublist_of` scoredPOIs /\
    (forall c, categoryCountIn c kept <= 3)%nat /\
    (length kept <= 15)%nat /\
    Forall ordinaryCategory kept.
Proof.
  unfold AIPOIFilter.applyDiversityFiltering.
  destruct (diversityLoop_invariant scoredPOIs [] ∅ counts_agree_empty
              counts_own_empty)
    as (kept & Heq & Hsub & Hcap & Hlen & Hord);
    [intros c; cbn; lia | cbn; lia |].
  exists kept. now rewrite Heq.
Qed.

(** C4.  Where the code departs from the claim: of twenty scored POIs that
    are all of the category "toString", sorted by descending score, the
    diversity selector selects none, where the claim has it select exactly
    the first 3.  ([categoryCount[poi.category] || 0] is then the function
    that [{}] inherits under that name, and [currentCount < 3] is false of
    it.) *)
Theorem selector_passes_over_inherited_category :
  length twentyOfInheritedName = 20%nat /\
  scoreDescending twentyOfInheritedName /\
  Forall (fun p => ScoredPOI.category p = "toString"%string)
    twentyOfInheritedName /\
  AIPOIFilter.applyDiversityFiltering twentyOfInheritedName = [] /\
  AIPOIFilter.applyDiversityFiltering twentyOfInheritedName <>
  take 3 twentyOfInheritedName.
Proof.
  split; [reflexivity |]. split.
  { unfold scoreDescending, twentyOfInheritedName. simpl.
    repeat (constructor; [| repeat (constructor; [discriminate |]); constructor]).
    constructor. }
  split.
  { unfold twentyOfInheritedName. simpl.
    repeat (constructor; [reflexivity |]). constructor. }
  assert (E : AIPOIFilter.applyDiversityFiltering twentyOfInheritedName = [])
    by (vm_compute; reflexivity).
  split; [exact E |]. rewrite E. discriminate.
Qed.

(** X28.  The output of the diversity selector is a subsequence of its
    input (hence still sorted by descending score when the input is), holds
    at most 3 POIs of any category and at most 15 entries, and no POI whose
    category is a name that every object inherits; when all candidates are
    of one category that is no such name, as for 20 museums, the output is
    exactly the first 3. *)
Theorem selection_is_a_capped_subsequence (scoredPOIs : list ScoredPOI.t) :
  let selected := AIPOIFilter.applyDiversityFiltering scoredPOIs in
  selected `sublist_of` scoredPOIs /\
  (scoreDescending scoredPOIs -> scoreDescending selected) /\
  (forall c, categoryCountIn c selected <= 3)%nat /\
  (length selected <= 15)%nat /\
  Forall ordinaryCategory selected /\
  (forall c, JS.inherited c = false ->
             Forall (fun p => ScoredPOI.category p = c) scoredPOIs ->
             selected = take 3 scoredPOIs).
Proof.
  intros selected. unfold selected.
  destruct (applyDiversityFiltering_selected scoredPOIs)
    as (kept & Heq & Hsub & Hcap & Hlen & Hord).
  rewrite Heq.
  split; [assumption |]. split; [now apply StronglySorted_sublist |].
  split; [assumption |]. split; [assumption |]. split; [assumption |].
  intros c Hname Hall. rewrite <- Heq. unfold AIPOIFilter.applyDiversityFiltering.
  rewrite (diversityLoop_one_category c scoredPOIs Hname [] ∅
             counts_agree_empty Hall);
    [reflexivity | cbn; lia].
Qed.

(** Twenty museums, sorted by descending score: the first three are
    selected. *)
Example twenty_museums_selected :
  scoreDescending twentyMuseums /\
  AIPOIFilter.applyDiversityFiltering twentyMuseums = take 3 twentyMuseums.
Proof.
  split.
  - unfold scoreDescending, twentyMuseums. simpl.
    repeat (constructor; [| repeat (constructor; [discriminate |]); constructor]).
    constructor.
  - vm_compute. reflexivity.
Qed.

End DiversitySelector.

Section Ranking.

Lemma insertByScore_elem (x y : ScoredPOI.t) (sorted : list ScoredPOI.t) :
  y ∈ AIPOIFilter.insertByScore x sorted -> y = x \/ y ∈ sorted.
Proof.
  induction sorted as [| z rest IH]; simpl.
  - intros H. apply list_elem_of_singleton in H. now left.
  - destruct (JS.leb _ _).
    + intros H. apply elem_of_cons in H as [-> | H]; [now left | now right].
    + intros H. apply elem_of_cons in H as [-> | H]; [right; left |].
      destruct (IH H) as [-> | H']; [now left | right; now right].
Qed.

Lemma insertByScore_sorted (x : ScoredPOI.t) (sorted : list ScoredPOI.t) :
  scoreDescending sorted -> scoreDescending (AIPOIFilter.insertByScore x sorted).
Proof.
  unfold scoreDescending.
  induction sorted as [| z rest IH]; intros Hs; simpl.
  - repeat constructor.
  - apply StronglySorted_inv in Hs as [Hrest Hz].
    destruct (JS.leb _ _) eqn:E.
    + apply Qle_bool_iff in E. constructor; [now constructor |].
      constructor; [assumption |].
      eapply Forall_impl; [exact Hz |]. intros y Hy. simpl in Hy |- *.
      now apply (Qle_trans _ (ScoredPOI.aiScore z)).
    + constructor; [now apply IH |].
      apply Forall_forall. intros y Hy.
      apply insertByScore_elem in Hy as [-> | Hy].
      * unfold JS.leb in E. destruct (Qlt_le_dec (ScoredPOI.aiScore x) (ScoredPOI.aiScore z))
          as [Hlt | Hle]; [now apply Qlt_le_weak |].
        apply Qle_bool_iff in Hle. congruence.
      * rewrite Forall_forall in Hz. now apply Hz.
Qed.

Lemma sortByScore_sorted (l : list ScoredPOI.t) :
  scoreDescending (AIPOIFilter.sortByScore l).
Proof.
  induction l as [| x l IH]; simpl; [constructor | now apply insertByScore_sorted].
Qed.

(** The ranked list that the pipeline returns is sorted by descending
    score, holds at most 3 POIs per category and at most 15 entries. *)
Lemma filterAndRankPOIs_ranked (pois : list POI.t) (routeInput : RouteInput.t Q)
    (currentTime : LocalTime.t) :
  let ranked := AIPOIFilter.filterAndRankPOIs pois routeInput currentTime in
  scoreDescending ranked /\
  (forall c, categoryCountIn c ranked <= 3)%nat /\
  (length ranked <= 15)%nat.
Proof.
  intros ranked. unfold ranked, AIPOIFilter.filterAndRankPOIs.
  set (sorted := AIPOIFilter.sortByScore _).
  destruct (applyDiversityFiltering_selected sorted)
    as (kept & Heq & Hsub & Hcap & Hlen & _).
  rewrite Heq. split; [| split; assumption].
  eapply StronglySorted_sublist; [exact Hsub | apply sortByScore_sorted].
Qed.

End Ranking.

(* ===================================================================== *)
(** * Properties of the POI aggregator *)
(* ===================================================================== *)

Section Deduplication.

Lemma filter_seen_drop (seen : gset string) (k : string) (l : list POI.t) :
  k ∈ seen ->
  filter (fun y => POIService.dedupKey y ∉ seen)
         (filter (fun y => POIService.dedupKey y <> k) l) =
  filter (fun y => POIService.dedupKey y ∉ seen) l.
Proof.
  intros Hk. rewrite list_filter_filter. apply list_filter_iff.
  intros y. split; [now intros [H _] |]. intros H. split; [assumption |].
  intros E. rewrite E in H. contradiction.
Qed.

Lemma filter_seen_add (seen : gset string) (k : string) (l : list POI.t) :
  filter (fun y => POIService.dedupKey y ∉ seen)
         (filter (fun y => POIService.dedupKey y <> k) l) =
  filter (fun y => POIService.dedupKey y ∉ {[k]} ∪ seen) l.
Proof.
  rewrite list_filter_filter. apply list_filter_iff.
  intros y. rewrite not_elem_of_union, not_elem_of_singleton. tauto.
Qed.

(** The filter with its set of seen keys keeps the first records of the
    keys that were not seen before. *)
Lemma dedupFilter_keepFirst (pois : list POI.t) :
  forall seen : gset string,
    POIService.dedupFilter seen pois =
    filter (fun y => POIService.dedupKey y ∉ seen)
           (keepFirstBy POIService.dedupKey pois).
Proof.
  induction pois as [| poi rest IH]; intros seen; [reflexivity |].
  simpl. destruct (decide (POIService.dedupKey poi ∈ seen)) as [Hin | Hout].
  - rewrite filter_cons_False by (intros H; contradiction).
    rewrite filter_seen_drop by assumption. apply IH.
  - rewrite filter_cons_True by assumption.
    rewrite filter_seen_add. f_equal. apply IH.
Qed.

Lemma removeDuplicatePOIs_keepFirst (pois : list POI.t) :
  POIService.removeDuplicatePOIs pois = keepFirstBy POIService.dedupKey pois.
Proof.
  unfold POIService.removeDuplicatePOIs. rewrite dedupFilter_keepFirst.
  induction (keepFirstBy POIService.dedupKey pois) as [| y l IH]; [reflexivity |].
  rewrite filter_cons_True by apply not_elem_of_empty. now rewrite IH.
Qed.

Lemma keepFirstBy_sublist {A K} `{EqDecision K} (key : A -> K) (l : list A) :
  keepFirstBy key l `sublist_of` l.
Proof.
  induction l as [| x rest IH]; simpl; [constructor |].
  apply sublist_skip. etransitivity; [apply sublist_filter | exact IH].
Qed.

Lemma keepFirstBy_NoDup {A K} `{EqDecision K} (key : A -> K) (l : list A) :
  NoDup (key <$> keepFirstBy key l).
Proof.
  induction l as [| x rest IH]; simpl; [constructor |].
  apply NoDup_cons. split.
  - intros Hin. apply list_elem_of_fmap in Hin as (y & Hy & Hin).
    apply list_elem_of_filter in Hin as [Hne _]. congruence.
  - apply (sublist_NoDup _ (key <$> keepFirstBy key rest)); [exact IH |].
    apply fmap_sublist, sublist_filter.
Qed.

Lemma keepFirstBy_covers {A K} `{EqDecision K} (key : A -> K) (l : list A) (x : A) :
  x ∈ l -> exists y, y ∈ keepFirstBy key l /\ key y = key x.
Proof.
  induction l as [| z rest IH]; intros Hx; [now apply elem_of_nil in Hx |].
  apply elem_of_cons in Hx as [-> | Hx]; simpl.
  - exists z. split; [left | reflexivity].
  - destruct (IH Hx) as (y & Hy & Hk).
    destruct (decide (key y = key z)) as [Heq | Hne].
    + exists z. split; [left | congruence].
    + exists y. split; [| assumption]. right.
      apply list_elem_of_filter. now split.
Qed.


(** ** The key string and the composite key *)

Lemma hasNoUnderscore_app (a b : string) :
  hasNoUnderscore a -> hasNoUnderscore b -> hasNoUnderscore (a ++ b)%string.
Proof.
  induction a as [| c a IH]; simpl; [tauto |].
  intros [Hc Ha] Hb. split; [assumption | now apply IH].
Qed.

Lemma hasNoUnderscore_substring (s : string) :
  forall n m, hasNoUnderscore s -> hasNoUnderscore (String.substring n m s).
Proof.
  induction s as [| c s IH]; intros n m Hs.
  - destruct n, m; exact I.
  - destruct Hs as [Hc Hs]. destruct n as [| n]; simpl.
    + destruct m as [| m]; [exact I |]. split; [assumption | now apply IH].
    + now apply IH.
Qed.

Lemma hasNoUnderscore_zeros (k : nat) : hasNoUnderscore (JS.zeros k).
Proof. induction k; simpl; [exact I |]. split; [discriminate | assumption]. Qed.

Lemma hasNoUnderscore_uint (d : Decimal.uint) :
  hasNoUnderscore (NilEmpty.string_of_uint d).
Proof.
  induction d; simpl; try exact I; (split; [discriminate | assumption]).
Qed.

Lemma hasNoUnderscore_digits (n : Z) : hasNoUnderscore (JS.digits n).
Proof.
  unfold JS.digits, NilZero.string_of_uint.
  destruct (N.to_uint (Z.to_N n)) eqn:E; try apply hasNoUnderscore_uint.
  simpl. split; [discriminate | exact I].
Qed.

Lemma hasNoUnderscore_toFixed (f : nat) (x : Q) : hasNoUnderscore (JS.toFixed f x).
Proof.
  unfold JS.toFixed, JS.pad_left.
  assert (Hm : hasNoUnderscore
                 (JS.zeros (f + 1 -
                    String.length
                      (JS.digits (Qfloor (Qabs x * inject_Z (10 ^ Z.of_nat f) + (1 # 2))))) ++
                  JS.digits (Qfloor (Qabs x * inject_Z (10 ^ Z.of_nat f) + (1 # 2))))%string).
  { apply hasNoUnderscore_app;
      [apply hasNoUnderscore_zeros | apply hasNoUnderscore_digits]. }
  apply hasNoUnderscore_app.
  - destruct (JS.ltb x 0); simpl; [split; [discriminate | exact I] | exact I].
  - destruct (f =? 0)%nat; [assumption |].
    apply hasNoUnderscore_app; [now apply hasNoUnderscore_substring |].
    simpl. split; [discriminate |]. now apply hasNoUnderscore_substring.
Qed.

Lemma underscore_inside (a b : string) : ~ hasNoUnderscore (a ++ "_" ++ b)%string.
Proof.
  induction a as [| c a IH]; simpl.
  - intros [H _]. now apply H.
  - intros [_ H]. now apply IH.
Qed.

(** Two strings joined by an underscore are recovered from the join when
    the second has no underscore. *)
Lemma join_inj (a a' b b' : string) :
  hasNoUnderscore b -> hasNoUnderscore b' ->
  (a ++ "_" ++ b = a' ++ "_" ++ b')%string -> a = a' /\ b = b'.
Proof.
  revert a'. induction a as [| c a IH]; intros [| c' a'] Hb Hb' H; simpl in H.
  - injection H as H. change (b = b') in H. now split.
  - injection H as _ H. change (b = (a' ++ "_" ++ b')%string) in H.
    rewrite H in Hb. now apply underscore_inside in Hb.
  - injection H as _ H. change ((a ++ "_" ++ b)%string = b') in H.
    rewrite <- H in Hb'. now apply underscore_inside in Hb'.
  - injection H as -> H. destruct (IH a' Hb Hb' H) as [-> ->]. now split.
Qed.

Lemma append_assoc (a b c : string) : ((a ++ b) ++ c = a ++ (b ++ c))%string.
Proof.
  induction a as [| x a IH]; [reflexivity |].
  change (String x ((a ++ b) ++ c) = String x (a ++ b ++ c))%string.
  now rewrite IH.
Qed.

Lemma key_regroup (n la lo : string) :
  (n ++ "_" ++ la ++ "_" ++ lo = (n ++ "_" ++ la) ++ "_" ++ lo)%string.
Proof. symmetry. apply (append_assoc n ("_" ++ la) ("_" ++ lo)). Qed.

(** The key string stands for the composite key. *)
Lemma dedupKey_compositeKey (p q : POI.t) :
  POIService.dedupKey p = POIService.dedupKey q <-> compositeKey p = compositeKey q.
Proof.
  unfold POIService.dedupKey, compositeKey. split.
  - intros H. rewrite !key_regroup in H.
    apply join_inj in H as [H ->]; try apply hasNoUnderscore_toFixed.
    apply join_inj in H as [-> ->]; try apply hasNoUnderscore_toFixed.
    reflexivity.
  - intros [= -> -> ->]. reflexivity.
Qed.

(** C1 as stated fails for two records whose names differ in case and in a
    trailing blank, at coordinates of the same 4-decimal bucket: the name
    enters the key as it is, and both records are kept. *)
Lemma dedup_keeps_names_differing_in_case : ~ dedup_pair_as_stated cafeLuna cafeLunaAgain.
Proof.
  intros H. specialize (H eq_refl eq_refl eq_refl). vm_compute in H. discriminate.
Qed.

(** The rendering of a coordinate keeps the sign of a negative number that
    rounds to zero: two records of one name, a metre north and a metre south
    of the equator, are in the same 4-decimal bucket and are both kept. *)
Lemma dedup_keeps_signed_zero :
  POIService.removeDuplicatePOIs
    [samplePOI "Equator Marker" "Historic Sites" 0.00001%Q 20%Q None None;
     samplePOI "Equator Marker" "Historic Sites" (-0.00001)%Q 20%Q None None] =
    [samplePOI "Equator Marker" "Historic Sites" 0.00001%Q 20%Q None None;
     samplePOI "Equator Marker" "Historic Sites" (-0.00001)%Q 20%Q None None] /\
  round4 0.00001%Q = round4 (-0.00001)%Q.
Proof. split; vm_compute; reflexivity. Qed.

(** C1 (as amended).  Deduplication identifies duplicates by the composite
    key (name as given, latitude rendered with 4 decimals, longitude rendered
    with 4 decimals): the first record of each key is kept and the later
    ones are dropped.  In particular, of two records with the same name whose
    coordinates have the same 4-decimal renderings, exactly the first is
    kept. *)
Theorem dedup_first_of_each_key (pois : list POI.t) :
  let kept := POIService.removeDuplicatePOIs pois in
  kept = keepFirstBy compositeKey pois /\
  kept `sublist_of` pois /\
  NoDup (compositeKey <$> kept) /\
  (forall p, p ∈ pois -> exists q, q ∈ kept /\ compositeKey q = compositeKey p) /\
  (forall p q, compositeKey p = compositeKey q ->
               POIService.removeDuplicatePOIs [p; q] = [p]).
Proof.
  intros kept.
  assert (Hk : forall l, keepFirstBy POIService.dedupKey l = keepFirstBy compositeKey l).
  { induction l as [| x l IH]; simpl; [reflexivity |]. rewrite IH. f_equal.
    apply list_filter_iff. intros y. now rewrite dedupKey_compositeKey. }
  assert (Heq : kept = keepFirstBy compositeKey pois).
  { unfold kept. now rewrite removeDuplicatePOIs_keepFirst, Hk. }
  split; [exact Heq |]. rewrite Heq.
  split; [apply keepFirstBy_sublist |].
  split; [apply keepFirstBy_NoDup |].
  split; [intros p; apply keepFirstBy_covers |].
  intros p q Hpq. rewrite removeDuplicatePOIs_keepFirst, Hk. simpl.
  rewrite filter_cons_False by (intros H; now apply H). reflexivity.
Qed.

(** An instance of C1: the same cafe reported twice, a few centimetres
    apart. *)
Lemma dedup_first_of_each_key_witness :
  compositeKey cafeLuna =
  compositeKey (samplePOI "Cafe Luna" "Restaurants" 48.85662%Q 2.35221%Q None None) /\
  POIService.removeDuplicatePOIs
    [cafeLuna; samplePOI "Cafe Luna" "Restaurants" 48.85662%Q 2.35221%Q None None] =
  [cafeLuna].
Proof.
  assert (H : compositeKey cafeLuna =
              compositeKey (samplePOI "Cafe Luna" "Restaurants" 48.85662%Q 2.35221%Q
                              None None)) by reflexivity.
  split; [exact H |].
  exact (proj2 (proj2 (proj2 (proj2 (dedup_first_of_each_key [])))) _ _ H).
Defined.

End Deduplication.

Lemma halves_in_range : random_in_range halves.
Proof. intros n. split; [discriminate | reflexivity]. Qed.

(* ===================================================================== *)
(** * Further properties: display of distances *)
(* ===================================================================== *)

Section DistanceDisplay.
Local Open Scope Q_scope.

Lemma Qfloor_unique (x : Q) (z : Z) :
  inject_Z z <= x -> x < inject_Z z + 1 -> Qfloor x = z.
Proof.
  intros Hlo Hhi.
  pose proof (Qfloor_le x) as H1. pose proof (Qlt_floor x) as H2.
  rewrite inject_Z_plus in H2. change (inject_Z 1) with 1 in H2.
  assert (Ha : (inject_Z (Qfloor x) < inject_Z (z + 1))%Q)
    by (rewrite inject_Z_plus; change (inject_Z 1) with 1;
        set (a := inject_Z (Qfloor x)) in *; set (b := inject_Z z) in *; lra).
  assert (Hb : (inject_Z z < inject_Z (Qfloor x + 1))%Q)
    by (rewrite inject_Z_plus; change (inject_Z 1) with 1;
        set (a := inject_Z (Qfloor x)) in *; set (b := inject_Z z) in *; lra).
  rewrite <- Zlt_Qlt in Ha, Hb. lia.
Qed.

Lemma round_unique (x : Q) (z : Z) :
  inject_Z z - (1 # 2) <= x -> x < inject_Z z + (1 # 2) -> JS.round x = z.
Proof.
  intros Hlo Hhi. unfold JS.round. apply Qfloor_unique;
    set (b := inject_Z z) in *; lra.
Qed.

Lemma ltb_false (x y : Q) : JS.ltb x y = false <-> y <= x.
Proof.
  unfold JS.ltb. rewrite negb_false_iff. apply Qle_bool_iff.
Qed.

(** X2.  Distances are displayed in metres below 1 km, with one decimal
    below 10 km and in whole kilometres from there on, each after rounding:
    from 999.5 m up to 1 km the display is "1000m", and from 9.95 km up to
    10 km it is "10.0km". *)
Theorem formatDistance_just_below_the_thresholds (distanceKm : Q) :
  (0.9995 <= distanceKm -> distanceKm < 1 ->
   DistanceFormat.formatDistance distanceKm = "1000m"%string) /\
  (9.95 <= distanceKm -> distanceKm < 10 ->
   DistanceFormat.formatDistance distanceKm = "10.0km"%string).
Proof.
  unfold DistanceFormat.formatDistance. split; intros Hlo Hhi.
  - assert (E : JS.ltb distanceKm 1 = true) by now apply ltb_spec.
    rewrite E, (round_unique _ 1000); [reflexivity | |]; unfold inject_Z; lra.
  - assert (E1 : JS.ltb distanceKm 1 = false) by (apply ltb_false; lra).
    assert (E2 : JS.ltb distanceKm 10 = true) by now apply ltb_spec.
    rewrite E1, E2. unfold JS.toFixed.
    assert (E3 : JS.ltb distanceKm 0 = false) by (apply ltb_false; lra).
    rewrite E3.
    assert (E4 : Qfloor (Qabs distanceKm * inject_Z (10 ^ Z.of_nat 1) + (1 # 2)) = 100%Z).
    { apply Qfloor_unique; rewrite Qabs_pos by lra;
        change (inject_Z (10 ^ Z.of_nat 1)) with 10; unfold inject_Z; lra. }
    rewrite E4. reflexivity.
Qed.

(** An instance of X2: 999.6 m and 9.96 km. *)
Lemma formatDistance_just_below_the_thresholds_witness :
  DistanceFormat.formatDistance 0.9996 = "1000m"%string /\
  DistanceFormat.formatDistance 9.96 = "10.0km"%string.
Proof.
  split.
  - apply (proj1 (formatDistance_just_below_the_thresholds 0.9996)); reflexivity || discriminate.
  - apply (proj2 (formatDistance_just_below_the_thresholds 9.96)); reflexivity || discriminate.
Defined.

End DistanceDisplay.

(* ===================================================================== *)
(** * Further properties: weather *)
(* ===================================================================== *)

Section WeatherScore.
Local Open Scope Q_scope.

Lemma leb_spec (x y : Q) : JS.leb x y = true <-> x <= y.
Proof. apply Qle_bool_iff. Qed.

Lemma gtb_spec (x y : Q) : JS.gtb x y = true <-> y < x.
Proof. apply ltb_spec. Qed.

Lemma gtb_false (x y : Q) : JS.gtb x y = false <-> x <= y.
Proof. apply ltb_false. Qed.

Lemma temperatureFactor_range (t : Q) : (3 # 10) <= temperatureFactor t <= 1.
Proof.
  unfold temperatureFactor.
  repeat (destruct (_ || _); [split; discriminate |]). split; discriminate.
Qed.

Lemma temperatureFactor_mild (t : Q) :
  10 <= t -> t <= 30 -> (8 # 10) <= temperatureFactor t.
Proof.
  intros Hlo Hhi. unfold temperatureFactor.
  assert (E1 : JS.ltb t 5 || JS.gtb t 35 = false)
    by (apply orb_false_iff; split; [apply ltb_false | apply gtb_false]; lra).
  assert (E2 : JS.ltb t 10 || JS.gtb t 30 = false)
    by (apply orb_false_iff; split; [apply ltb_false | apply gtb_false]; lra).
  rewrite E1, E2. destruct (JS.ltb t 15 || JS.gtb t 28); discriminate.
Qed.

Lemma temperatureFactor_full (t : Q) :
  temperatureFactor t == 1 <-> 15 <= t /\ t <= 28.
Proof.
  unfold temperatureFactor. split.
  - destruct (JS.ltb t 5 || JS.gtb t 35); [discriminate |].
    destruct (JS.ltb t 10 || JS.gtb t 30); [discriminate |].
    destruct (JS.ltb t 15 || JS.gtb t 28) eqn:E; [discriminate |].
    apply orb_false_iff in E as [E1 E2].
    apply ltb_false in E1. apply gtb_false in E2. now split.
  - intros [Hlo Hhi].
    assert (E1 : JS.ltb t 5 || JS.gtb t 35 = false)
      by (apply orb_false_iff; split; [apply ltb_false | apply gtb_false]; lra).
    assert (E2 : JS.ltb t 10 || JS.gtb t 30 = false)
      by (apply orb_false_iff; split; [apply ltb_false | apply gtb_false]; lra).
    assert (E3 : JS.ltb t 15 || JS.gtb t 28 = false)
      by (apply orb_false_iff; split; [apply ltb_false | apply gtb_false]; lra).
    rewrite E1, E2, E3. reflexivity.
Qed.

Lemma conditionFactor_range (c : string) : (1 # 10) <= conditionFactor c <= 1.
Proof. apply or_else_within; [reflexivity | split; discriminate]. Qed.

Lemma conditionFactor_full (c : string) :
  conditionFactor c == 1 <-> c = "Clear"%string \/ c = "Sunny"%string.
Proof.
  unfold conditionFactor, WeatherService.conditionScores. cbn [JS.own]. split.
  - destruct (String.eqb_spec "Clear" c) as [<- | _]; [now left |].
    destruct (String.eqb_spec "Sunny" c) as [<- | _]; [now right |].
    repeat (destruct (String.eqb _ c); [discriminate |]). discriminate.
  - intros [-> | ->]; reflexivity.
Qed.

Lemma windFactor_range (w : Q) : (3 # 10) <= windFactor w <= 1.
Proof.
  unfold windFactor. repeat (destruct (JS.gtb _ _); [split; discriminate |]).
  split; discriminate.
Qed.

Lemma windFactor_full (w : Q) : windFactor w == 1 <-> w <= 25.
Proof.
  unfold windFactor. split.
  - destruct (JS.gtb w 40); [discriminate |].
    destruct (JS.gtb w 25) eqn:E; [discriminate |]. intros _. now apply gtb_false.
  - intros H.
    assert (E1 : JS.gtb w 40 = false) by (apply gtb_false; lra).
    assert (E2 : JS.gtb w 25 = false) by (apply gtb_false; lra).
    rewrite E1, E2. reflexivity.
Qed.

Lemma windFactor_antitone (w w' : Q) : w <= w' -> windFactor w' <= windFactor w.
Proof.
  intros H. unfold windFactor.
  destruct (JS.gtb w' 40) eqn:E1, (JS.gtb w 40) eqn:E2;
    try (apply gtb_spec in E1); try (apply gtb_spec in E2);
    try (apply gtb_false in E1); try (apply gtb_false in E2);
    try lra; try discriminate.
  - destruct (JS.gtb w 25); discriminate.
  - destruct (JS.gtb w' 25) eqn:E3, (JS.gtb w 25) eqn:E4;
      try (apply gtb_spec in E3); try (apply gtb_spec in E4);
      try (apply gtb_false in E3); try (apply gtb_false in E4);
      try lra; try discriminate.
Qed.

Lemma max_zero_inert (x : Q) : 0 <= x -> JS.max 0 x == x.
Proof. intros H. apply Q.max_r. assumption. Qed.

Lemma min_one_inert (x : Q) : x <= 1 -> JS.min 1 x == x.
Proof. intros H. apply Q.min_r. assumption. Qed.

(** The score is the product of the three factors: the final clamp to
    [[0, 1]] changes nothing. *)
Lemma getWeatherSuitabilityScore_product (w : WeatherData.t) :
  WeatherService.getWeatherSuitabilityScore w ==
  temperatureFactor (WeatherData.temperature w) *
  conditionFactor (WeatherData.condition w) *
  windFactor (WeatherData.windSpeed w).
Proof.
  pose proof (temperatureFactor_range (WeatherData.temperature w)) as Ht.
  pose proof (conditionFactor_range (WeatherData.condition w)) as Hc.
  pose proof (windFactor_range (WeatherData.windSpeed w)) as Hw.
  unfold WeatherService.getWeatherSuitabilityScore. cbv zeta.
  match goal with |- JS.max 0 (JS.min 1 ?raw) == _ =>
    assert (E : raw ==
                temperatureFactor (WeatherData.temperature w) *
                conditionFactor (WeatherData.condition w) *
                windFactor (WeatherData.windSpeed w))
  end.
  { unfold temperatureFactor, conditionFactor, windFactor.
    destruct (JS.ltb _ 5 || JS.gtb _ 35);
      [| destruct (JS.ltb _ 10 || JS.gtb _ 30);
         [| destruct (JS.ltb _ 15 || JS.gtb _ 28)]];
      (destruct (JS.gtb _ 40); [| destruct (JS.gtb _ 25)]); ring. }
  unfold JS.max, JS.min. rewrite E.
  set (t := temperatureFactor _) in *. set (c := conditionFactor _) in *.
  set (v := windFactor _) in *.
  assert (Htc : 0 <= t * c <= 1) by nra.
  assert (H0 : 0 <= t * c * v) by nra.
  assert (H1 : t * c * v <= 1) by nra.
  rewrite (Q.min_r 1 (t * c * v)) by assumption.
  apply Q.max_r. assumption.
Qed.

(** Three factors of which none is below its smallest value. *)
Lemma factors_product (t c v : Q) :
  (3 # 10) <= t <= 1 -> (1 # 10) <= c <= 1 -> (3 # 10) <= v <= 1 ->
  0.009 <= t * c * v <= 1 /\
  (t * c * v == 1 <-> t == 1 /\ c == 1 /\ v == 1).
Proof.
  intros Ht Hc Hv.
  assert (Htc : (3 # 100) <= t * c <= 1) by nra.
  split; [split; nra |]. split.
  - intros H.
    assert (Hv1 : v == 1) by nra.
    assert (Htc1 : t * c == 1) by (rewrite Hv1 in H; lra).
    assert (Ht1 : t == 1) by nra.
    assert (Hc1 : c == 1) by (rewrite Ht1 in Htc1; lra).
    auto.
  - intros (H1 & H2 & H3). rewrite H1, H2, H3. reflexivity.
Qed.

(** X3.  For weather whose condition is no name that every object
    inherits, the weather suitability score is never 0: it lies between
    0.009 and 1.  It is 1 exactly for clear or sunny weather at 15 to 28
    degrees with wind of at most 25 km/h. *)
Theorem weather_score_positive_and_full_only_when_ideal (w : WeatherData.t) :
  JS.inherited (WeatherData.condition w) = false ->
  0.009 <= WeatherService.getWeatherSuitabilityScore w <= 1 /\
  (WeatherService.getWeatherSuitabilityScore w == 1 <->
   (15 <= WeatherData.temperature w /\ WeatherData.temperature w <= 28) /\
   (WeatherData.condition w = "Clear"%string \/
    WeatherData.condition w = "Sunny"%string) /\
   WeatherData.windSpeed w <= 25).
Proof.
  intros _.
  rewrite getWeatherSuitabilityScore_product.
  rewrite <- temperatureFactor_full, <- conditionFactor_full, <- windFactor_full.
  apply factors_product;
    [apply temperatureFactor_range | apply conditionFactor_range
    | apply windFactor_range].
Qed.

(** An instance of X3. *)
Lemma weather_score_positive_and_full_only_when_ideal_witness :
  JS.inherited (WeatherData.condition sampleWeather) = false /\
  0.009 <= WeatherService.getWeatherSuitabilityScore sampleWeather <= 1.
Proof.
  split; [reflexivity |].
  exact (proj1 (weather_score_positive_and_full_only_when_ideal sampleWeather
                  eq_refl)).
Defined.

(** X4.  Stronger wind never raises the weather suitability score. *)
Theorem weather_score_antitone_in_wind (w : WeatherData.t) (wind wind' : Q) :
  wind <= wind' ->
  WeatherService.getWeatherSuitabilityScore (withWind w wind') <=
  WeatherService.getWeatherSuitabilityScore (withWind w wind).
Proof.
  intros H. rewrite !getWeatherSuitabilityScore_product. simpl.
  pose proof (temperatureFactor_range (WeatherData.temperature w)) as Ht.
  pose proof (conditionFactor_range (WeatherData.condition w)) as Hc.
  pose proof (windFactor_antitone wind wind' H) as Hv.
  set (t := temperatureFactor _) in *. set (c := conditionFactor _) in *.
  set (v := windFactor wind) in *. set (v' := windFactor wind') in *.
  assert (0 <= t * c) by nra. nra.
Qed.

(** An instance of X4: a breeze against a gale. *)
Lemma weather_score_antitone_in_wind_witness :
  WeatherService.getWeatherSuitabilityScore (withWind sampleWeather 45) <=
  WeatherService.getWeatherSuitabilityScore (withWind sampleWeather 12).
Proof.
  apply (weather_score_antitone_in_wind sampleWeather 12 45). discriminate.
Defined.

End WeatherScore.

Section MockWeather.
Local Open Scope Q_scope.

Lemma floor_between (x : Q) (lo hi : Z) :
  inject_Z lo <= x -> x < inject_Z hi -> (lo <= JS.floor x < hi)%Z.
Proof.
  intros Hlo Hhi. unfold JS.floor. split.
  - rewrite <- (Qfloor_Z lo). apply Qfloor_resp_le. assumption.
  - rewrite Zlt_Qlt. apply (Qle_lt_trans _ x); [apply Qfloor_le | assumption].
Qed.

Lemma index_conditions (i : Z) :
  (0 <= i < 5)%Z ->
  exists a, JS.index WeatherLookup.conditions i = Some a /\
            In a WeatherLookup.conditions.
Proof.
  intros H.
  assert (E : i = 0%Z \/ i = 1%Z \/ i = 2%Z \/ i = 3%Z \/ i = 4%Z) by lia.
  destruct E as [-> | [-> | [-> | [-> | ->]]]];
    (eexists; split; [reflexivity | simpl; tauto]).
Qed.

(** What every archetype of the mock has. *)
Lemma conditions_table (a : WeatherLookup.Archetype) :
  In a WeatherLookup.conditions ->
  exists lo : Z,
    WeatherLookup.tempLow a = inject_Z lo /\
    WeatherLookup.tempHigh a = inject_Z (lo + 10) /\
    (10 <= lo <= 20)%Z /\
    (4 # 10) <= conditionFactor (WeatherLookup.condition a).
Proof.
  simpl. intros [<- | [<- | [<- | [<- | [<- | []]]]]].
  - exists 18%Z. repeat split; try reflexivity; try lia; discriminate.
  - exists 15%Z. repeat split; try reflexivity; try lia; discriminate.
  - exists 12%Z. repeat split; try reflexivity; try lia; discriminate.
  - exists 10%Z. repeat split; try reflexivity; try lia; discriminate.
  - exists 20%Z. repeat split; try reflexivity; try lia; discriminate.
Qed.

(** With random numbers in [[0, 1)] the mock draws four of them: the
    first picks an archetype, the others give temperature, humidity and
    wind. *)
Lemma generateMockWeatherData_draws (location : Location.t Q) (g : JS.Rng) :
  random_in_range g ->
  exists a,
    In a WeatherLookup.conditions /\
    WeatherLookup.generateMockWeatherData location g =
    (JS.Fulfilled
       (WeatherData.mk
          (inject_Z (JS.floor (g 1%nat * (WeatherLookup.tempHigh a - WeatherLookup.tempLow a)
                               + WeatherLookup.tempLow a)))
          (WeatherLookup.condition a)
          (inject_Z (JS.floor (g 2%nat * 40) + 40))
          (inject_Z (JS.floor (g 3%nat * 20) + 5))
          (WeatherLookup.icon a)),
     fun n => g (S (S (S (S n))))).
Proof.
  intros Hg. unfold WeatherLookup.generateMockWeatherData, JS.bind, JS.random.
  destruct (index_conditions
              (JS.floor (g O * inject_Z (Z.of_nat (List.length WeatherLookup.conditions)))))
    as (a & Ha & Hin).
  { pose proof (Hg O) as H0. apply floor_between.
    - change (inject_Z 0) with 0. change (inject_Z (Z.of_nat _)) with 5. lra.
    - change (inject_Z (Z.of_nat _)) with 5. change (inject_Z 5) with 5. lra. }
  exists a. split; [assumption |]. rewrite Ha. reflexivity.
Qed.

(** X5.  With random numbers in [[0, 1)] the mock weather is one of the
    five archetypes with a whole temperature between the ends of the
    archetype's range, humidity from 40 to 79 and wind from 5 to 24; its
    suitability score is at least 0.32. *)
Theorem mock_weather_is_mild (location : Location.t Q) (g : JS.Rng) :
  random_in_range g ->
  exists w a,
    fst (WeatherLookup.generateMockWeatherData location g) = JS.Fulfilled w /\
    In a WeatherLookup.conditions /\
    WeatherData.condition w = WeatherLookup.condition a /\
    WeatherData.icon w = WeatherLookup.icon a /\
    isWhole (WeatherData.temperature w) /\
    WeatherLookup.tempLow a <= WeatherData.temperature w <= WeatherLookup.tempHigh a /\
    40 <= WeatherData.humidity w <= 79 /\
    5 <= WeatherData.windSpeed w <= 24 /\
    0.32 <= WeatherService.getWeatherSuitabilityScore w.
Proof.
  intros Hg. destruct (generateMockWeatherData_draws location g Hg) as (a & Hin & E).
  destruct (conditions_table a Hin) as (lo & Hlo & Hhi & Hrange & Hc).
  pose proof (Hg 1%nat) as H1. pose proof (Hg 2%nat) as H2. pose proof (Hg 3%nat) as H3.
  assert (Ht : (lo <= JS.floor (g 1%nat * (WeatherLookup.tempHigh a - WeatherLookup.tempLow a)
                                + WeatherLookup.tempLow a) < lo + 10)%Z).
  { rewrite Hlo, Hhi. apply floor_between; rewrite ?inject_Z_plus;
      change (inject_Z 10) with 10; set (l := inject_Z lo); nra. }
  assert (Hh : (0 <= JS.floor (g 2%nat * 40) < 40)%Z)
    by (apply floor_between; [change (inject_Z 0) with 0 | change (inject_Z 40) with 40]; lra).
  assert (Hw : (0 <= JS.floor (g 3%nat * 20) < 20)%Z)
    by (apply floor_between; [change (inject_Z 0) with 0 | change (inject_Z 20) with 20]; lra).
  eexists. exists a. rewrite E. cbn [fst]. split; [reflexivity |].
  cbn [WeatherData.condition WeatherData.icon WeatherData.temperature
       WeatherData.humidity WeatherData.windSpeed].
  set (t := JS.floor (g 1%nat * _ + _)) in *.
  set (h := JS.floor (g 2%nat * 40)) in *. set (v := JS.floor (g 3%nat * 20)) in *.
  assert (Bt : inject_Z lo <= inject_Z t < inject_Z (lo + 10))
    by (split; [rewrite <- Zle_Qle | rewrite <- Zlt_Qlt]; lia).
  assert (Bh : inject_Z 40 <= inject_Z (h + 40) <= inject_Z 79)
    by (split; rewrite <- Zle_Qle; lia).
  assert (Bv : inject_Z 5 <= inject_Z (v + 5) <= inject_Z 24)
    by (split; rewrite <- Zle_Qle; lia).
  assert (B10 : inject_Z 10 <= inject_Z lo <= inject_Z 20)
    by (split; rewrite <- Zle_Qle; lia).
  rewrite inject_Z_plus in Bt.
  change (inject_Z 10) with 10 in *. change (inject_Z 20) with 20 in *.
  change (inject_Z 40) with 40 in *. change (inject_Z 79) with 79 in *.
  change (inject_Z 5) with 5 in *. change (inject_Z 24) with 24 in *.
  repeat split; try assumption; try tauto.
  - exists t. reflexivity.
  - rewrite Hlo. tauto.
  - rewrite Hhi, inject_Z_plus. apply Qlt_le_weak. tauto.
  - rewrite getWeatherSuitabilityScore_product.
    cbn [WeatherData.condition WeatherData.temperature WeatherData.windSpeed].
    assert (Ft : (8 # 10) <= temperatureFactor (inject_Z t))
      by (apply temperatureFactor_mild; set (l := inject_Z lo) in *;
          set (tt := inject_Z t) in *; lra).
    pose proof (temperatureFactor_range (inject_Z t)) as Ft'.
    assert (Fv : windFactor (inject_Z (v + 5)) == 1)
      by (apply windFactor_full; set (vv := inject_Z (v + 5)) in *; lra).
    pose proof (conditionFactor_range (WeatherLookup.condition a)) as Fc.
    rewrite Fv. set (ft := temperatureFactor _) in *.
    set (fc := conditionFactor _) in *. nra.
Qed.

(** An instance of X5. *)
Lemma mock_weather_is_mild_witness :
  exists w a,
    fst (WeatherLookup.generateMockWeatherData samplePlace halves) = JS.Fulfilled w /\
    In a WeatherLookup.conditions /\
    WeatherData.condition w = WeatherLookup.condition a /\
    WeatherData.icon w = WeatherLookup.icon a /\
    isWhole (WeatherData.temperature w) /\
    WeatherLookup.tempLow a <= WeatherData.temperature w <= WeatherLookup.tempHigh a /\
    40 <= WeatherData.humidity w <= 79 /\
    5 <= WeatherData.windSpeed w <= 24 /\
    0.32 <= WeatherService.getWeatherSuitabilityScore w.
Proof. apply (mock_weather_is_mild samplePlace halves). apply halves_in_range. Defined.

End MockWeather.

Section WeatherCache.
Local Open Scope Z_scope.

Variable fetch : WeatherLookup.Provider.
Variables now storedAt : Z.
Variable weatherCache : gmap string WeatherLookup.CacheEntry.
Variable location : Location.t Q.

Lemma getWeatherData_hit (entry : WeatherLookup.CacheEntry) (g : JS.Rng) :
  weatherCache !! WeatherLookup.cacheKey location = Some entry ->
  now - WeatherLookup.timestamp entry < WeatherLookup.CACHE_DURATION ->
  WeatherLookup.getWeatherData fetch now storedAt weatherCache location g =
  (JS.Fulfilled (WeatherLookup.data entry), weatherCache, g).
Proof.
  intros Hc Hf. unfold WeatherLookup.getWeatherData. cbv zeta. rewrite Hc.
  apply Z.ltb_lt in Hf. rewrite Hf. reflexivity.
Qed.

Lemma getWeatherData_miss (g : JS.Rng) :
  noFreshEntry now weatherCache location ->
  WeatherLookup.getWeatherData fetch now storedAt weatherCache location g =
  match fetch location with
  | JS.Fulfilled (WeatherLookup.mkReply true (JS.Fulfilled weatherData)) =>
      (JS.Fulfilled weatherData,
       <[WeatherLookup.cacheKey location := WeatherLookup.mkEntry weatherData storedAt]>
         weatherCache, g)
  | _ =>
      let '(mock, g') := WeatherLookup.generateMockWeatherData location g in
      (mock, weatherCache, g')
  end.
Proof.
  intros Hs. unfold WeatherLookup.getWeatherData. cbv zeta.
  destruct (weatherCache !! WeatherLookup.cacheKey location) as [entry |] eqn:Hc.
  - specialize (Hs entry Hc). apply Z.ltb_ge in Hs. rewrite Hs.
    destruct (fetch location) as [[[] []] |]; reflexivity.
  - destruct (fetch location) as [[[] []] |]; reflexivity.
Qed.

End WeatherCache.

Section WeatherCacheProperties.
Local Open Scope Z_scope.

(** X6.  A weather report fetched from the provider is stored under the
    location's key (both coordinates to two decimals) and served again,
    without asking the provider or drawing random numbers, to any request
    whose location has the same key and that comes less than 30 minutes
    after the report was stored. *)
Theorem fetched_weather_is_served_again
    (fetch fetch' : WeatherLookup.Provider) (now storedAt now' storedAt' : Z)
    (weatherCache : gmap string WeatherLookup.CacheEntry)
    (location location' : Location.t Q) (g g' : JS.Rng) (w : WeatherData.t) :
  noFreshEntry now weatherCache location ->
  fetch location = JS.Fulfilled (WeatherLookup.mkReply true (JS.Fulfilled w)) ->
  WeatherLookup.cacheKey location' = WeatherLookup.cacheKey location ->
  now' - storedAt < WeatherLookup.CACHE_DURATION ->
  exists cache1,
    WeatherLookup.getWeatherData fetch now storedAt weatherCache location g =
      (JS.Fulfilled w, cache1, g) /\
    WeatherLookup.getWeatherData fetch' now' storedAt' cache1 location' g' =
      (JS.Fulfilled w, cache1, g').
Proof.
  intros Hs Hf Hk Hn. eexists. split.
  - rewrite getWeatherData_miss by assumption. rewrite Hf. reflexivity.
  - apply (getWeatherData_hit fetch' now' storedAt' _ location'
             (WeatherLookup.mkEntry w storedAt) g').
    + rewrite Hk. apply lookup_insert_eq.
    + assumption.
Qed.

(** An instance of X6: the second request is for a nearby place, a
    quarter of an hour later, with the provider down. *)
Lemma fetched_weather_is_served_again_witness :
  exists cache1,
    WeatherLookup.getWeatherData workingProvider 0 5 ∅ samplePlace halves =
      (JS.Fulfilled sampleWeather, cache1, halves) /\
    WeatherLookup.getWeatherData brokenProvider 900000 900005 cache1 nearbyPlace halves =
      (JS.Fulfilled sampleWeather, cache1, halves).
Proof.
  apply (fetched_weather_is_served_again workingProvider brokenProvider
           0 5 900000 900005 ∅ samplePlace nearbyPlace halves halves sampleWeather).
  - intros entry H. rewrite lookup_empty in H. discriminate.
  - reflexivity.
  - vm_compute. reflexivity.
  - reflexivity.
Defined.

(** X7.  With random numbers in [[0, 1)] a weather lookup never fails:
    whatever the provider does and whatever the cache holds, it is
    fulfilled with a weather report. *)
Theorem weather_lookup_always_fulfils
    (fetch : WeatherLookup.Provider) (now storedAt : Z)
    (weatherCache : gmap string WeatherLookup.CacheEntry)
    (location : Location.t Q) (g : JS.Rng) :
  random_in_range g ->
  exists w,
    fst (fst (WeatherLookup.getWeatherData fetch now storedAt weatherCache location g)) =
    JS.Fulfilled w.
Proof.
  intros Hg.
  destruct (generateMockWeatherData_draws location g Hg) as (a & _ & E).
  unfold WeatherLookup.getWeatherData. cbv zeta.
  assert (Hfetch : exists w,
             fst (fst (match fetch location with
                       | JS.Fulfilled (WeatherLookup.mkReply true (JS.Fulfilled weatherData)) =>
                           JS.ret (JS.Fulfilled weatherData,
                                   <[WeatherLookup.cacheKey location :=
                                       WeatherLookup.mkEntry weatherData storedAt]> weatherCache)
                       | _ =>
                           JS.bind (WeatherLookup.generateMockWeatherData location)
                             (fun mock => JS.ret (mock, weatherCache))
                       end g)) = JS.Fulfilled w).
  { destruct (fetch location) as [[[] []] |]; unfold JS.bind, JS.ret;
      rewrite ?E; eexists; reflexivity. }
  destruct (weatherCache !! WeatherLookup.cacheKey location) as [entry |];
    [destruct (_ <? _); [eexists; reflexivity |] |]; exact Hfetch.
Qed.

(** An instance of X7. *)
Lemma weather_lookup_always_fulfils_witness :
  exists w,
    fst (fst (WeatherLookup.getWeatherData brokenProvider 0 5 ∅ samplePlace halves)) =
    JS.Fulfilled w.
Proof.
  apply (weather_lookup_always_fulfils brokenProvider 0 5 ∅ samplePlace halves).
  apply halves_in_range.
Defined.

(** X8.  A weather lookup changes the cache at the location's own key
    only, and only by storing the report it returns: no other entry is
    touched, no entry is ever removed (not even one that has expired), and
    a lookup that ends in the mock stores nothing. *)
Theorem weather_lookup_changes_own_key_only
    (fetch : WeatherLookup.Provider) (now storedAt : Z)
    (weatherCache : gmap string WeatherLookup.CacheEntry)
    (location : Location.t Q) (g : JS.Rng) :
  (forall key,
     key <> WeatherLookup.cacheKey location ->
     snd (fst (WeatherLookup.getWeatherData fetch now storedAt weatherCache location g))
       !! key = weatherCache !! key) /\
  (is_Some (weatherCache !! WeatherLookup.cacheKey location) ->
   is_Some (snd (fst (WeatherLookup.getWeatherData fetch now storedAt weatherCache
                        location g))
              !! WeatherLookup.cacheKey location)) /\
  (snd (fst (WeatherLookup.getWeatherData fetch now storedAt weatherCache location g))
   = weatherCache \/
   exists w,
     fetch location = JS.Fulfilled (WeatherLookup.mkReply true (JS.Fulfilled w)) /\
     WeatherLookup.getWeatherData fetch now storedAt weatherCache location g =
     (JS.Fulfilled w,
      <[WeatherLookup.cacheKey location := WeatherLookup.mkEntry w storedAt]> weatherCache,
      g)).
Proof.
  assert (H : snd (fst (WeatherLookup.getWeatherData fetch now storedAt weatherCache
                          location g)) = weatherCache \/
              exists w,
                fetch location = JS.Fulfilled (WeatherLookup.mkReply true (JS.Fulfilled w)) /\
                WeatherLookup.getWeatherData fetch now storedAt weatherCache location g =
                (JS.Fulfilled w,
                 <[WeatherLookup.cacheKey location := WeatherLookup.mkEntry w storedAt]>
                   weatherCache, g)).
  { unfold WeatherLookup.getWeatherData. cbv zeta.
    assert (Hmock : snd (fst (JS.bind (WeatherLookup.generateMockWeatherData location)
                                (fun mock => JS.ret (mock, weatherCache)) g)) = weatherCache).
    { unfold JS.bind, JS.ret.
      destruct (WeatherLookup.generateMockWeatherData location g). reflexivity. }
    destruct (weatherCache !! WeatherLookup.cacheKey location) as [entry |];
      [destruct (_ <? _); [left; reflexivity |] |];
      (destruct (fetch location) as [[[] [w |]] |];
       [right; exists w; split; reflexivity | left; exact Hmock ..]). }
  split; [| split; [| exact H]].
  - intros key Hkey. destruct H as [-> | (w & _ & ->)]; [reflexivity |].
    cbn [fst snd]. apply lookup_insert_ne. congruence.
  - intros Hsome. destruct H as [-> | (w & _ & ->)]; [assumption |].
    cbn [fst snd]. rewrite lookup_insert_eq. eauto.
Qed.

End WeatherCacheProperties.

(* ===================================================================== *)
(** * Further properties: scoring and ranking *)
(* ===================================================================== *)

Section PreferenceMatch.
Local Open Scope Q_scope.

Lemma preferenceStep_score (poi : POI.t) (m n : Q) (preference : string) :
  AIPOIFilter.preferenceStep poi (m, n) preference =
  (m + preferenceScore poi preference, n + 1).
Proof.
  unfold AIPOIFilter.preferenceStep, preferenceScore.
  now destruct (JS.includes _ _).
Qed.

Lemma preference_fold_sum (poi : POI.t) (preferences : list string) :
  forall m n : Q,
    fst (fold_left (AIPOIFilter.preferenceStep poi) preferences (m, n)) ==
    m + sumQ (map (preferenceScore poi) preferences).
Proof.
  induction preferences as [| p rest IH]; intros m n; cbn [fold_left].
  - simpl. ring.
  - rewrite preferenceStep_score, IH. simpl. ring.
Qed.

Lemma calculatePreferenceMatch_average (poi : POI.t) (preferences : list string) :
  preferences <> [] ->
  AIPOIFilter.calculatePreferenceMatch poi preferences ==
  sumQ (map (preferenceScore poi) preferences) /
  inject_Z (Z.of_nat (length preferences)).
Proof.
  intros Hne. unfold AIPOIFilter.calculatePreferenceMatch.
  destruct preferences as [| p rest]; [contradiction |].
  pose proof (preference_fold poi (p :: rest) 0 0) as H.
  pose proof (preference_fold_sum poi (p :: rest) 0 0) as Hsum.
  destruct (fold_left _ _ _) as [m n]. cbn [fst] in Hsum.
  destruct H as [[Hm Hmn] Hn]; [split; apply Qle_refl |].
  assert (Hpos : 0 < inject_Z (Z.of_nat (length (p :: rest)))).
  { change 0 with (inject_Z 0). rewrite <- Zlt_Qlt. simpl length. lia. }
  set (len := inject_Z _) in *.
  assert (Hn' : n == len) by (rewrite Hn; ring).
  assert (E : JS.gtb n 0 = true) by (apply ltb_spec; rewrite Hn'; assumption).
  rewrite E. unfold JS.min. rewrite Q.min_r.
  - rewrite Hsum, Hn'. now rewrite Qplus_0_l.
  - apply Qle_shift_div_r; [rewrite Hn'; assumption | lra].
Qed.

(** What one preference adds is 1 only when the preference is contained
    in the category. *)
Lemma calculateSemanticMatch_partial (poi : POI.t) (preference : string) :
  AIPOIFilter.calculateSemanticMatch poi preference <= 0.7.
Proof.
  unfold AIPOIFilter.calculateSemanticMatch. cbv zeta.
  destruct (existsb _ _); [discriminate |].
  destruct (JS.includes _ _); discriminate.
Qed.

Lemma preferenceScore_range (poi : POI.t) (preference : string) :
  0 <= preferenceScore poi preference <= 1.
Proof.
  unfold preferenceScore. destruct (JS.includes _ _); [split; discriminate |].
  apply calculateSemanticMatch_range.
Qed.

Lemma preferenceScore_full (poi : POI.t) (preference : string) :
  preferenceScore poi preference == 1 <->
  JS.includes (JS.toLowerCase (POI.category poi)) (JS.toLowerCase preference) = true.
Proof.
  unfold preferenceScore. destruct (JS.includes _ _).
  - split; reflexivity.
  - pose proof (calculateSemanticMatch_partial poi preference) as H.
    split; [intros E; rewrite E in H; vm_compute in H; now elim H | discriminate].
Qed.

(** A sum of numbers between 0 and 1 reaches the number of its terms only
    when every term is 1, and is 0 only when every term is 0. *)
Lemma sumQ_extremes (l : list Q) :
  List.Forall (fun x => 0 <= x <= 1) l ->
  0 <= sumQ l <= inject_Z (Z.of_nat (length l)) /\
  (sumQ l == inject_Z (Z.of_nat (length l)) <-> List.Forall (fun x => x == 1) l) /\
  (sumQ l == 0 <-> List.Forall (fun x => x == 0) l).
Proof.
  induction 1 as [| x l Hx _ IH]; cbn [sumQ fold_right length].
  - split; [split; apply Qle_refl |]. split; split; try constructor; reflexivity.
  - fold (sumQ l). rewrite Nat2Z.inj_succ. unfold Z.succ. rewrite inject_Z_plus.
    change (inject_Z 1) with 1.
    destruct IH as ([Hlo Hhi] & Hfull & Hzero).
    set (len := inject_Z (Z.of_nat (length l))) in *. set (sum := sumQ l) in *.
    split; [split; lra |]. split; split.
    + intros E. constructor; [lra |]. apply Hfull. lra.
    + intros Hall. apply List.Forall_cons_iff in Hall as [H1 Hall].
      apply Hfull in Hall. lra.
    + intros E. constructor; [lra |]. apply Hzero. lra.
    + intros Hall. apply List.Forall_cons_iff in Hall as [H1 Hall].
      apply Hzero in Hall. lra.
Qed.

(** X9.  For a non-empty list of preferences the preference match lies
    between 0 and 1; it is 1 exactly when every preference is contained in
    the POI's category (case ignored), and 0 exactly when no preference
    adds anything: none is contained in the category, matches it by
    meaning or appears in the POI's name or description. *)
Theorem preference_match_extremes (poi : POI.t) (preferences : list string) :
  preferences <> [] ->
  0 <= AIPOIFilter.calculatePreferenceMatch poi preferences <= 1 /\
  (AIPOIFilter.calculatePreferenceMatch poi preferences == 1 <->
   List.Forall
     (fun preference =>
        JS.includes (JS.toLowerCase (POI.category poi))
          (JS.toLowerCase preference) = true)
     preferences) /\
  (AIPOIFilter.calculatePreferenceMatch poi preferences == 0 <->
   List.Forall (fun preference => preferenceScore poi preference == 0)
     preferences).
Proof.
  intros Hne. split; [apply calculatePreferenceMatch_range |].
  rewrite (calculatePreferenceMatch_average poi preferences Hne).
  assert (Hpos : 0 < inject_Z (Z.of_nat (length preferences))).
  { change 0 with (inject_Z 0). rewrite <- Zlt_Qlt.
    destruct preferences; [contradiction | simpl length; lia]. }
  assert (Hrange : List.Forall (fun x => 0 <= x <= 1)
                     (map (preferenceScore poi) preferences)).
  { apply List.Forall_forall. intros x Hx. apply in_map_iff in Hx as (p & <- & _).
    apply preferenceScore_range. }
  destruct (sumQ_extremes _ Hrange) as (_ & Hfull & Hzero).
  rewrite length_map in Hfull.
  set (len := inject_Z (Z.of_nat (length preferences))) in *.
  set (sum := sumQ (map (preferenceScore poi) preferences)) in *.
  assert (Hdiv : forall q, sum / len == q <-> sum == q * len).
  { intros q. split; intros E.
    - rewrite <- E. field. lra.
    - rewrite E. field. lra. }
  split.
  - rewrite Hdiv, Qmult_1_l, Hfull, List.Forall_map.
    split; intros H; (eapply List.Forall_impl; [| exact H]); intros p Hp;
      now apply preferenceScore_full.
  - rewrite Hdiv, Qmult_0_l, Hzero, List.Forall_map. reflexivity.
Qed.

(** An instance of X9: a museum asked for by category and by theme. *)
Lemma preference_match_extremes_witness :
  0 <= AIPOIFilter.calculatePreferenceMatch topRated
         ["Museums"; "history"; "golf"]%string <= 1.
Proof.
  apply (preference_match_extremes topRated ["Museums"; "history"; "golf"]%string).
  discriminate.
Defined.

End PreferenceMatch.

Section Accessibility.
Local Open Scope Q_scope.

Lemma accessibilityBonus_range (poi : POI.t) : 0 <= accessibilityBonus poi <= 0.3.
Proof.
  unfold accessibilityBonus.
  destruct (JS.truthy_string (POI.phone poi)), (JS.truthy_string (POI.website poi)),
    (0 <? length (POI.openingHours poi))%nat; split; discriminate.
Qed.

Lemma accessibilityBonus_withDistance (poi : POI.t) (d : Q) :
  accessibilityBonus (withDistance poi d) = accessibilityBonus poi.
Proof. reflexivity. Qed.

(** The score before the clamp: 0.7, less a tenth per kilometre up to
    0.3, plus the bonus. *)
Lemma calculateAccessibilityScore_penalty (poi : POI.t) :
  AIPOIFilter.calculateAccessibilityScore poi ==
  JS.max 0 (JS.min 1 (0.7 - JS.min 0.3 (POI.distanceFromRoute poi / 10)
                      + accessibilityBonus poi)).
Proof.
  unfold AIPOIFilter.calculateAccessibilityScore, accessibilityBonus. cbv zeta.
  unfold JS.max, JS.min.
  apply Q.max_compat; [reflexivity |]. apply Q.min_compat; [reflexivity |].
  unfold JS.truthy.
  destruct (Qeq_bool (POI.distanceFromRoute poi) 0) eqn:E; cbn [negb].
  - apply Qeq_bool_iff in E. rewrite E.
    assert (Hz : Qmin 0.3 (0 / 10) == 0) by (vm_compute; reflexivity).
    rewrite Hz.
    destruct (JS.truthy_string (POI.phone poi)),
      (JS.truthy_string (POI.website poi)),
      (0 <? length (POI.openingHours poi))%nat; ring.
  - destruct (JS.truthy_string (POI.phone poi)),
      (JS.truthy_string (POI.website poi)),
      (0 <? length (POI.openingHours poi))%nat; ring.
Qed.

Lemma penalty_monotone (d d' : Q) :
  d <= d' -> Qmin 0.3 (d / 10) <= Qmin 0.3 (d' / 10).
Proof.
  intros H. apply Q.min_le_compat_l.
  apply Qle_shift_div_l; [reflexivity |].
  assert (E : d / 10 * 10 == d) by (field; discriminate). rewrite E. assumption.
Qed.

Lemma penalty_range (d : Q) : 0 <= d -> 0 <= Qmin 0.3 (d / 10) <= 0.3.
Proof.
  intros H. split; [| apply Q.le_min_l].
  apply Q.min_glb; [discriminate |].
  apply Qle_shift_div_l; [reflexivity | lra].
Qed.

Lemma penalty_capped (d : Q) : 3 <= d -> Qmin 0.3 (d / 10) == 0.3.
Proof.
  intros H. apply Q.min_l. apply Qle_shift_div_l; [reflexivity | lra].
Qed.

(** X10.  For a POI at a distance [d >= 0] from the route the accessibility
    score lies between 0.39 and 1 (so the clamp at 0 never acts); it never
    rises with the distance, and it no longer changes beyond 3 km. *)
Theorem accessibility_falls_with_distance (poi : POI.t) (d d' : Q) :
  0 <= d -> d <= d' ->
  0.39 <= AIPOIFilter.calculateAccessibilityScore (withDistance poi d) <= 1 /\
  AIPOIFilter.calculateAccessibilityScore (withDistance poi d') <=
    AIPOIFilter.calculateAccessibilityScore (withDistance poi d) /\
  (3 <= d ->
   AIPOIFilter.calculateAccessibilityScore (withDistance poi d') ==
   AIPOIFilter.calculateAccessibilityScore (withDistance poi d)).
Proof.
  intros Hd Hdd. rewrite !calculateAccessibilityScore_penalty.
  rewrite !accessibilityBonus_withDistance.
  cbn [withDistance POI.distanceFromRoute].
  pose proof (accessibilityBonus_range poi) as Hb.
  pose proof (penalty_range d Hd) as Hp.
  pose proof (penalty_monotone d d' Hdd) as Hm.
  set (b := accessibilityBonus poi) in *.
  unfold JS.max, JS.min.
  set (p := Qmin 0.3 (d / 10)) in *. set (p' := Qmin 0.3 (d' / 10)) in *.
  split; [| split].
  - split.
    + apply (Qle_trans _ (Qmin 1 (0.7 - p + b))); [| apply Q.le_max_r].
      apply Q.min_glb; lra.
    + apply Q.max_lub; [discriminate | apply Q.le_min_l].
  - apply Q.max_le_compat_l. apply Q.min_le_compat_l. lra.
  - intros H3.
    assert (E : p' == p).
    { unfold p, p'. rewrite !penalty_capped by lra. reflexivity. }
    rewrite E. reflexivity.
Qed.

(** An instance of X10: the sample museum 1 km and 5 km off the route. *)
Lemma accessibility_falls_with_distance_witness :
  AIPOIFilter.calculateAccessibilityScore (withDistance topRated 5) <=
  AIPOIFilter.calculateAccessibilityScore (withDistance topRated 1).
Proof.
  apply (accessibility_falls_with_distance topRated 1 5); discriminate.
Defined.

End Accessibility.

Section Breakdown.
Local Open Scope Q_scope.

(** X11.  Each of the six sub-scores that [scorePOI] records lies between
    0 and 1, for a POI with a non-negative rating whose category is no
    name that every object inherits, scored under criteria whose weather
    condition is no such name either. *)
Theorem score_breakdown_in_unit_interval (poi : POI.t)
    (criteria : AIFilteringCriteria.t) :
  rating_nonneg poi ->
  JS.inherited (POI.category poi) = false ->
  JS.inherited
    (WeatherData.condition (AIFilteringCriteria.weatherConditions criteria)) =
    false ->
  unitScore (ScoreBreakdown.weatherSuitability
               (ScoredPOI.scoreBreakdown (AIPOIFilter.scorePOI poi criteria))) /\
  unitScore (ScoreBreakdown.preferenceMatch
               (ScoredPOI.scoreBreakdown (AIPOIFilter.scorePOI poi criteria))) /\
  unitScore (ScoreBreakdown.timeRelevance
               (ScoredPOI.scoreBreakdown (AIPOIFilter.scorePOI poi criteria))) /\
  unitScore (ScoreBreakdown.seasonalRelevance
               (ScoredPOI.scoreBreakdown (AIPOIFilter.scorePOI poi criteria))) /\
  unitScore (ScoreBreakdown.popularityScore
               (ScoredPOI.scoreBreakdown (AIPOIFilter.scorePOI poi criteria))) /\
  unitScore (ScoreBreakdown.accessibilityScore
               (ScoredPOI.scoreBreakdown (AIPOIFilter.scorePOI poi criteria))).
Proof.
  intros Hr _ _. rewrite scorePOI_breakdown. unfold unitScore. simpl.
  repeat split;
    first [ apply calculateWeatherSuitability_range
          | apply calculatePreferenceMatch_range
          | apply calculateTimeRelevance_range
          | apply calculateSeasonalRelevance_range
          | apply (calculatePopularityScore_range poi Hr)
          | apply calculateAccessibilityScore_range ].
Qed.

(** An instance of X11: the sample museum on a June morning. *)
Lemma score_breakdown_in_unit_interval_witness :
  unitScore (ScoreBreakdown.popularityScore
               (ScoredPOI.scoreBreakdown
                  (AIPOIFilter.scorePOI topRated
                     (AIPOIFilter.buildFilteringCriteria museumTrip morningInJune)))).
Proof.
  apply (score_breakdown_in_unit_interval topRated
           (AIPOIFilter.buildFilteringCriteria museumTrip morningInJune));
    [simpl; discriminate | reflexivity | reflexivity].
Defined.

End Breakdown.

Section DiversityCompleteness.

Lemma categoryCountIn_cons (c : string) (p : ScoredPOI.t) (l : list ScoredPOI.t) :
  categoryCountIn c (p :: l) =
  ((if decide (ScoredPOI.category p = c) then 1 else 0) + categoryCountIn c l)%nat.
Proof.
  unfold categoryCountIn. rewrite filter_cons. now destruct (decide _).
Qed.

(** A loop over candidates of ordinary categories that ends with fewer
    than 15 entries has admitted every candidate whose category had room. *)
Lemma diversityLoop_complete (rest : list ScoredPOI.t) :
  Forall ordinaryCategory rest ->
  forall diversePOIs categoryCount,
    counts_agree diversePOIs categoryCount ->
    (forall c, categoryCountIn c diversePOIs <= 3)%nat ->
    (length (AIPOIFilter.diversityLoop rest diversePOIs categoryCount) < 15)%nat ->
    forall c,
      categoryCountIn c (AIPOIFilter.diversityLoop rest diversePOIs categoryCount) =
      Nat.min 3 (categoryCountIn c diversePOIs + categoryCountIn c rest).
Proof.
  induction rest as [| poi rest IH]; intros Hord diverse cc Hagree Hcap Hlen c.
  - cbn [AIPOIFilter.diversityLoop]. specialize (Hcap c).
    change (categoryCountIn c []) with 0%nat. lia.
  - apply Forall_cons in Hord as [Hname Hord]. specialize (IH Hord).
    rewrite (diversityLoop_step _ _ _ _ Hname) in Hlen |- *.
    cbv zeta in Hlen |- *.
    destruct (_ <? 3)%nat eqn:Hroom.
    + apply Nat.ltb_lt in Hroom.
      assert (Hcap' : forall c, (categoryCountIn c (diverse ++ [poi]) <= 3)%nat).
      { intros c'. rewrite categoryCountIn_snoc. specialize (Hcap c').
        destruct (decide _) as [<- |]; [| lia]. rewrite <- Hagree. lia. }
      destruct (15 <=? _)%nat eqn:Hfull; [apply Nat.leb_le in Hfull; lia |].
      rewrite (IH _ _ (counts_agree_push _ _ poi Hagree) Hcap' Hlen c).
      rewrite categoryCountIn_snoc, categoryCountIn_cons. lia.
    + apply Nat.ltb_ge in Hroom.
      destruct (15 <=? _)%nat eqn:Hfull; [apply Nat.leb_le in Hfull; lia |].
      rewrite (IH _ _ Hagree Hcap Hlen c). rewrite categoryCountIn_cons.
      destruct (decide _) as [<- |]; [| reflexivity].
      rewrite <- Hagree. lia.
Qed.

(** Candidates of ordinary categories that fit (at most 3 per category, at
    most 15 in all) are all admitted. *)
Lemma diversityLoop_all (rest : list ScoredPOI.t) :
  Forall ordinaryCategory rest ->
  forall diversePOIs categoryCount,
    counts_agree diversePOIs categoryCount ->
    (forall c, categoryCountIn c (diversePOIs ++ rest) <= 3)%nat ->
    (length (diversePOIs ++ rest) <= 15)%nat ->
    AIPOIFilter.diversityLoop rest diversePOIs categoryCount = diversePOIs ++ rest.
Proof.
  induction rest as [| poi rest IH]; intros Hord diverse cc Hagree Hcap Hlen.
  - simpl. now rewrite app_nil_r.
  - apply Forall_cons in Hord as [Hname Hord]. specialize (IH Hord).
    rewrite (diversityLoop_step _ _ _ _ Hname). cbv zeta.
    assert (Hroom : (default 0%nat (cc !! ScoredPOI.category poi) <? 3)%nat = true).
    { apply Nat.ltb_lt. rewrite Hagree.
      specialize (Hcap (ScoredPOI.category poi)).
      unfold categoryCountIn in *. rewrite filter_app, length_app, filter_cons in Hcap.
      destruct (decide _); [simpl in Hcap; lia | contradiction]. }
    rewrite Hroom.
    replace (diverse ++ poi :: rest) with ((diverse ++ [poi]) ++ rest) in *
      by now rewrite <- app_assoc.
    destruct (15 <=? _)%nat eqn:Hfull.
    + apply Nat.leb_le in Hfull. rewrite length_app in Hlen.
      destruct rest; [now rewrite app_nil_r | simpl in Hlen; lia].
    + apply IH; [now apply counts_agree_push | assumption | assumption].
Qed.

(** X12.  Among candidates whose categories are no names that every object
    inherits, the diversity selector drops a candidate only for want of
    room: a selection of fewer than 15 entries holds, of every category,
    all the candidates or 3 of them; and candidates of which there are at
    most 3 per category and at most 15 in all are selected unchanged. *)
Theorem diversity_selection_is_maximal (scoredPOIs : list ScoredPOI.t) :
  Forall ordinaryCategory scoredPOIs ->
  ((length (AIPOIFilter.applyDiversityFiltering scoredPOIs) < 15)%nat ->
   forall c,
     categoryCountIn c (AIPOIFilter.applyDiversityFiltering scoredPOIs) =
     Nat.min 3 (categoryCountIn c scoredPOIs)) /\
  ((forall c, categoryCountIn c scoredPOIs <= 3)%nat ->
   (length scoredPOIs <= 15)%nat ->
   AIPOIFilter.applyDiversityFiltering scoredPOIs = scoredPOIs).
Proof.
  intros Hord. unfold AIPOIFilter.applyDiversityFiltering. split.
  - intros Hlen c.
    rewrite (diversityLoop_complete scoredPOIs Hord [] ∅ counts_agree_empty);
      [reflexivity | intros c'; cbn; lia | assumption].
  - intros Hcap Hlen.
    now rewrite (diversityLoop_all scoredPOIs Hord [] ∅ counts_agree_empty).
Qed.

(** An instance of X12: twenty museums, of which three are selected. *)
Lemma diversity_selection_is_maximal_witness :
  Forall ordinaryCategory twentyMuseums /\
  categoryCountIn "Museums" (AIPOIFilter.applyDiversityFiltering twentyMuseums) =
  Nat.min 3 (categoryCountIn "Museums" twentyMuseums).
Proof.
  assert (Hord : Forall ordinaryCategory twentyMuseums).
  { unfold twentyMuseums. simpl. repeat (constructor; [reflexivity |]). constructor. }
  split; [exact Hord |].
  apply (proj1 (diversity_selection_is_maximal twentyMuseums Hord)).
  vm_compute. lia.
Defined.

End DiversityCompleteness.

Section TopOfRanking.
Local Open Scope Q_scope.

Lemma insertByScore_Permutation (x : ScoredPOI.t) (sorted : list ScoredPOI.t) :
  AIPOIFilter.insertByScore x sorted ≡ₚ x :: sorted.
Proof.
  induction sorted as [| y rest IH]; simpl; [reflexivity |].
  destruct (JS.leb _ _); [reflexivity |].
  rewrite IH. apply Permutation_swap.
Qed.

Lemma sortByScore_Permutation (l : list ScoredPOI.t) :
  AIPOIFilter.sortByScore l ≡ₚ l.
Proof.
  induction l as [| x l IH]; simpl; [reflexivity |].
  rewrite insertByScore_Permutation. now rewrite IH.
Qed.

(** The first candidate, when its category is ordinary, is selected and
    comes first. *)
Lemma applyDiversityFiltering_head (p : ScoredPOI.t) (rest : list ScoredPOI.t) :
  ordinaryCategory p ->
  exists kept, AIPOIFilter.applyDiversityFiltering (p :: rest) = p :: kept.
Proof.
  intros Hname.
  unfold AIPOIFilter.applyDiversityFiltering.
  rewrite (diversityLoop_step _ _ _ _ Hname). cbv zeta.
  rewrite lookup_empty. cbn [default Nat.ltb Nat.leb app length].
  destruct (diversityLoop_invariant rest [p]
              (<[ScoredPOI.category p := (0 + 1)%nat]> ∅))
    as (kept & Heq & _).
  - apply (counts_agree_push [] ∅ p counts_agree_empty).
  - apply counts_own_push; [exact Hname | apply counts_own_empty].
  - intros c. rewrite categoryCountIn_cons.
    change (categoryCountIn c []) with 0%nat. destruct (decide _); lia.
  - cbn. lia.
  - exists kept. exact Heq.
Qed.

(** X13.  The two last steps of [filterAndRankPOIs], the sort by score and
    the diversity selection, on scored POIs whose categories are no names
    that every object inherits: when there are scored POIs, the ranking is
    not empty, its first entry is one of them whose score no other exceeds,
    and every entry of the ranking is one of them. *)
Theorem top_scored_poi_leads_the_ranking (scoredPOIs : list ScoredPOI.t) :
  scoredPOIs <> [] ->
  Forall ordinaryCategory scoredPOIs ->
  exists top others,
    AIPOIFilter.applyDiversityFiltering (AIPOIFilter.sortByScore scoredPOIs) =
      top :: others /\
    (forall scored,
       In scored scoredPOIs ->
       ScoredPOI.aiScore scored <= ScoredPOI.aiScore top) /\
    Forall (fun entry => In entry scoredPOIs) (top :: others).
Proof.
  intros Hne Hord.
  pose proof (sortByScore_Permutation scoredPOIs) as Hperm.
  pose proof (sortByScore_sorted scoredPOIs) as Hsorted.
  destruct (applyDiversityFiltering_selected (AIPOIFilter.sortByScore scoredPOIs))
    as (kept & Heq & Hsub & _).
  destruct (AIPOIFilter.sortByScore scoredPOIs) as [| top sorted] eqn:Es.
  { apply Permutation_nil_l in Hperm. now subst. }
  assert (Htop : ordinaryCategory top).
  { rewrite List.Forall_forall in Hord. apply Hord.
    rewrite <- Hperm. now left. }
  destruct (applyDiversityFiltering_head top sorted Htop) as (others & Hhead).
  exists top, others. split; [exact Hhead |]. split.
  - intros scored Hin.
    assert (Hs : In scored (top :: sorted)) by now rewrite Hperm.
    destruct Hs as [<- | Hs]; [apply Qle_refl |].
    unfold scoreDescending in Hsorted.
    apply StronglySorted_inv in Hsorted as [_ Hall].
    rewrite List.Forall_forall in Hall. now apply Hall.
  - rewrite <- Hhead, Heq. apply List.Forall_forall. intros entry Hin.
    rewrite <- Hperm. apply list_elem_of_In.
    eapply elem_of_sublist; [| exact Hsub]. now apply list_elem_of_In.
Qed.

(** An instance of X13: two parks and a museum. *)
Lemma top_scored_poi_leads_the_ranking_witness :
  exists top others,
    AIPOIFilter.applyDiversityFiltering (AIPOIFilter.sortByScore threeScored) =
      top :: others /\
    (forall scored,
       In scored threeScored ->
       ScoredPOI.aiScore scored <= ScoredPOI.aiScore top) /\
    Forall (fun entry => In entry threeScored) (top :: others).
Proof.
  apply (top_scored_poi_leads_the_ranking threeScored); [discriminate |].
  unfold threeScored. repeat (constructor; [reflexivity |]). constructor.
Defined.

End TopOfRanking.

(* ===================================================================== *)
(** * Further properties: the recommendation sentence *)
(* ===================================================================== *)

Section RecommendationReasons.
Local Open Scope Q_scope.
Variable showNumber : Q -> string.

Lemma sensitive_category (category : string) :
  (1 # 2) < JS.or_else (JS.own AIPOIFilter.categoryWeatherSensitivity category) 0.5 ->
  In category weatherSensitiveCategories.
Proof.
  unfold AIPOIFilter.categoryWeatherSensitivity, weatherSensitiveCategories.
  cbn [JS.own In].
  repeat match goal with
         | |- context [String.eqb ?key category] =>
             destruct (String.eqb_spec key category) as [<- | _];
             [intros H; first [vm_compute in H; discriminate H | clear H; auto 10] |]
         end.
  intros H. vm_compute in H. discriminate H.
Qed.

(** The reasons other than the one for poor weather start differently. *)
Lemma not_indoor (criteria : AIFilteringCriteria.t) (reason : string) :
  String.prefix "ind" reason = false -> reason <> indoorReason criteria.
Proof.
  intros H E. rewrite E in H. discriminate H.
Qed.

Lemma collectReasons_indoor (poi : POI.t) (scores : ScoreBreakdown.t)
    (criteria : AIFilteringCriteria.t) :
  In (indoorReason criteria)
     (Recommendation.collectReasons showNumber poi scores criteria) <->
  ScoreBreakdown.weatherSuitability scores < 0.4.
Proof.
  unfold Recommendation.collectReasons, Recommendation.push. cbv zeta.
  destruct (JS.gtb (ScoreBreakdown.weatherSuitability scores) 0.8) eqn:Ehigh.
  - apply gtb_spec in Ehigh. split; [| intros H; lra].
    intros H. exfalso. revert H.
    destruct (JS.gtb (ScoreBreakdown.preferenceMatch scores) 0.8),
      (JS.gtb (ScoreBreakdown.timeRelevance scores) 0.8),
      (JS.gtb (ScoreBreakdown.popularityScore scores) 0.8 && _ && _),
      (JS.gtb (ScoreBreakdown.seasonalRelevance scores) 0.8);
      cbn [app length Nat.eqb In]; intros H;
      repeat (destruct H as [H | H]; [revert H; now apply not_indoor |]);
      exact H.
  - destruct (JS.ltb (ScoreBreakdown.weatherSuitability scores) 0.4) eqn:Elow.
    + apply ltb_spec in Elow. split; [intros _; assumption | intros _].
      destruct (JS.gtb (ScoreBreakdown.preferenceMatch scores) 0.8),
        (JS.gtb (ScoreBreakdown.timeRelevance scores) 0.8),
        (JS.gtb (ScoreBreakdown.popularityScore scores) 0.8 && _ && _),
        (JS.gtb (ScoreBreakdown.seasonalRelevance scores) 0.8);
        cbn [app length Nat.eqb In]; left; reflexivity.
    + apply ltb_false in Elow. split; [| intros H; lra].
      intros H. exfalso. revert H.
      destruct (JS.gtb (ScoreBreakdown.preferenceMatch scores) 0.8),
        (JS.gtb (ScoreBreakdown.timeRelevance scores) 0.8),
        (JS.gtb (ScoreBreakdown.popularityScore scores) 0.8 && _ && _),
        (JS.gtb (ScoreBreakdown.seasonalRelevance scores) 0.8);
        cbn [app length Nat.eqb In]; intros H;
        repeat (destruct H as [H | H]; [revert H; now apply not_indoor |]);
        exact H.
Qed.

Lemma collectReasons_length (poi : POI.t) (scores : ScoreBreakdown.t)
    (criteria : AIFilteringCriteria.t) :
  (1 <= length (Recommendation.collectReasons showNumber poi scores criteria) <= 5)%nat.
Proof.
  unfold Recommendation.collectReasons, Recommendation.push. cbv zeta.
  destruct (JS.gtb (ScoreBreakdown.weatherSuitability scores) 0.8);
    [| destruct (JS.ltb (ScoreBreakdown.weatherSuitability scores) 0.4)];
    destruct (JS.gtb (ScoreBreakdown.preferenceMatch scores) 0.8),
      (JS.gtb (ScoreBreakdown.timeRelevance scores) 0.8),
      (JS.gtb (ScoreBreakdown.popularityScore scores) 0.8 && _ && _),
      (JS.gtb (ScoreBreakdown.seasonalRelevance scores) 0.8);
    cbn [app length Nat.eqb]; lia.
Qed.

Lemma sentence_shape (reasons : list string) :
  reasons <> [] ->
  exists body,
    Recommendation.sentence reasons = ("Recommended for " ++ body ++ ".")%string /\
    List.last (map Some reasons) None <> None.
Proof.
  intros Hne.
  assert (Hlast : List.last (map Some reasons) None <> None).
  { clear -Hne. induction reasons as [| r rest IH]; [contradiction |].
    destruct rest as [| r' rest']; [discriminate |].
    change (List.last (map Some (r' :: rest')) None <> None).
    apply IH. discriminate. }
  destruct reasons as [| r0 [| r1 [| r2 rest]]]; [contradiction | | |].
  - exists r0. split; [reflexivity | assumption].
  - exists (r0 ++ " and " ++ r1)%string. split; [| assumption].
    unfold Recommendation.sentence. now rewrite !append_assoc.
  - eexists. split; [| assumption].
    unfold Recommendation.sentence.
    rewrite <- (append_assoc _ ", and " _), <- (append_assoc _ _ ".").
    reflexivity.
Qed.

(** X14.  The reason "indoor alternative due to ..." is given to a scored
    POI only when its weather sub-score is below 0.4, and this happens only
    to POIs of the weather-sensitive categories (parks, outdoor activities,
    scenic views, local markets, historic sites) in weather that itself
    scores below 0.4: never to a museum, gallery, shop, restaurant or
    the like. *)
Theorem indoor_alternative_only_for_outdoor_places (poi : POI.t)
    (criteria : AIFilteringCriteria.t) :
  In (indoorReason criteria)
     (Recommendation.collectReasons showNumber poi
        (ScoredPOI.scoreBreakdown (AIPOIFilter.scorePOI poi criteria)) criteria) ->
  In (POI.category poi) weatherSensitiveCategories /\
  WeatherService.getWeatherSuitabilityScore
    (AIFilteringCriteria.weatherConditions criteria) < 0.4.
Proof.
  intros H. apply collectReasons_indoor in H.
  rewrite scorePOI_breakdown in H. cbn [ScoreBreakdown.weatherSuitability] in H.
  rewrite calculateWeatherSuitability_blend in H.
  destruct (POI.weather poi); [| exfalso; revert H; discriminate].
  cbv zeta in H.
  pose proof (sensitivity_range (POI.category poi)) as Hs.
  pose proof (getWeatherSuitabilityScore_range
                (AIFilteringCriteria.weatherConditions criteria)) as Hb.
  pose proof (sensitive_category (POI.category poi)) as Hc.
  set (s := JS.or_else _ _) in *.
  set (b := WeatherService.getWeatherSuitabilityScore _) in *.
  split; [apply Hc |]; nra.
Qed.

(** X15.  A recommendation gives between one and five reasons, reads
    "Recommended for ... ." and never has to print a missing last reason;
    when no sub-score stands out it is the sentence about an interesting
    place of the POI's category. *)
Theorem recommendation_sentence_shape (poi : POI.t) (scores : ScoreBreakdown.t)
    (criteria : AIFilteringCriteria.t) :
  (1 <= length (Recommendation.collectReasons showNumber poi scores criteria) <= 5)%nat /\
  (exists body,
     Recommendation.generateRecommendationReason showNumber poi scores criteria =
     ("Recommended for " ++ body ++ ".")%string) /\
  List.last (map Some (Recommendation.collectReasons showNumber poi scores criteria))
    None <> None /\
  (0.4 <= ScoreBreakdown.weatherSuitability scores <= 0.8 ->
   ScoreBreakdown.preferenceMatch scores <= 0.8 ->
   ScoreBreakdown.timeRelevance scores <= 0.8 ->
   ScoreBreakdown.popularityScore scores <= 0.8 ->
   ScoreBreakdown.seasonalRelevance scores <= 0.8 ->
   Recommendation.generateRecommendationReason showNumber poi scores criteria =
   ("Recommended for " ++
    ("interesting " ++ JS.toLowerCase (POI.category poi) ++ " along your route") ++
    ".")%string).
Proof.
  pose proof (collectReasons_length poi scores criteria) as Hlen.
  split; [exact Hlen |].
  destruct (sentence_shape (Recommendation.collectReasons showNumber poi scores criteria))
    as (body & Hbody & Hlast).
  { intros E. rewrite E in Hlen. simpl in Hlen. lia. }
  split; [exists body; exact Hbody |]. split; [exact Hlast |].
  intros [Hw1 Hw2] Hp Ht Hpop Hs.
  unfold Recommendation.generateRecommendationReason, Recommendation.collectReasons,
    Recommendation.push. cbv zeta.
  apply gtb_false in Hw2, Hp, Ht, Hpop, Hs. apply ltb_false in Hw1.
  rewrite Hw1, Hw2, Hp, Ht, Hpop, Hs. reflexivity.
Qed.

End RecommendationReasons.

(** An instance of X14: a park scored in a thunderstorm. *)
Lemma indoor_alternative_only_for_outdoor_places_witness :
  In (POI.category stormyPark) weatherSensitiveCategories /\
  (WeatherService.getWeatherSuitabilityScore
     (AIFilteringCriteria.weatherConditions
        (AIPOIFilter.buildFilteringCriteria stormyTrip morningInJune)) < 0.4)%Q.
Proof.
  apply (indoor_alternative_only_for_outdoor_places plainNumber stormyPark
           (AIPOIFilter.buildFilteringCriteria stormyTrip morningInJune)).
  vm_compute. left. reflexivity.
Defined.

(* ===================================================================== *)
(** * Further properties: reading provider data *)
(* ===================================================================== *)

Section SerpFields.
Local Open Scope Q_scope.

Lemma prefix_dollars_iff (k n : nat) :
  String.prefix (dollars k) (dollars n) = true <-> (k <= n)%nat.
Proof.
  revert n. induction k as [| k IH]; intros n.
  - simpl. split; [lia | now destruct n].
  - destruct n as [| n]; simpl; [split; [discriminate | lia] |].
    rewrite IH. lia.
Qed.

Lemma includes_dollars (k n : nat) :
  (0 < k)%nat -> JS.includes (dollars n) (dollars k) = true <-> (k <= n)%nat.
Proof.
  intros Hk. induction n as [| n IH].
  - destruct k; [lia |]. simpl. split; [discriminate | lia].
  - change (JS.includes (dollars (S n)) (dollars k))
      with (String.prefix (dollars k) (dollars (S n)) || JS.includes (dollars n) (dollars k)).
    rewrite orb_true_iff, prefix_dollars_iff, IH. lia.
Qed.

Lemma includes_dollars_bool (k n : nat) :
  (0 < k)%nat -> JS.includes (dollars n) (dollars k) = (k <=? n)%nat.
Proof.
  intros Hk. destruct (k <=? n)%nat eqn:E.
  - apply includes_dollars; [assumption | now apply Nat.leb_le].
  - apply Nat.leb_gt in E. destruct (JS.includes _ _) eqn:E'; [| reflexivity].
    apply includes_dollars in E'; [lia | assumption].
Qed.

(** X16.  The price level read from a provider's price string is always
    on the 1 to 4 scale; a missing or empty string gives 2, and a string
    of [n >= 1] dollar signs gives [n], capped at 4. *)
Theorem price_level_counts_dollar_signs (price : option string) :
  onPriceScale (POISources.mapSerpPriceLevel price) /\
  (JS.truthy_string price = false -> POISources.mapSerpPriceLevel price = 2) /\
  (forall n, (1 <= n)%nat -> price = Some (dollars n) ->
     POISources.mapSerpPriceLevel price = inject_Z (Z.of_nat (Nat.min n 4))).
Proof.
  unfold onPriceScale. split; [| split].
  - unfold POISources.mapSerpPriceLevel.
    destruct (negb _); [tauto |]. cbv zeta.
    repeat (destruct (JS.includes _ _); [tauto |]). tauto.
  - intros H. unfold POISources.mapSerpPriceLevel. now rewrite H.
  - intros n Hn ->. unfold POISources.mapSerpPriceLevel.
    assert (Ht : JS.truthy_string (Some (dollars n)) = true)
      by (destruct n; [lia | reflexivity]).
    rewrite Ht. cbn [negb JS.showString].
    change "$$$$$"%string with (dollars 5). change "$$$$"%string with (dollars 4).
    change "$$$"%string with (dollars 3). change "$$"%string with (dollars 2).
    change "$"%string with (dollars 1).
    rewrite !includes_dollars_bool by lia.
    destruct n as [| [| [| [| [| n]]]]]; try lia; try reflexivity.
Qed.

End SerpFields.

(* ===================================================================== *)
(** * Further properties: generated data and the search *)
(* ===================================================================== *)

Section RandomComputations.
Local Open Scope Q_scope.

Lemma produces_ret {A} (a : A) (P : A -> Prop) : P a -> produces (JS.ret a) P.
Proof. intros H g Hg. split; assumption. Qed.

Lemma produces_random (P : Q -> Prop) :
  (forall r, 0 <= r < 1 -> P r) -> produces JS.random P.
Proof.
  intros H g Hg. split; [apply H, Hg | intros n; apply Hg].
Qed.

Lemma produces_bind {A B} (c : JS.Gen A) (k : A -> JS.Gen B)
    (Q : A -> Prop) (P : B -> Prop) :
  produces c Q -> (forall a, Q a -> produces (k a) P) -> produces (JS.bind c k) P.
Proof.
  intros Hc Hk g Hg. unfold JS.bind.
  destruct (Hc g Hg) as [Ha Hg']. destruct (c g) as [a g'].
  exact (Hk a Ha g' Hg').
Qed.

Lemma produces_weaken {A} (c : JS.Gen A) (P P' : A -> Prop) :
  produces c P -> (forall a, P a -> P' a) -> produces c P'.
Proof.
  intros Hc Himp g Hg. destruct (Hc g Hg) as [Ha Hg']. split; auto.
Qed.

Lemma produces_any {A} (c : JS.Gen A) (P : A -> Prop) :
  produces c P -> produces c (fun _ => True).
Proof. intros H. apply (produces_weaken c P); auto. Qed.

Lemma index_in_range {A} (array : list A) (r : Q) :
  array <> [] -> 0 <= r < 1 ->
  exists a,
    JS.index array (JS.floor (r * inject_Z (Z.of_nat (length array)))) = Some a /\
    In a array.
Proof.
  intros Hne Hr.
  assert (Hlen : (0 < Z.of_nat (length array))%Z)
    by (destruct array; [contradiction | simpl length; lia]).
  assert (Hq : 0 < inject_Z (Z.of_nat (length array)))
    by (change 0 with (inject_Z 0); now rewrite <- Zlt_Qlt).
  destruct (floor_between (r * inject_Z (Z.of_nat (length array))) 0
              (Z.of_nat (length array))) as [Hlo Hhi].
  { change (inject_Z 0) with 0. nra. }
  { set (n := inject_Z _) in *. nra. }
  unfold JS.index. set (i := JS.floor _) in *.
  destruct (i <? 0)%Z eqn:E; [apply Z.ltb_lt in E; lia |].
  destruct (nth_error array (Z.to_nat i)) as [a |] eqn:En.
  - exists a. split; [reflexivity | now apply nth_error_In in En].
  - apply nth_error_None in En. lia.
Qed.

Lemma produces_pick {A} (array : list A) :
  array <> [] ->
  produces (POIService.pick array) (fun picked => exists a, picked = Some a /\ In a array).
Proof.
  intros Hne. unfold POIService.pick.
  apply (produces_bind _ _ (fun r => 0 <= r < 1)); [now apply produces_random |].
  intros r Hr. apply produces_ret. now apply index_in_range.
Qed.

Lemma generatedRating_of_draw (r : Q) :
  0 <= r < 1 ->
  generatedRating (Some (inject_Z (JS.round ((r * 2 + 3) * 10)) / 10)).
Proof.
  intros Hr. eexists. split; [reflexivity |].
  assert (H : (30 <= JS.round ((r * 2 + 3) * 10) <= 50)%Z).
  { unfold JS.round.
    destruct (floor_between ((r * 2 + 3) * 10 + (1 # 2)) 30 51) as [Hlo Hhi].
    - change (inject_Z 30) with 30. lra.
    - change (inject_Z 51) with 51. lra.
    - unfold JS.floor in *. lia. }
  set (n := JS.round _) in *.
  assert (Hq : inject_Z 30 <= inject_Z n <= inject_Z 50)
    by (split; rewrite <- Zle_Qle; lia).
  change (inject_Z 30) with 30 in Hq. change (inject_Z 50) with 50 in Hq.
  split; [| now exists n].
  set (q := inject_Z n) in *. split.
  - apply Qle_shift_div_l; [reflexivity | lra].
  - apply Qle_shift_div_r; [reflexivity | lra].
Qed.

End RandomComputations.

Section Fallback.
Local Open Scope Q_scope.
Variable encodeURIComponent : string -> string.
Variable toString36 : Q -> string.
Variable now36 : string.

Ltac any_step :=
  first [ apply produces_ret; exact I
        | apply produces_random; intros; exact I
        | eapply (produces_bind _ _ (fun _ => True)); [| intros ? _] ].

Lemma generateId_any :
  produces (POIService.generateId toString36 now36) (fun _ => True).
Proof. unfold POIService.generateId. repeat any_step. Qed.

Lemma pick_any {A} (array : list A) : produces (POIService.pick array) (fun _ => True).
Proof. unfold POIService.pick. repeat any_step. Qed.

Lemma generateRealisticPOIName_any (category : string) :
  produces (POIService.generateRealisticPOIName category) (fun _ => True).
Proof.
  unfold POIService.generateRealisticPOIName. cbv zeta.
  eapply (produces_bind _ _ (fun _ => True)); [apply pick_any | intros ? _].
  now apply produces_ret.
Qed.

Lemma generateRealisticAddress_any :
  produces POIService.generateRealisticAddress (fun _ => True).
Proof.
  unfold POIService.generateRealisticAddress.
  eapply (produces_bind _ _ (fun _ => True)); [repeat any_step | intros ? _].
  cbv zeta.
  eapply (produces_bind _ _ (fun _ => True)); [apply pick_any | intros ? _].
  now apply produces_ret.
Qed.

Lemma generateRealisticPhoneNumber_any :
  produces POIService.generateRealisticPhoneNumber (fun _ => True).
Proof. unfold POIService.generateRealisticPhoneNumber. repeat any_step. Qed.

Lemma generateRealisticPriceLevel_scale (category : string) :
  produces (POIService.generateRealisticPriceLevel category) pricedOnScale.
Proof.
  unfold POIService.generateRealisticPriceLevel. cbv zeta.
  set (levels := match JS.own POIService.priceLevels category with
                 | Some l => l
                 | None => [2; 3]
                 end).
  assert (H : levels <> [] /\ forall a, In a levels -> onPriceScale a).
  { unfold levels, POIService.priceLevels, onPriceScale. cbn [JS.own].
    repeat match goal with
           | |- context [String.eqb ?key category] =>
               destruct (String.eqb key category);
               [split; [discriminate | cbn [In]; intuition auto] |]
           end.
    split; [discriminate | cbn [In]; intuition auto]. }
  destruct H as [Hne Hall].
  apply (produces_weaken _ _ _ (produces_pick levels Hne)).
  intros picked (a & -> & Hin). exists a. split; [reflexivity | now apply Hall].
Qed.

Lemma generateRealisticOpeningHours_nonempty (category : string) :
  POIService.generateRealisticOpeningHours category <> [].
Proof.
  unfold POIService.generateRealisticOpeningHours, POIService.schedules.
  cbn [JS.own].
  repeat match goal with
         | |- context [String.eqb ?key category] =>
             destruct (String.eqb key category); [discriminate |]
         end.
  discriminate.
Qed.

(** Whether a string followed by a text that starts with an ASCII
    character is well formed. *)
Lemma isWellFormed_append (s : string) (b : ascii) (t : string) :
  (nat_of_ascii b < 160)%nat ->
  JS.isWellFormed (s ++ String b t)%string =
  JS.isWellFormed s && JS.isWellFormed (String b t).
Proof.
  intros Hb.
  assert (Hs : forall a, JS.isSurrogate a b = false).
  { intros a. unfold JS.isSurrogate.
    destruct (160 <=? nat_of_ascii b)%nat eqn:E;
      [apply Nat.leb_le in E; lia | apply andb_false_r]. }
  induction s as [| a s IH].
  - reflexivity.
  - destruct s as [| a' s].
    + change (JS.isWellFormed (String a (String b t)) =
              true && JS.isWellFormed (String b t)).
      cbn [JS.isWellFormed]. now rewrite Hs.
    + change (negb (JS.isSurrogate a a') &&
              JS.isWellFormed (String a' s ++ String b t)%string =
              negb (JS.isSurrogate a a') && JS.isWellFormed (String a' s) &&
              JS.isWellFormed (String b t)).
      rewrite IH. apply andb_assoc.
Qed.

Lemma mockPhoto_returns (category suffix : string) :
  JS.isWellFormed category = true ->
  suffix = " interior"%string \/ suffix = " exterior"%string ->
  POIService.mockPhoto encodeURIComponent (category ++ suffix)%string =
  JS.Returns (POIService.placeholder encodeURIComponent (category ++ suffix)%string).
Proof.
  intros Hc Hs. unfold POIService.mockPhoto.
  assert (E : JS.isWellFormed (category ++ suffix)%string = true).
  { destruct Hs as [-> | ->];
      (rewrite isWellFormed_append; [now rewrite Hc | vm_compute; lia]). }
  now rewrite E.
Qed.

Lemma mockPhoto_throws (category : string) :
  JS.isWellFormed category = false ->
  POIService.mockPhoto encodeURIComponent (category ++ " interior")%string =
  JS.Throws "URIError".
Proof.
  intros Hc. unfold POIService.mockPhoto.
  rewrite isWellFormed_append by (vm_compute; lia). now rewrite Hc.
Qed.

Lemma mockPOI_shaped (location : Location.t Q) (category : string)
    (categories : list string) :
  In category categories ->
  JS.isWellFormed category = true ->
  produces (POIService.mockPOI encodeURIComponent toString36 now36 location category)
    (fun result =>
       exists poi, result = JS.Returns poi /\ mockShaped location categories poi).
Proof.
  intros Hin Hwf. unfold POIService.mockPOI.
  eapply (produces_bind _ _ (fun _ => True)); [apply generateId_any | intros id _].
  eapply (produces_bind _ _ (fun _ => True));
    [apply generateRealisticPOIName_any | intros name _].
  cbv zeta.
  apply (produces_bind _ _ (fun r => 0 <= r < 1));
    [now apply produces_random | intros rLat HrLat].
  apply (produces_bind _ _ (fun r => 0 <= r < 1));
    [now apply produces_random | intros rLng HrLng].
  eapply (produces_bind _ _ (fun _ => True));
    [apply generateRealisticAddress_any | intros address _].
  apply (produces_bind _ _ (fun r => 0 <= r < 1));
    [now apply produces_random | intros rRating HrRating].
  apply (produces_bind _ _ pricedOnScale);
    [apply generateRealisticPriceLevel_scale | intros priceLevel Hprice].
  rewrite !mockPhoto_returns by (auto; tauto).
  eapply (produces_bind _ _ (fun _ => True)); [apply generateId_any | intros websiteId _].
  eapply (produces_bind _ _ (fun _ => True));
    [apply generateRealisticPhoneNumber_any | intros phone _].
  apply (produces_bind _ _ (fun r => 0 <= r < 1));
    [now apply produces_random | intros rScore HrScore].
  apply (produces_bind _ _ (fun r => 0 <= r < 1));
    [now apply produces_random | intros rDistance HrDistance].
  apply produces_ret. eexists. split; [reflexivity |]. unfold mockShaped.
  cbn [POI.category POI.location POI.rating POI.priceLevel POI.distanceFromRoute
       POI.aiScore POI.photos POI.openingHours POI.weather Location.lat Location.lng
       length].
  repeat split; try assumption; try lra; try tauto.
  - now apply generatedRating_of_draw.
  - apply generateRealisticOpeningHours_nonempty.
Qed.

(** The object literal of a category that holds a lone surrogate is never
    completed. *)
Lemma mockPOI_throws (location : Location.t Q) (category : string) :
  JS.isWellFormed category = false ->
  produces (POIService.mockPOI encodeURIComponent toString36 now36 location category)
    (fun result => result = JS.Throws "URIError").
Proof.
  intros Hwf. unfold POIService.mockPOI.
  eapply (produces_bind _ _ (fun _ => True)); [apply generateId_any | intros id _].
  eapply (produces_bind _ _ (fun _ => True));
    [apply generateRealisticPOIName_any | intros name _].
  cbv zeta.
  eapply (produces_bind _ _ (fun _ => True)); [repeat any_step | intros rLat _].
  eapply (produces_bind _ _ (fun _ => True)); [repeat any_step | intros rLng _].
  eapply (produces_bind _ _ (fun _ => True));
    [apply generateRealisticAddress_any | intros address _].
  eapply (produces_bind _ _ (fun _ => True)); [repeat any_step | intros rRating _].
  eapply (produces_bind _ _ (fun _ => True));
    [apply (produces_any _ _ (generateRealisticPriceLevel_scale category))
    | intros priceLevel _].
  rewrite (mockPhoto_throws category Hwf). now apply produces_ret.
Qed.

Lemma mockLoop_shaped (location : Location.t Q) (category : string)
    (categories : list string) (remaining : nat) :
  In category categories ->
  JS.isWellFormed category = true ->
  forall mockPOIs,
    Forall (mockShaped location categories) mockPOIs ->
    produces (POIService.mockLoop encodeURIComponent toString36 now36 location category
                remaining mockPOIs)
      (fun result =>
         exists pois,
           result = JS.Returns pois /\
           Forall (mockShaped location categories) pois /\
           length pois = (length mockPOIs + remaining)%nat).
Proof.
  intros Hin Hwf. induction remaining as [| k IH]; intros acc Hacc;
    cbn [POIService.mockLoop].
  - apply produces_ret. exists acc. split; [reflexivity |].
    split; [assumption | lia].
  - eapply produces_bind; [now apply (mockPOI_shaped location category categories) |].
    intros result (poi & -> & Hpoi).
    assert (Hacc' : Forall (mockShaped location categories) (acc ++ [poi])).
    { apply Forall_app. split; [assumption |]. now constructor. }
    apply (produces_weaken _ _ _ (IH (acc ++ [poi])%list Hacc')).
    intros result (pois & -> & Hall & Hlen). exists pois.
    split; [reflexivity |]. split; [assumption |].
    rewrite Hlen, length_app. simpl. lia.
Qed.

Lemma mockLoop_throws (location : Location.t Q) (category : string)
    (remaining : nat) (mockPOIs : list POI.t) :
  JS.isWellFormed category = false ->
  (0 < remaining)%nat ->
  produces (POIService.mockLoop encodeURIComponent toString36 now36 location category
              remaining mockPOIs)
    (fun result => result = JS.Throws "URIError").
Proof.
  intros Hwf Hpos. destruct remaining as [| k]; [lia |].
  cbn [POIService.mockLoop].
  eapply produces_bind; [now apply mockPOI_throws |].
  intros result ->. now apply produces_ret.
Qed.

(** Every category gets between 2 and 5 POIs. *)
Lemma poisInCategory_range (r : Q) :
  0 <= r < 1 -> (2 <= Z.to_nat (JS.floor (r * 4) + 2) <= 5)%nat.
Proof.
  intros Hr. destruct (floor_between (r * 4) 0 4) as [Hlo Hhi].
  - change (inject_Z 0) with 0. lra.
  - change (inject_Z 4) with 4. lra.
  - lia.
Qed.

Lemma mockCategories_shaped (location : Location.t Q) (categories : list string)
    (targetCategories : list string) :
  (forall category, In category targetCategories -> In category categories) ->
  Forall (fun category => JS.isWellFormed category = true) targetCategories ->
  forall mockPOIs,
    Forall (mockShaped location categories) mockPOIs ->
    produces (POIService.mockCategories encodeURIComponent toString36 now36 location
                targetCategories mockPOIs)
      (fun result =>
         exists pois,
           result = JS.Returns pois /\
           Forall (mockShaped location categories) pois /\
           (length mockPOIs + 2 * length targetCategories <= length pois
            <= length mockPOIs + 5 * length targetCategories)%nat).
Proof.
  induction targetCategories as [| category rest IH]; intros Hsub Hwf acc Hacc;
    cbn [POIService.mockCategories].
  - apply produces_ret. exists acc. split; [reflexivity |].
    split; [assumption | simpl; lia].
  - apply Forall_cons in Hwf as [Hc Hwf].
    apply (produces_bind _ _ (fun r => 0 <= r < 1));
      [now apply produces_random | intros r Hr].
    cbv zeta. pose proof (poisInCategory_range r Hr) as Hn.
    set (poisInCategory := Z.to_nat _) in *.
    eapply produces_bind.
    + apply (mockLoop_shaped location category categories poisInCategory);
        [apply Hsub; now left | exact Hc | exact Hacc].
    + intros result (acc' & -> & Hall & Hlen).
      apply (produces_weaken _ _ _
               (IH (fun c Hin => Hsub c (or_intror Hin)) Hwf acc' Hall)).
      intros result (pois & -> & Hall' & Hlen'). exists pois.
      split; [reflexivity |]. split; [assumption |]. simpl length. lia.
Qed.

Lemma mockCategories_throws (location : Location.t Q) (category : string)
    (rest : list string) (mockPOIs : list POI.t) :
  JS.isWellFormed category = false ->
  produces (POIService.mockCategories encodeURIComponent toString36 now36 location
              (category :: rest) mockPOIs)
    (fun result => result = JS.Throws "URIError").
Proof.
  intros Hwf. cbn [POIService.mockCategories].
  apply (produces_bind _ _ (fun r => 0 <= r < 1));
    [now apply produces_random | intros r Hr].
  cbv zeta. pose proof (poisInCategory_range r Hr) as Hn.
  eapply produces_bind; [apply mockLoop_throws; [exact Hwf | lia] |].
  intros result ->. now apply produces_ret.
Qed.


Lemma generateEnhancedMockPOIs_targets (location : Location.t Q)
    (categories : list string) :
  POIService.generateEnhancedMockPOIs encodeURIComponent toString36 now36
    location categories =
  POIService.mockCategories encodeURIComponent toString36 now36 location
    (mockTargets categories) [].
Proof.
  unfold POIService.generateEnhancedMockPOIs. now destruct categories.
Qed.


(** The fallback of a request whose first category holds a lone surrogate
    throws. *)
Lemma generateEnhancedMockPOIs_throws (location : Location.t Q)
    (category : string) (others : list string) :
  JS.isWellFormed category = false ->
  produces (POIService.generateEnhancedMockPOIs encodeURIComponent toString36 now36
              location (category :: others))
    (fun result => result = JS.Throws "URIError").
Proof.
  intros Hwf. rewrite generateEnhancedMockPOIs_targets.
  now apply mockCategories_throws.
Qed.

Lemma removeDuplicatePOIs_nonempty (pois : list POI.t) :
  pois <> [] -> POIService.removeDuplicatePOIs pois <> [].
Proof.
  destruct pois as [| p rest]; [congruence |]. intros _.
  rewrite removeDuplicatePOIs_keepFirst. simpl. discriminate.
Qed.

Lemma slice0_nonempty {A} (n : nat) (l : list A) :
  (0 < n)%nat -> l <> [] -> JS.slice0 n l <> [].
Proof. destruct n, l; simpl; try congruence; lia. Qed.

Lemma slice0_length {A} (n : nat) (l : list A) : (length (JS.slice0 n l) <= n)%nat.
Proof. unfold JS.slice0. rewrite length_take. lia. Qed.

Lemma trySource_contribution (source : POIService.Source) location categories radius
    (allPOIs : list POI.t) :
  POIService.trySource source location categories radius allPOIs =
  allPOIs ++ contribution source location categories radius.
Proof.
  unfold POIService.trySource, contribution.
  destruct (source location categories radius); [reflexivity | now rewrite app_nil_r].
Qed.

(** The search, in terms of the concatenated pool. *)
Lemma searchPOIsNearLocation_pool (searchSerpAPI searchOverpassAPI : POIService.Source)
    location categories radius (g : JS.Rng) :
  let pool := concatenatedPool searchSerpAPI searchOverpassAPI location categories radius in
  POIService.searchPOIsNearLocation encodeURIComponent toString36 now36
    searchSerpAPI searchOverpassAPI location categories radius g =
  match pool with
  | [] =>
      let '(mockPOIs, g') :=
        POIService.generateEnhancedMockPOIs encodeURIComponent toString36 now36
          location categories g in
      (match mockPOIs with
       | JS.Throws error => JS.Rejected error
       | JS.Returns mockPOIs =>
           JS.Fulfilled
             (JS.slice0 POIService.MAX_RESULTS
                (POIService.removeDuplicatePOIs mockPOIs))
       end, g')
  | _ :: _ =>
      (JS.Fulfilled
         (JS.slice0 POIService.MAX_RESULTS (POIService.removeDuplicatePOIs pool)),
       g)
  end.
Proof.
  intros pool. unfold POIService.searchPOIsNearLocation.
  rewrite !trySource_contribution. simpl ([] ++ _).
  rewrite <- app_assoc. fold (concatenatedPool searchSerpAPI searchOverpassAPI
                                location categories radius). fold pool.
  destruct pool as [| p rest]; simpl.
  - unfold JS.bind, JS.ret.
    destruct (POIService.generateEnhancedMockPOIs _ _ _ location categories g)
      as [[mockPOIs | error] g']; reflexivity.
  - reflexivity.
Qed.

(** C9.  Where the code departs from the claim: when no source contributes
    a POI and the first requested category holds a lone surrogate, the
    search does not return the fallback set: the URIError that
    [encodeURIComponent] throws while the fallback is generated, outside
    every [try], rejects the promise of the search. *)
Theorem search_rejects_when_the_fallback_throws
    (searchSerpAPI searchOverpassAPI : POIService.Source)
    (location : Location.t Q) (category : string) (others : list string)
    (radius : Q) (g : JS.Rng) :
  random_in_range g ->
  concatenatedPool searchSerpAPI searchOverpassAPI location (category :: others)
    radius = [] ->
  JS.isWellFormed category = false ->
  fst (POIService.searchPOIsNearLocation encodeURIComponent toString36 now36
         searchSerpAPI searchOverpassAPI location (category :: others) radius g) =
  JS.Rejected "URIError".
Proof.
  intros Hg Hpool Hwf. rewrite searchPOIsNearLocation_pool. rewrite Hpool.
  destruct (generateEnhancedMockPOIs_throws location category others Hwf g Hg)
    as [E _].
  destruct (POIService.generateEnhancedMockPOIs _ _ _ location _ g)
    as [mockPOIs g'].
  cbn [fst] in E |- *. now rewrite E.
Qed.

(** X30.  When every requested category is a well-formed string, the
    search is fulfilled whether the two remote sources fail or return
    POIs (POIs as their type declares them): a failing source contributes
    no POI to the pool; the result is the first 20 of the deduplicated
    pool, or of the deduplicated fallback set, which is not empty, when
    the pool is empty; so the result is not empty and holds at most 20
    POIs. *)
Theorem search_returns_pool_or_fallback
    (searchSerpAPI searchOverpassAPI : POIService.Source)
    (location : Location.t Q) (categories : list string) (radius : Q) (g : JS.Rng) :
  random_in_range g ->
  Forall (fun category => JS.isWellFormed category = true) categories ->
  let pool := concatenatedPool searchSerpAPI searchOverpassAPI location categories radius in
  exists pois g',
    POIService.searchPOIsNearLocation encodeURIComponent toString36 now36
      searchSerpAPI searchOverpassAPI location categories radius g =
    (JS.Fulfilled pois, g') /\
    (pool <> [] ->
     pois = JS.slice0 20 (POIService.removeDuplicatePOIs pool)) /\
    (pool = [] ->
     exists fallback,
       fst (POIService.generateEnhancedMockPOIs encodeURIComponent toString36 now36
              location categories g) = JS.Returns fallback /\
       fallback <> [] /\
       pois = JS.slice0 20 (POIService.removeDuplicatePOIs fallback)) /\
    pois <> [] /\
    (length pois <= 20)%nat.
Proof.
  intros Hg Hwf pool.
  rewrite searchPOIsNearLocation_pool. fold pool.
  destruct pool as [| p rest].
  - assert (Hwf' : Forall (fun category => JS.isWellFormed category = true)
                     (mockTargets categories)).
    { destruct categories; [| exact Hwf].
      unfold mockTargets, POIService.defaultCategories.
      repeat (constructor; [reflexivity |]). constructor. }
    destruct (mockCategories_shaped location (mockTargets categories)
                (mockTargets categories) (fun c Hc => Hc) Hwf' []
                (Forall_nil_2 _) g Hg)
      as [(fallback & E & _ & Hlen) _].
    rewrite <- generateEnhancedMockPOIs_targets in E.
    assert (Hne : fallback <> []).
    { intros ->. destruct categories; simpl in Hlen; lia. }
    destruct (POIService.generateEnhancedMockPOIs _ _ _ location categories g)
      as [mockPOIs g'].
    cbn [fst] in E |- *. subst mockPOIs.
    exists (JS.slice0 20 (POIService.removeDuplicatePOIs fallback)), g'.
    split; [reflexivity |]. split; [congruence |]. split.
    + intros _. exists fallback. repeat split; assumption.
    + split; [| apply slice0_length].
      apply slice0_nonempty; [lia |]. now apply removeDuplicatePOIs_nonempty.
  - exists (JS.slice0 20 (POIService.removeDuplicatePOIs (p :: rest))), g.
    split; [reflexivity |]. split; [reflexivity |]. split; [discriminate |].
    split; [| apply slice0_length].
    apply slice0_nonempty; [lia |]. now apply removeDuplicatePOIs_nonempty.
Qed.

End Fallback.


(** An instance of C9: both remote sources fail and the one requested
    category is a lone surrogate, U+D800. *)
Lemma search_rejects_when_the_fallback_throws_witness :
  fst (POIService.searchPOIsNearLocation (fun s => s) plainRendering "lx2k"
         failingSource failingSource (Location.mk 10%Q 20%Q "Checkpoint 1")
         [loneSurrogate] 10%Q halves) = JS.Rejected "URIError".
Proof.
  apply (search_rejects_when_the_fallback_throws (fun s => s) plainRendering "lx2k"
           failingSource failingSource (Location.mk 10%Q 20%Q "Checkpoint 1")
           loneSurrogate [] 10%Q halves);
    [apply halves_in_range | reflexivity | reflexivity].
Defined.

(** An instance of X30: both remote sources fail. *)
Lemma search_returns_pool_or_fallback_witness :
  exists pois g',
    POIService.searchPOIsNearLocation (fun s => s) plainRendering "lx2k"
      failingSource failingSource (Location.mk 10%Q 20%Q "Checkpoint 1")
      ["Parks"%string] 10%Q halves = (JS.Fulfilled pois, g') /\
    pois <> [] /\ (length pois <= 20)%nat.
Proof.
  destruct (search_returns_pool_or_fallback (fun s => s) plainRendering "lx2k"
              failingSource failingSource (Location.mk 10%Q 20%Q "Checkpoint 1")
              ["Parks"%string] 10%Q halves halves_in_range)
    as (pois & g' & Heq & _ & _ & Hne & Hlen).
  { repeat (constructor; [reflexivity |]). constructor. }
  exists pois, g'. repeat split; assumption.
Defined.

Section SerpResults.
Local Open Scope Q_scope.
Variable encodeURIComponent : string -> string.
Variable toString36 : Q -> string.
Variable now36 : string.









End SerpResults.


Section MapData.
Local Open Scope Q_scope.
Variable encodeURIComponent : string -> string.








End MapData.


Section TagRoundTrip.

Lemma tagIs_other (k k' v v' : string) :
  k <> k' -> POISources.tagIs ({[ k := v ]} : gmap string string) k' v' = false.
Proof.
  intros H. unfold POISources.tagIs, POISources.Tags.
  now rewrite lookup_singleton_ne.
Qed.

Lemma tagSet_other (k k' v : string) :
  k <> k' -> POISources.tagSet ({[ k := v ]} : gmap string string) k' = false.
Proof.
  intros H. unfold POISources.tagSet, POISources.Tags.
  now rewrite lookup_singleton_ne.
Qed.

Lemma tagSet_same (k v : string) :
  v <> ""%string -> POISources.tagSet ({[ k := v ]} : gmap string string) k = true.
Proof.
  intros H. unfold POISources.tagSet, POISources.Tags. rewrite lookup_singleton_eq.
  destruct v; [contradiction | reflexivity].
Qed.

(** X20.  An element that carries just one of the tags asked for under a
    category is read back as of that category, with two exceptions: a
    marketplace, asked for under Shopping, and an amusement arcade, asked
    for under Entertainment, are read back as Other.  Whatever the value
    of its tag, a shop is read back as Shopping and a historic feature as
    Historic Sites. *)
Theorem requested_tags_read_back (category : string)
    (mappedTags : list POISources.OSMTag) (tag : POISources.OSMTag) :
  JS.own POISources.categoryMap category = Some mappedTags ->
  In tag mappedTags ->
  (POISources.value tag <> "*"%string ->
   POISources.mapOSMTagsToCategory
     ({[ POISources.key tag := POISources.value tag ]} : gmap string string) =
   if readsBackAsOther tag then "Other"%string else category) /\
  (POISources.value tag = "*"%string ->
   forall v, v <> ""%string ->
     POISources.mapOSMTagsToCategory
       ({[ POISources.key tag := v ]} : gmap string string) = category).
Proof.
  unfold POISources.categoryMap. cbn [JS.own].
  repeat match goal with
         | |- context [String.eqb ?key category] =>
             destruct (String.eqb_spec key category) as [<- | _];
             [intros [= <-]; cbn [In]; intros Hin;
              repeat (destruct Hin as [<- | Hin]; [split | ]);
              try contradiction;
              try (intros _; vm_compute; reflexivity);
              try (intros Hstar; discriminate Hstar);
              try (intros Hstar; exfalso; apply Hstar; reflexivity) |]
         end.
  - intros _ v Hv. cbn [POISources.key]. unfold POISources.mapOSMTagsToCategory.
    rewrite !tagIs_other by discriminate. now rewrite tagSet_same.
  - intros _ v Hv. cbn [POISources.key]. unfold POISources.mapOSMTagsToCategory.
    rewrite !tagIs_other by discriminate. rewrite tagSet_other by discriminate.
    now rewrite tagSet_same.
  - discriminate.
Qed.

(** An instance of X20: the marketplace. *)
Lemma requested_tags_read_back_witness :
  POISources.mapOSMTagsToCategory
    ({[ "amenity"%string := "marketplace"%string ]} : gmap string string) =
  "Other"%string.
Proof.
  destruct (requested_tags_read_back "Shopping"
              [POISources.mkTag "shop" "*"; POISources.mkTag "amenity" "marketplace"]
              (POISources.mkTag "amenity" "marketplace"))
    as [H _]; [reflexivity | right; left; reflexivity |].
  apply H. discriminate.
Defined.

End TagRoundTrip.

Section RequestedTags.

Lemma categoryMap_entries_nonempty (category : string)
    (mappedTags : list POISources.OSMTag) :
  JS.own POISources.categoryMap category = Some mappedTags -> mappedTags <> [].
Proof.
  unfold POISources.categoryMap. cbn [JS.own].
  repeat match goal with
         | |- context [String.eqb ?key category] =>
             destruct (String.eqb key category); [intros [= <-]; discriminate |]
         end.
  discriminate.
Qed.

Lemma categoryMap_entries_short (category : string)
    (mappedTags : list POISources.OSMTag) :
  JS.own POISources.categoryMap category = Some mappedTags ->
  (length mappedTags <= 3)%nat.
Proof.
  unfold POISources.categoryMap. cbn [JS.own].
  repeat match goal with
         | |- context [String.eqb ?key category] =>
             destruct (String.eqb key category); [intros [= <-]; simpl; lia |]
         end.
  discriminate.
Qed.

(** The tag table has no entry under a name that every object inherits. *)
Lemma categoryMap_inherited (category : string) :
  JS.inherited category = true -> JS.own POISources.categoryMap category = None.
Proof.
  intros H. unfold POISources.categoryMap. cbn [JS.own].
  repeat match goal with
         | |- context [String.eqb ?key category] =>
             destruct (String.eqb_spec key category) as [<- | _];
               [vm_compute in H; discriminate H |]
         end.
  reflexivity.
Qed.

(** The loop over categories that are no inherited names appends the
    entries of the table, in order. *)
Lemma forEachCategory_returns (categories : list string) :
  Forall (fun category => JS.inherited category = false) categories ->
  forall tags,
    POISources.forEachCategory categories tags =
    JS.Returns (tags ++ entriesOf categories).
Proof.
  induction 1 as [| c rest Hc _ IH]; intros tags;
    cbn [POISources.forEachCategory entriesOf flat_map].
  - now rewrite app_nil_r.
  - unfold entriesOf in IH.
    destruct (JS.own POISources.categoryMap c) as [mapped |].
    + now rewrite IH, app_assoc.
    + rewrite Hc. now rewrite IH.
Qed.

(** The loop throws at the first category that is an inherited name. *)
Lemma forEachCategory_throws (categories : list string) :
  Exists (fun category => JS.inherited category = true) categories ->
  forall tags,
    POISources.forEachCategory categories tags = JS.Throws "TypeError".
Proof.
  induction categories as [| c rest IH]; intros Hex tags.
  - now apply Exists_nil in Hex.
  - cbn [POISources.forEachCategory].
    destruct (JS.inherited c) eqn:Hc.
    + now rewrite (categoryMap_inherited c Hc).
    + apply Exists_cons in Hex as [Hex | Hex]; [congruence |].
      destruct (JS.own POISources.categoryMap c); now apply IH.
Qed.

(** X27.  The tags asked of the map data.  A requested category that is a
    name every object inherits makes the call throw a TypeError.
    Otherwise the call returns the entries of the tag table for the
    requested categories, category by category in the order of the
    request, at most 3 tags for each; a category without an entry asks for
    nothing, so a request made only of such categories asks for no tag at
    all. *)
Theorem unmapped_categories_ask_for_nothing (categories : list string) :
  (Exists (fun category => JS.inherited category = true) categories ->
   POISources.mapCategoriesToOSMTags categories = JS.Throws "TypeError") /\
  (Forall (fun category => JS.inherited category = false) categories ->
   exists tags,
     POISources.mapCategoriesToOSMTags categories = JS.Returns tags /\
     tags = entriesOf categories /\
     (tags = [] <->
      Forall (fun category => JS.own POISources.categoryMap category = None)
        categories) /\
     (length tags <= 3 * length categories)%nat).
Proof.
  unfold POISources.mapCategoriesToOSMTags. split.
  - intros Hex. now apply forEachCategory_throws.
  - intros Hord. exists (entriesOf categories).
    split; [now rewrite forEachCategory_returns |]. split; [reflexivity |].
    clear Hord. unfold entriesOf. split.
    + induction categories as [| c rest IH]; cbn [flat_map].
      * split; [constructor | reflexivity].
      * destruct (JS.own POISources.categoryMap c) as [mapped |] eqn:E.
        -- split.
           ++ intros H. apply app_eq_nil in H as [H _].
              now apply categoryMap_entries_nonempty in E.
           ++ intros H. apply Forall_cons_1 in H as [H _]. cbv beta in H.
              congruence.
        -- cbn [app]. rewrite IH. split; [intros H; now constructor |].
           intros H. now apply Forall_cons_1 in H as [_ H].
    + induction categories as [| c rest IH]; cbn [flat_map length]; [lia |].
      rewrite length_app.
      destruct (JS.own POISources.categoryMap c) as [mapped |] eqn:E.
      * apply categoryMap_entries_short in E. lia.
      * cbn [length]. lia.
Qed.

End RequestedTags.

(* ===================================================================== *)
(** * Further properties: the in-memory store *)
(* ===================================================================== *)

Section Store.

Lemma JSMap_get_set_eq {V} (m : JSMap.t V) (k : string) (v : V) :
  JSMap.get (JSMap.set m k v) k = Some v.
Proof.
  unfold JSMap.get. induction m as [| [k' v'] rest IH]; cbn [JSMap.set JS.own].
  - now rewrite String.eqb_refl.
  - destruct (String.eqb k' k) eqn:E; cbn [JS.own].
    + now rewrite String.eqb_refl.
    + now rewrite E.
Qed.

Lemma JSMap_get_set_ne {V} (m : JSMap.t V) (k k' : string) (v : V) :
  k <> k' -> JSMap.get (JSMap.set m k v) k' = JSMap.get m k'.
Proof.
  intros Hne. unfold JSMap.get.
  induction m as [| [k0 v0] rest IH]; cbn [JSMap.set JS.own].
  - destruct (String.eqb_spec k k'); [contradiction | reflexivity].
  - destruct (String.eqb_spec k0 k) as [-> | Hk]; cbn [JS.own].
    + destruct (String.eqb_spec k k'); [contradiction | reflexivity].
    + now rewrite IH.
Qed.

Lemma JSMap_get_None {V} (m : JSMap.t V) (k : string) :
  JSMap.get m k = None <-> ~ In k (JSMap.keys m).
Proof.
  unfold JSMap.get, JSMap.keys.
  induction m as [| [k' v'] rest IH]; cbn [JS.own map fst In]; [tauto |].
  destruct (String.eqb_spec k' k) as [-> | Hk].
  - split; [discriminate | tauto].
  - rewrite IH. tauto.
Qed.

Lemma JSMap_set_new {V} (m : JSMap.t V) (k : string) (v : V) :
  JSMap.get m k = None -> JSMap.set m k v = (m ++ [(k, v)])%list.
Proof.
  unfold JSMap.get. induction m as [| [k' v'] rest IH]; cbn [JSMap.set JS.own app];
    [reflexivity |].
  destruct (String.eqb k' k); [discriminate |]. intros H. now rewrite IH.
Qed.

Lemma JSMap_keys_set_old {V} (m : JSMap.t V) (k : string) (v : V) :
  JSMap.get m k <> None -> JSMap.keys (JSMap.set m k v) = JSMap.keys m.
Proof.
  unfold JSMap.get, JSMap.keys.
  induction m as [| [k' v'] rest IH]; cbn [JSMap.set JS.own map fst];
    [contradiction |].
  destruct (String.eqb_spec k' k) as [-> | Hk]; cbn [map fst]; [reflexivity |].
  intros H. now rewrite IH.
Qed.

Lemma JSMap_keys_set {V} (m : JSMap.t V) (k : string) (v : V) :
  NoDup (JSMap.keys m) -> NoDup (JSMap.keys (JSMap.set m k v)).
Proof.
  intros Hm. destruct (JSMap.get m k) as [old |] eqn:E.
  - rewrite JSMap_keys_set_old; [assumption | congruence].
  - rewrite JSMap_set_new by assumption. unfold JSMap.keys in *.
    rewrite map_app. apply NoDup_app. split; [assumption |]. split.
    + intros x Hx [<- | []]%list_elem_of_In. apply JSMap_get_None in E.
      apply E. apply list_elem_of_In. exact Hx.
    + apply NoDup_singleton.
Qed.

Lemma JSMap_delete_keys {V} (m : JSMap.t V) (k k' : string) :
  In k' (JSMap.keys (JSMap.delete m k)) -> In k' (JSMap.keys m).
Proof.
  unfold JSMap.keys. induction m as [| [k0 v0] rest IH]; cbn [JSMap.delete map fst];
    [tauto |].
  destruct (String.eqb k0 k); cbn [map fst In]; tauto.
Qed.

Lemma JSMap_keys_delete {V} (m : JSMap.t V) (k : string) :
  NoDup (JSMap.keys m) ->
  NoDup (JSMap.keys (JSMap.delete m k)) /\ ~ In k (JSMap.keys (JSMap.delete m k)).
Proof.
  unfold JSMap.keys. induction m as [| [k0 v0] rest IH]; cbn [JSMap.delete map fst].
  - intros _. split; [constructor | tauto].
  - intros [Hnotin Hrest]%NoDup_cons.
    destruct (String.eqb_spec k0 k) as [-> | Hk].
    + split; [assumption |]. intros H. apply Hnotin. now apply list_elem_of_In.
    + destruct (IH Hrest) as [IH1 IH2]. cbn [map fst]. split.
      * apply NoDup_cons. split; [| assumption].
        intros H%list_elem_of_In. apply Hnotin, list_elem_of_In.
        now apply (JSMap_delete_keys rest k k0).
      * cbn [In]. tauto.
Qed.

Lemma JSMap_get_delete_ne {V} (m : JSMap.t V) (k k' : string) :
  k <> k' -> JSMap.get (JSMap.delete m k) k' = JSMap.get m k'.
Proof.
  intros Hne. unfold JSMap.get.
  induction m as [| [k0 v0] rest IH]; cbn [JSMap.delete JS.own]; [reflexivity |].
  destruct (String.eqb_spec k0 k) as [-> | Hk]; cbn [JS.own].
  - destruct (String.eqb_spec k k'); [contradiction | reflexivity].
  - now rewrite IH.
Qed.

(** X21.  A saved trip is found again under its id; saving it changes
    what is stored under no other id, nor the preferences or the POI
    cache.  A trip with a new id comes last in the list of all trips; a
    trip with an id already in use takes the place of the earlier one, so
    the list keeps its length. *)
Theorem saved_trip_is_found (store : InMemoryDatabase.DatabaseStore)
    (trip : TripPlan.t) :
  InMemoryDatabase.getTripPlan (InMemoryDatabase.saveTripPlan store trip)
    (TripPlan.id trip) = Some trip /\
  (forall id, id <> TripPlan.id trip ->
     InMemoryDatabase.getTripPlan (InMemoryDatabase.saveTripPlan store trip) id =
     InMemoryDatabase.getTripPlan store id) /\
  (forall userId,
     InMemoryDatabase.getUserPreferences (InMemoryDatabase.saveTripPlan store trip) userId =
     InMemoryDatabase.getUserPreferences store userId) /\
  (forall routeKey,
     InMemoryDatabase.getCachedPOIs (InMemoryDatabase.saveTripPlan store trip) routeKey =
     InMemoryDatabase.getCachedPOIs store routeKey) /\
  (InMemoryDatabase.getTripPlan store (TripPlan.id trip) = None ->
   InMemoryDatabase.getAllTrips (InMemoryDatabase.saveTripPlan store trip) =
   (InMemoryDatabase.getAllTrips store ++ [trip])%list) /\
  (InMemoryDatabase.getTripPlan store (TripPlan.id trip) <> None ->
   length (InMemoryDatabase.getAllTrips (InMemoryDatabase.saveTripPlan store trip)) =
   length (InMemoryDatabase.getAllTrips store)) /\
  (tripsDistinct store -> tripsDistinct (InMemoryDatabase.saveTripPlan store trip)).
Proof.
  unfold InMemoryDatabase.getTripPlan, InMemoryDatabase.saveTripPlan,
    InMemoryDatabase.getUserPreferences, InMemoryDatabase.getCachedPOIs,
    InMemoryDatabase.getAllTrips, tripsDistinct.
  cbn [InMemoryDatabase.trips InMemoryDatabase.userPreferences InMemoryDatabase.poiCache].
  split; [apply JSMap_get_set_eq |].
  split; [intros id Hid; apply JSMap_get_set_ne; congruence |].
  split; [reflexivity |]. split; [reflexivity |].
  split; [| split].
  - intros Hnew. rewrite JSMap_set_new by assumption.
    unfold JSMap.values. now rewrite map_app.
  - intros Hold. unfold JSMap.values. rewrite !length_map.
    rewrite <- (length_map fst (JSMap.set _ _ _)), <- (length_map fst (InMemoryDatabase.trips store)).
    change (length (JSMap.keys (JSMap.set (InMemoryDatabase.trips store) (TripPlan.id trip) trip)) =
            length (JSMap.keys (InMemoryDatabase.trips store))).
    now rewrite JSMap_keys_set_old.
  - apply JSMap_keys_set.
Qed.

(** X22.  In a store whose trips have distinct ids, a deleted trip is no
    longer found, the other trips are found as before, and the ids stay
    distinct. *)
Theorem deleted_trip_is_gone (store : InMemoryDatabase.DatabaseStore) (id : string) :
  tripsDistinct store ->
  InMemoryDatabase.getTripPlan (InMemoryDatabase.deleteTripPlan store id) id = None /\
  (forall other, other <> id ->
     InMemoryDatabase.getTripPlan (InMemoryDatabase.deleteTripPlan store id) other =
     InMemoryDatabase.getTripPlan store other) /\
  tripsDistinct (InMemoryDatabase.deleteTripPlan store id).
Proof.
  unfold tripsDistinct, InMemoryDatabase.getTripPlan, InMemoryDatabase.deleteTripPlan.
  cbn [InMemoryDatabase.trips]. intros Hd.
  destruct (JSMap_keys_delete (InMemoryDatabase.trips store) id Hd) as [Hnd Hgone].
  split; [now apply JSMap_get_None |].
  split; [intros other Hne; apply JSMap_get_delete_ne; congruence | assumption].
Qed.

(** An instance of X22: a trip saved twice and then deleted. *)
Lemma deleted_trip_is_gone_witness :
  InMemoryDatabase.getTripPlan
    (InMemoryDatabase.deleteTripPlan
       (InMemoryDatabase.saveTripPlan
          (InMemoryDatabase.saveTripPlan InMemoryDatabase.initial sampleTrip)
          revisedTrip)
       "trip-1") "trip-1" = None.
Proof.
  apply (deleted_trip_is_gone
           (InMemoryDatabase.saveTripPlan
              (InMemoryDatabase.saveTripPlan InMemoryDatabase.initial sampleTrip)
              revisedTrip) "trip-1").
  unfold tripsDistinct. cbn. apply NoDup_singleton.
Defined.

End Store.

(* ===================================================================== *)
(** * Further properties: location search *)
(* ===================================================================== *)

Section LocationSearch.

Lemma filter_sublist {A} (f : A -> bool) (l : list A) : List.filter f l `sublist_of` l.
Proof.
  induction l as [| x l IH]; cbn [List.filter]; [constructor |].
  destruct (f x); [now apply sublist_skip | now apply sublist_cons].
Qed.

Lemma getFallbackResults_matches (query : string) :
  (length (GeocodingService.getFallbackResults query) <= 5)%nat /\
  GeocodingService.getFallbackResults query
    `sublist_of` GeocodingService.fallbackLocations /\
  Forall (fun location =>
            JS.includes (JS.toLowerCase (GeocodeResult.address location))
                        (JS.toLowerCase query) = true)
         (GeocodingService.getFallbackResults query).
Proof.
  unfold GeocodingService.getFallbackResults. cbv zeta.
  set (matching := List.filter _ _).
  split; [apply slice0_length |]. split.
  - transitivity matching; [apply sublist_take | apply filter_sublist].
  - apply List.Forall_forall. intros location Hin.
    assert (Hm : In location matching).
    { apply list_elem_of_In. eapply elem_of_sublist;
        [apply list_elem_of_In; exact Hin | apply sublist_take]. }
    apply filter_In in Hm as [_ Hm]. exact Hm.
Qed.

(** X23.  A location search with a missing query or one of fewer than 2
    characters gives no suggestion, whatever the provider would answer.
    When the provider cannot be reached, answers with an error status or
    with a body that cannot be read, the suggestions are at most 5 places
    of the built-in list, in the order of the list, each with an address
    that contains the query regardless of case. *)
Theorem search_falls_back_to_known_places (fetch : GeocodingService.SearchProvider)
    (query : option string) :
  ((query = None \/ exists q, query = Some q /\ (String.length q < 2)%nat) ->
   GeocodingService.searchLocations fetch query = []) /\
  ((forall results,
      fetch (JS.showString query) <>
      JS.Fulfilled (WeatherLookup.mkReply true (JS.Fulfilled results))) ->
   (length (GeocodingService.searchLocations fetch query) <= 5)%nat /\
   GeocodingService.searchLocations fetch query
     `sublist_of` GeocodingService.fallbackLocations /\
   Forall (fun location =>
             JS.includes (JS.toLowerCase (GeocodeResult.address location))
                         (JS.toLowerCase (JS.showString query)) = true)
          (GeocodingService.searchLocations fetch query)).
Proof.
  unfold GeocodingService.searchLocations. split.
  - intros [-> | (q & -> & Hq)]; [reflexivity |].
    apply Nat.ltb_lt in Hq. cbn [JS.showString]. rewrite Hq.
    now rewrite orb_true_r.
  - intros Hdown.
    destruct (negb _ || _).
    { split; [simpl; lia |]. split; [apply sublist_nil_l | constructor]. }
    cbv zeta.
    destruct (fetch (JS.showString query)) as [[[] [results |]] |] eqn:E;
      try apply getFallbackResults_matches.
    exfalso. now apply (Hdown results).
Qed.

(** An instance of X23: the provider is down and the query is "PUR". *)
Lemma search_falls_back_to_known_places_witness :
  (length (GeocodingService.searchLocations unreachableSearch (Some "PUR"%string)) <= 5)%nat /\
  GeocodingService.searchLocations unreachableSearch (Some "PUR"%string)
    `sublist_of` GeocodingService.fallbackLocations /\
  Forall (fun location =>
            JS.includes (JS.toLowerCase (GeocodeResult.address location))
                        (JS.toLowerCase (JS.showString (Some "PUR"%string))) = true)
         (GeocodingService.searchLocations unreachableSearch (Some "PUR"%string)).
Proof.
  apply (search_falls_back_to_known_places unreachableSearch (Some "PUR"%string)).
  intros results. discriminate.
Defined.

End LocationSearch.

Section ReverseLookup.

Lemma coordinatesText_nonempty (lat lng : Q) :
  GeocodingService.coordinatesText lat lng <> ""%string.
Proof.
  unfold GeocodingService.coordinatesText.
  destruct (JS.toFixed 4 lat); discriminate.
Qed.

(** X24.  A reverse lookup never gives the empty string: it gives the
    name the provider reports when that is not empty, and otherwise (no
    answer, an error status, an unreadable body, no name) the two
    coordinates with 4 decimals. *)
Theorem reverse_lookup_never_empty (fetch : GeocodingService.ReverseProvider)
    (lat lng : Q) :
  GeocodingService.reverseGeocode fetch lat lng <> ""%string /\
  (GeocodingService.reverseGeocode fetch lat lng =
     (JS.toFixed 4 lat ++ ", " ++ JS.toFixed 4 lng)%string \/
   exists name,
     fetch lat lng = JS.Fulfilled (WeatherLookup.mkReply true (JS.Fulfilled (Some name))) /\
     name <> ""%string /\
     GeocodingService.reverseGeocode fetch lat lng = name).
Proof.
  unfold GeocodingService.reverseGeocode.
  destruct (fetch lat lng) as [[[] [[name |] |]] |];
    try (split; [apply coordinatesText_nonempty | left; reflexivity]).
  destruct name as [| c s].
  - split; [apply coordinatesText_nonempty | left; reflexivity].
  - split; [discriminate |]. right. exists (String c s).
    split; [reflexivity |]. split; [discriminate | reflexivity].
Qed.

End ReverseLookup.

Section StoreOtherMaps.

(** X25.  Saved preferences are found again under the user's id and
    cached POIs under the route key, an empty list of POIs included;
    neither operation changes the stored trips. *)
Theorem preferences_and_cache_round_trip (store : InMemoryDatabase.DatabaseStore)
    (userId routeKey : string) (preferences : UserPreferences.t) (pois : list POI.t) :
  InMemoryDatabase.getUserPreferences
    (InMemoryDatabase.saveUserPreferences store userId preferences) userId =
    Some preferences /\
  InMemoryDatabase.getCachedPOIs (InMemoryDatabase.cachePOIs store routeKey pois) routeKey =
    Some pois /\
  (forall other, other <> userId ->
     InMemoryDatabase.getUserPreferences
       (InMemoryDatabase.saveUserPreferences store userId preferences) other =
     InMemoryDatabase.getUserPreferences store other) /\
  (forall other, other <> routeKey ->
     InMemoryDatabase.getCachedPOIs (InMemoryDatabase.cachePOIs store routeKey pois) other =
     InMemoryDatabase.getCachedPOIs store other) /\
  InMemoryDatabase.getAllTrips
    (InMemoryDatabase.cachePOIs
       (InMemoryDatabase.saveUserPreferences store userId preferences) routeKey pois) =
  InMemoryDatabase.getAllTrips store.
Proof.
  unfold InMemoryDatabase.getUserPreferences, InMemoryDatabase.saveUserPreferences,
    InMemoryDatabase.getCachedPOIs, InMemoryDatabase.cachePOIs,
    InMemoryDatabase.getAllTrips.
  cbn [InMemoryDatabase.trips InMemoryDatabase.userPreferences InMemoryDatabase.poiCache].
  split; [apply JSMap_get_set_eq |]. split; [apply JSMap_get_set_eq |].
  split; [intros other H; apply JSMap_get_set_ne; congruence |].
  split; [intros other H; apply JSMap_get_set_ne; congruence | reflexivity].
Qed.

End StoreOtherMaps.

Section NonInterference.
Local Open Scope Q_scope.

(** X26.  The score of a POI, its breakdown and its recommendation
    sentence depend on the criteria only through the preferences, the time
    of day, the season, and the temperature, condition and wind speed of
    the weather: the inferred travel style and the humidity change
    nothing. *)
Theorem scoring_ignores_travel_style_and_humidity (poi : POI.t)
    (criteria criteria' : AIFilteringCriteria.t) (showNumber : Q -> string) :
  sameForScoring criteria criteria' ->
  AIPOIFilter.scorePOI poi criteria = AIPOIFilter.scorePOI poi criteria' /\
  Recommendation.generateRecommendationReason showNumber poi
    (ScoredPOI.scoreBreakdown (AIPOIFilter.scorePOI poi criteria)) criteria =
  Recommendation.generateRecommendationReason showNumber poi
    (ScoredPOI.scoreBreakdown (AIPOIFilter.scorePOI poi criteria')) criteria'.
Proof.
  destruct criteria as [prefs [t c h v i] time season style].
  destruct criteria' as [prefs' [t' c' h' v' i'] time' season' style'].
  unfold sameForScoring.
  cbn [AIFilteringCriteria.userPreferences AIFilteringCriteria.timeOfDay
       AIFilteringCriteria.seasonality AIFilteringCriteria.weatherConditions
       WeatherData.temperature WeatherData.condition WeatherData.windSpeed].
  intros (-> & -> & -> & -> & -> & ->). split; reflexivity.
Qed.

(** An instance of X26. *)
Lemma scoring_ignores_travel_style_and_humidity_witness :
  AIPOIFilter.scorePOI topRated
    (AIPOIFilter.buildFilteringCriteria museumTrip morningInJune) =
  AIPOIFilter.scorePOI topRated
    (restyled (AIPOIFilter.buildFilteringCriteria museumTrip morningInJune)
       adventure 99).
Proof.
  apply (scoring_ignores_travel_style_and_humidity topRated
           (AIPOIFilter.buildFilteringCriteria museumTrip morningInJune)
           (restyled (AIPOIFilter.buildFilteringCriteria museumTrip morningInJune)
              adventure 99)
           plainNumber).
  repeat split.
Defined.

End NonInterference.
